(** * query-params: the schema-driven codec, embedded and verified

    A shallow embedding of the core package (packages/core/src): the typed
    errors, the two-byte framing header, boolean bit-packing, the
    reserved-field validation of schemas, the base64url text layer, the
    wire-schema builder and its cache, the encode/decode orchestrator, the
    migration engine, the string dictionary and the wrappers around encode
    and decode (polymorphic.ts, api.ts, query-params.ts).  Definitions come
    first, module by module, each named after the
    source file it embeds; the theorems follow.

    How the code is modelled:
    - a function that can throw returns a [result], the error it throws
      being a value of [error]; a try/catch is [try_catch];
    - a [Uint8Array] is a list of bytes, a JS number an integer, a JS value
      a [value], an object being a finite map from its keys;
    - a zod schema is an object with an identity: schemas live in a store
      ([Schemas]) and refer to each other by reference, so that a schema
      reached twice, or a lazy schema that reaches itself, is the same
      schema, as the visited set of validation.ts has it;
    - what the package calls in zod, protobufjs, zlib and pako is a
      parameter ([Platform]); [Reference] gives one such platform, on which
      the package can be evaluated. *)

From Stdlib Require Import ZArith String Ascii Lia Bool Btauto.
From Stdlib.Strings Require Import Byte.
From stdpp Require Import gmap strings list pretty sorting.

Set Warnings "-register-all,-clear-no-such-hyp".
Local Open Scope Z_scope.

(** ** Bytes and results *)

(** An element of a [Uint8Array].  A store into the array keeps the low
    eight bits of the number stored ([u8]); a load gives a number in
    0..255 ([Zb]). *)
Definition u8 (z : Z) : byte :=
  match Byte.of_N (Z.to_N (z mod 256)) with
  | Some b => b
  | None => x00
  end.

Definition Zb (b : byte) : Z := Z.of_N (Byte.to_N b).

Abbreviation Uint8Array := (list byte).

(** ** errors.ts *)

Module Errors.

(** The classes of errors.ts, each carrying its message.  [PlainError]
    stands for what is thrown as a bare [Error] (or by a library) and is
    none of the typed classes. *)
Inductive error : Type :=
| ValidationError (message : string)
| VersionMismatchError (message : string)
| DecodingError (message : string)
| CompressionError (message : string)
| PlainError (message : string).

Definition message (e : error) : string :=
  match e with
  | ValidationError m | VersionMismatchError m | DecodingError m
  | CompressionError m | PlainError m => m
  end.

(** A call either returns or throws. *)
Inductive result (A : Type) : Type :=
| Ok (a : A)
| Throw (e : error).

Arguments Ok {A} a.
Arguments Throw {A} e.

Definition bind {A B : Type} (r : result A) (k : A -> result B) : result B :=
  match r with
  | Ok a => k a
  | Throw e => Throw e
  end.

(** [try { body } catch (error) { throw handler }]. *)
Definition try_catch {A : Type} (body : result A) (handler : error -> error) : result A :=
  match body with
  | Ok a => Ok a
  | Throw e => Throw (handler e)
  end.

Definition createVersionMismatchError (message : string) : error :=
  VersionMismatchError message.

End Errors.

Export Errors.

(** Sequencing, in stdpp's notation: [x ← r; k] runs [k] on what [r]
    returns and throws what [r] throws. *)
#[global] Instance result_bind : MBind result := fun A B k r => bind r k.

(** ** format.ts *)

Module Format.

Definition FLAGS_COMPRESSED : Z := Z.shiftl 1 6.
Definition FLAGS_STRING_DICTIONARY : Z := Z.shiftl 1 4.
Definition FLAGS_BOOLEAN_PACKING : Z := Z.shiftl 1 5.

(** The options object of [encodeWithHeader]: [compressed] is required,
    the two optimisation flags may be left out ([None], which is falsy). *)
Record HeaderOptions : Type := {
  compressed : bool;
  stringDictionary : option bool;
  booleanPacking : option bool
}.

Definition truthy (flag : option bool) : bool :=
  match flag with
  | Some b => b
  | None => false
  end.

(** Byte 0: version (lower 6 bits) + compression flag (bit 6). *)
Definition headerByte0 (version : Z) (compressed : bool) : Z :=
  let byte0 := Z.land version 0x3F in
  if compressed then Z.lor byte0 FLAGS_COMPRESSED else byte0.

(** Byte 1: version (upper 4 bits) + optimisation flags. *)
Definition headerByte1 (version : Z) (stringDictionary booleanPacking : bool) : Z :=
  let byte1 := Z.land (Z.shiftr version 6) 0x0F in
  let byte1 := if stringDictionary then Z.lor byte1 FLAGS_STRING_DICTIONARY else byte1 in
  if booleanPacking then Z.lor byte1 FLAGS_BOOLEAN_PACKING else byte1.

Definition encodeWithHeader (payload : Uint8Array) (version : Z) (options : HeaderOptions)
  : result Uint8Array :=
  if (version <? 0) || (version >? 1023) then
    Throw (PlainError "Version must be 0-1023")
  else
    let byte0 := headerByte0 version (compressed options) in
    let byte1 := headerByte1 version (truthy (stringDictionary options))
                                     (truthy (booleanPacking options)) in
    Ok (u8 byte0 :: u8 byte1 :: payload).

(** What [decodeWithHeader] returns. *)
Record Header : Type := {
  h_version : Z;
  h_compressed : bool;
  h_stringDictionary : bool;
  h_booleanPacking : bool;
  h_payload : Uint8Array
}.

Definition decodeWithHeader (encoded : Uint8Array) : result Header :=
  match encoded with
  | b0 :: b1 :: rest =>
    let byte0 := Zb b0 in
    let byte1 := Zb b1 in
    let versionLower := Z.land byte0 0x3F in
    let versionUpper := Z.land byte1 0x0F in
    Ok {| h_version := Z.lor versionLower (Z.shiftl versionUpper 6);
          h_compressed := negb (Z.land byte0 FLAGS_COMPRESSED =? 0);
          h_stringDictionary := negb (Z.land byte1 FLAGS_STRING_DICTIONARY =? 0);
          h_booleanPacking := negb (Z.land byte1 FLAGS_BOOLEAN_PACKING =? 0);
          h_payload := rest |}
  | _ => Throw (PlainError "Encoded data too short - missing header")
  end.

(** [createFlags] gives its options object back. *)
Definition createFlags (options : HeaderOptions) : HeaderOptions := options.

(** [hasFlag(result, flag)] on what [decodeWithHeader] returned. *)
Definition hasFlag (result : Header) (flag : Z) : bool :=
  if flag =? FLAGS_COMPRESSED then h_compressed result
  else false.

End Format.

(** ** optimizations/boolean-packing.ts *)

Module BooleanPacking.

(** [Math.ceil(n / 8)] on a length. *)
Definition ceil8 (n : nat) : nat := ((n + 7) / 8)%nat.

(** The body of the loop of [packBooleans] at index [i]:
    [bytes[byteIndex] |= (1 << bitPosition)] when [values[i]] holds. *)
Definition packStep (i : nat) (v : bool) (bytes : Uint8Array) : Uint8Array :=
  if v then
    let byteIndex := (i / 8)%nat in
    let bitPosition := (i mod 8)%nat in
    alter (fun b => u8 (Z.lor (Zb b) (Z.shiftl 1 (Z.of_nat bitPosition)))) byteIndex bytes
  else bytes.

(** [for (let i = 0; i < values.length; i++)], from index [i] on. *)
Fixpoint packLoop (values : list bool) (i : nat) (bytes : Uint8Array) : Uint8Array :=
  match values with
  | [] => bytes
  | v :: rest => packLoop rest (S i) (packStep i v bytes)
  end.

Definition packBooleans (values : list bool) : Uint8Array :=
  let byteCount := ceil8 (length values) in
  packLoop values 0%nat (replicate byteCount x00).

(** What [unpackBooleans] pushes at index [i]. *)
Definition unpackAt (bytes : Uint8Array) (i : nat) : bool :=
  let byteIndex := (i / 8)%nat in
  let bitPosition := (i mod 8)%nat in
  match bytes !! byteIndex with
  | Some b => Z.land (Z.shiftr (Zb b) (Z.of_nat bitPosition)) 1 =? 1
  | None => false
  end.

Definition unpackBooleans (bytes : Uint8Array) (count : nat) : list bool :=
  map (unpackAt bytes) (seq 0 count).

End BooleanPacking.

(** ** JavaScript values *)

Module JS.

(** The value tree the codec handles.  Numbers are the integers among the
    JavaScript numbers; an object is its map of own properties. *)
Inductive value : Type :=
| VUndefined
| VNull
| VBoolean (b : bool)
| VNumber (n : Z)
| VString (s : string)
| VArray (items : list value)
| VObject (props : gmap string value).

Definition typeof (v : value) : string :=
  match v with
  | VUndefined => "undefined"
  | VNull => "object"
  | VBoolean _ => "boolean"
  | VNumber _ => "number"
  | VString _ => "string"
  | VArray _ => "object"
  | VObject _ => "object"
  end.

(** [obj[key]]: the property, or [undefined]. *)
Definition get (props : gmap string value) (key : string) : value :=
  default VUndefined (props !! key).

End JS.

Export JS.

(** ** validation.ts *)

Module Validation.

Definition RESERVED_FIELD : string := "_encodedStateVersion".

(** A schema is an object with an identity: [hasReservedField] tracks the
    schemas it has visited in a [WeakSet], and [z.lazy] lets a schema be
    reached from itself.  [ZodType] is that identity; the store maps it to
    what the schema is. *)
Abbreviation ZodType := nat.

(** The classes of schema the package tells apart with [instanceof], with
    the parts of [_def] it reads.  [ZodOther] is any other class, by the
    name of its constructor.  [ZodSet] is one class the package has no
    [instanceof] test for, with the schema of its elements: validation.ts
    does not look inside it, converter.ts knows it by its name only. *)
Inductive ZodDef : Type :=
| ZodObject (shape : list (string * ZodType))
| ZodArray (element : ZodType)
| ZodOptional (innerType : ZodType)
| ZodNullable (innerType : ZodType)
| ZodDefault (innerType : ZodType)
| ZodUnion (options : list ZodType)
| ZodDiscriminatedUnion (options : list ZodType)
| ZodIntersection (left_ right_ : ZodType)
| ZodRecord (keyType valueType : ZodType)
| ZodMap (keyType valueType : ZodType)
| ZodTuple (items : list ZodType)
| ZodEffects (schema : ZodType)
| ZodPipeline (pipe_in pipe_out : ZodType)
| ZodLazy (getter : ZodType)
| ZodString
| ZodNumber (checks : list string)
| ZodBoolean
| ZodBigInt
| ZodEnum (values : list string)
| ZodLiteral (value : value)
| ZodOther (constructorName : string)
| ZodSet (valueType : ZodType).

(** The schema objects in existence. *)
Abbreviation Schemas := (gmap ZodType ZodDef).

(** What a call of [hasReservedField] gives back: its boolean and the
    visited set as the call left it; [None] when the call stack (the fuel)
    ran out. *)
Abbreviation Visit := (option (bool * gset ZodType)).

(** [items.some(item => f(item, visited))], and [f(a) || f(b)]: the calls
    run left to right on the one visited set and stop at the first true. *)
Fixpoint someVisited (f : ZodType -> gset ZodType -> Visit)
  (items : list ZodType) (visited : gset ZodType) : Visit :=
  match items with
  | [] => Some (false, visited)
  | item :: rest =>
    match f item visited with
    | Some (true, visited') => Some (true, visited')
    | Some (false, visited') => someVisited f rest visited'
    | None => None
    end
  end.

Fixpoint hasReservedField (fuel : nat) (schemas : Schemas)
  (schema : ZodType) (visited : gset ZodType) : Visit :=
  match fuel with
  | O => None
  | S fuel =>
    if decide (schema ∈ visited) then Some (false, visited)
    else
      let visited := {[schema]} ∪ visited in
      let recur := hasReservedField fuel schemas in
      match schemas !! schema with
      | Some (ZodObject shape) =>
        if decide (RESERVED_FIELD ∈ shape.*1) then Some (true, visited)
        else someVisited recur shape.*2 visited
      | Some (ZodArray element) => recur element visited
      | Some (ZodOptional innerType) => recur innerType visited
      | Some (ZodNullable innerType) => recur innerType visited
      | Some (ZodDefault innerType) => recur innerType visited
      | Some (ZodUnion options) => someVisited recur options visited
      | Some (ZodDiscriminatedUnion options) => someVisited recur options visited
      | Some (ZodIntersection left_ right_) => someVisited recur [left_; right_] visited
      | Some (ZodRecord _ valueType) => recur valueType visited
      | Some (ZodMap keyType valueType) => someVisited recur [keyType; valueType] visited
      | Some (ZodTuple items) => someVisited recur items visited
      | Some (ZodEffects inner) => recur inner visited
      | Some (ZodPipeline pipe_in pipe_out) => someVisited recur [pipe_in; pipe_out] visited
      | Some (ZodLazy getter) => recur getter visited
      | _ => Some (false, visited)
      end
  end.

Definition quote : string := String (ascii_of_nat 34) EmptyString.

Definition reservedMessage : string :=
  "Field name " +:+ quote +:+ RESERVED_FIELD +:+ quote
  +:+ " is reserved and cannot be used in schemas".

(** [validateSchema] starts the traversal on an empty visited set.  The
    stack it is given is deeper than the number of schemas there are, which
    is as deep as the traversal can go. *)
Definition validateSchema (schemas : Schemas) (schema : ZodType) : result unit :=
  match hasReservedField (S (size schemas)) schemas schema ∅ with
  | Some (true, _) => Throw (ValidationError reservedMessage)
  | Some (false, _) => Ok tt
  | None => Throw (PlainError "Maximum call stack size exceeded")
  end.

End Validation.

(** ** compression/base64url.ts *)

(** Node's [Buffer] as far as base64url.ts uses it: the base64 text of a
    byte array (RFC 4648, with padding) and the bytes of a base64 text. *)
Module Buffer.

Definition alphabet : list ascii :=
  list_ascii_of_string "ABCDEFGHIJKLMNOPQRSTUVWXYZabcdefghijklmnopqrstuvwxyz0123456789+/".

Definition pad : ascii := "="%char.

(** The character of a six-bit value. *)
Definition encodeSextet (sextet : Z) : ascii :=
  nth (Z.to_nat sextet) alphabet pad.

(** [Buffer.from(data).toString('base64')]. *)
Fixpoint toBase64 (data : Uint8Array) : list ascii :=
  match data with
  | [] => []
  | [a] =>
    [encodeSextet (Z.shiftr (Zb a) 2);
     encodeSextet (Z.shiftl (Z.land (Zb a) 3) 4);
     pad; pad]
  | [a; b] =>
    [encodeSextet (Z.shiftr (Zb a) 2);
     encodeSextet (Z.lor (Z.shiftl (Z.land (Zb a) 3) 4) (Z.shiftr (Zb b) 4));
     encodeSextet (Z.shiftl (Z.land (Zb b) 15) 2);
     pad]
  | a :: b :: c :: rest =>
    encodeSextet (Z.shiftr (Zb a) 2)
    :: encodeSextet (Z.lor (Z.shiftl (Z.land (Zb a) 3) 4) (Z.shiftr (Zb b) 4))
    :: encodeSextet (Z.lor (Z.shiftl (Z.land (Zb b) 15) 2) (Z.shiftr (Zb c) 6))
    :: encodeSextet (Z.land (Zb c) 63)
    :: toBase64 rest
  end.

(** The six-bit value of a character; the decoder also reads the URL-safe
    characters.  [None] for any other character. *)
Definition decodeSextet (c : ascii) : option Z :=
  if Ascii.eqb c "-" then Some 62
  else if Ascii.eqb c "_" then Some 63
  else
    match list_find (Ascii.eqb c) alphabet with
    | Some (i, _) => Some (Z.of_nat i)
    | None => None
    end.

(** The six-bit values the decoder reads from a text: it stops at the first
    padding character and skips every character that is no base64 digit. *)
Fixpoint sextets (text : list ascii) : list Z :=
  match text with
  | [] => []
  | c :: rest =>
    if Ascii.eqb c pad then []
    else
      match decodeSextet c with
      | Some v => v :: sextets rest
      | None => sextets rest
      end
  end.

(** Four six-bit values give three bytes; a last group of three gives two
    bytes, one of two gives one byte, a lone value gives none. *)
Fixpoint fromSextets (values : list Z) : Uint8Array :=
  match values with
  | s0 :: s1 :: s2 :: s3 :: rest =>
    u8 (Z.lor (Z.shiftl s0 2) (Z.shiftr s1 4))
    :: u8 (Z.lor (Z.shiftl (Z.land s1 15) 4) (Z.shiftr s2 2))
    :: u8 (Z.lor (Z.shiftl (Z.land s2 3) 6) s3)
    :: fromSextets rest
  | [s0; s1; s2] =>
    [u8 (Z.lor (Z.shiftl s0 2) (Z.shiftr s1 4));
     u8 (Z.lor (Z.shiftl (Z.land s1 15) 4) (Z.shiftr s2 2))]
  | [s0; s1] => [u8 (Z.lor (Z.shiftl s0 2) (Z.shiftr s1 4))]
  | _ => []
  end.

(** [new Uint8Array(Buffer.from(text, 'base64'))]. *)
Definition fromBase64 (text : list ascii) : Uint8Array :=
  fromSextets (sextets text).

End Buffer.

Module Base64Url.

(** [text.replace(/from/g, to)] for single characters. *)
Definition replaceAll (from to : ascii) (text : list ascii) : list ascii :=
  map (fun c => if Ascii.eqb c from then to else c) text.

(** [text.replace(/c/g, '')]. *)
Definition removeAll (c : ascii) (text : list ascii) : list ascii :=
  filter (fun x => x ≠ c) text.

Definition encodeBase64Url (data : Uint8Array) : string :=
  let base64 := Buffer.toBase64 data in
  string_of_list_ascii
    (removeAll "=" (replaceAll "/" "_" (replaceAll "+" "-" base64))).

(** The base64 text [decodeBase64Url] hands to [Buffer.from]: the
    substitutions undone and the padding added back. *)
Definition toBase64Text (encoded : string) : list ascii :=
  let base64 := replaceAll "_" "/" (replaceAll "-" "+" (list_ascii_of_string encoded)) in
  let padding := ((4 - length base64 mod 4) mod 4)%nat in
  base64 ++ replicate padding "="%char.

Definition decodeBase64Url (encoded : string) : result Uint8Array :=
  try_catch
    (Ok (Buffer.fromBase64 (toBase64Text encoded)))
    (fun _ => DecodingError "Failed to decode base64url string").

End Base64Url.

(** ** The libraries the package calls *)

(** protobufjs reflection objects, as data: what converter.ts constructs. *)
Module Protobuf.

Inductive Rule : Type := optional | repeated.

Inductive Field : Type :=
| MkField (name : string) (id : Z) (type : string) (rule : option Rule)
| MkMapField (name : string) (id : Z) (keyType : string) (type : string).

Inductive ReflectionObject : Type :=
| MkType (name : string) (fields : list Field)
| MkEnum (name : string) (values : list (string * Z)).

(** A [protobuf.Root]: the reflection objects added to it, in order. *)
Abbreviation Root := (list ReflectionObject).

(** A message type together with the root it was added to. *)
Record Type_ : Type := {
  typeName : string;
  typeFields : list Field;
  typeRoot : Root
}.

End Protobuf.

(** The library calls of the package, taken as parameters: zod's
    [schema.parse], protobufjs's linking of a root ([Root_resolveAll], which
    also stands for the checks the library makes as reflection objects are
    added), its [fromObject], [encode(...).finish()], [decode] and
    [toObject] (under the options decoder.ts passes), zlib's and pako's
    deflate and inflate, and the platform test [isNode]. *)
Record Platform : Type := {
  Message : Type;
  zod_parse : Validation.Schemas -> Validation.ZodType -> value -> result value;
  Root_resolveAll : Protobuf.Root -> result unit;
  Type_fromObject : Protobuf.Type_ -> value -> result Message;
  Type_encode : Protobuf.Type_ -> Message -> result Uint8Array;
  Type_decode : Protobuf.Type_ -> Uint8Array -> result Message;
  Type_toObject : Protobuf.Type_ -> Message -> gmap string value;
  isNode : bool;
  zlib_deflateSync : Uint8Array -> result Uint8Array;
  zlib_inflateSync : Uint8Array -> result Uint8Array;
  pako_deflate : Uint8Array -> result Uint8Array;
  pako_inflate : Uint8Array -> result Uint8Array
}.

(** ** protobuf/converter.ts *)

Module Converter.
Import Validation Protobuf.

Definition stackOverflow : error := PlainError "Maximum call stack size exceeded".

(** [schema.constructor.name]. *)
Definition constructorName (d : option ZodDef) : string :=
  match d with
  | Some (ZodObject _) => "ZodObject"
  | Some (ZodArray _) => "ZodArray"
  | Some (ZodOptional _) => "ZodOptional"
  | Some (ZodNullable _) => "ZodNullable"
  | Some (ZodDefault _) => "ZodDefault"
  | Some (ZodUnion _) => "ZodUnion"
  | Some (ZodDiscriminatedUnion _) => "ZodDiscriminatedUnion"
  | Some (ZodIntersection _ _) => "ZodIntersection"
  | Some (ZodRecord _ _) => "ZodRecord"
  | Some (ZodMap _ _) => "ZodMap"
  | Some (ZodTuple _) => "ZodTuple"
  | Some (ZodEffects _) => "ZodEffects"
  | Some (ZodPipeline _ _) => "ZodPipeline"
  | Some (ZodLazy _) => "ZodLazy"
  | Some ZodString => "ZodString"
  | Some (ZodNumber _) => "ZodNumber"
  | Some ZodBoolean => "ZodBoolean"
  | Some ZodBigInt => "ZodBigInt"
  | Some (ZodEnum _) => "ZodEnum"
  | Some (ZodLiteral _) => "ZodLiteral"
  | Some (ZodOther name) => name
  | Some (ZodSet _) => "ZodSet"
  | None => "Object"
  end.

(** [c.toUpperCase()] on a character (the ASCII letters). *)
Definition toUpperCase (c : ascii) : ascii :=
  let n := nat_of_ascii c in
  if (97 <=? n)%nat && (n <=? 122)%nat then ascii_of_nat (n - 32) else c.

(** [`${fieldName.charAt(0).toUpperCase()}${fieldName.slice(1)}`]. *)
Definition capitalize (fieldName : string) : string :=
  match fieldName with
  | EmptyString => EmptyString
  | String c rest => String (toUpperCase c) rest
  end.

(** [values.forEach((value, index) => enumType.add(value, index))]. *)
Definition enumValues (values : list string) : list (string * Z) :=
  imap (fun index value => (value, Z.of_nat index)) values.

Section Convert.
Context (schemas : Schemas).

(** [while (unwrapped instanceof z.ZodEffects) unwrapped = unwrapped._def.schema].
    The bound is only reached on a chain of effects that returns to itself,
    which the library's constructors cannot build. *)
Fixpoint unwrapEffects (fuel : nat) (schema : ZodType) : result ZodType :=
  match fuel with
  | O => Throw stackOverflow
  | S fuel =>
    match schemas !! schema with
    | Some (ZodEffects inner) => unwrapEffects fuel inner
    | _ => Ok schema
    end
  end.

Definition unwrap (schema : ZodType) : result ZodType :=
  unwrapEffects (S (size schemas)) schema.

(** The calls thread the root they add nested types to. *)
Abbreviation Typing := (ZodType -> string -> Root -> result (string * Root)).

Section Fields.
Context (typeOf : Typing).

(** [convertZodTypeToProtobufField], over the [zodTypeToProtobufType] it
    calls. *)
Definition convertFieldWith (name : string) (fieldNumber : Z) (schema : ZodType)
  (root : Root) : result (Field * Root) :=
  unwrappedSchema ← unwrap schema;
  let '(isOptional, unwrappedSchema) :=
    match schemas !! unwrappedSchema with
    | Some (ZodOptional innerType) => (true, innerType)
    | _ => (false, unwrappedSchema)
    end in
  let '(isOptional, unwrappedSchema) :=
    match schemas !! unwrappedSchema with
    | Some (ZodNullable innerType) => (true, innerType)
    | _ => (isOptional, unwrappedSchema)
    end in
  '(pbType, root) ← typeOf unwrappedSchema name root;
  match schemas !! unwrappedSchema with
  | Some (ZodRecord keyType valueType) =>
    match schemas !! keyType with
    | Some ZodString =>
      '(valuePbType, root) ← typeOf valueType (name +:+ "Value") root;
      Ok (MkMapField name fieldNumber "string" valuePbType, root)
    | _ => Throw (PlainError "Map keys must be strings")
    end
  | Some (ZodArray _) => Ok (MkField name fieldNumber pbType (Some repeated), root)
  | _ =>
    Ok (MkField name fieldNumber pbType (if isOptional then Some optional else None), root)
  end.

(** [for (const [key, fieldSchema] of Object.entries(shape))], numbering
    the fields from [fieldNumber] on. *)
Fixpoint convertFieldsWith (shape : list (string * ZodType)) (fieldNumber : Z)
  (root : Root) : result (list Field * Root) :=
  match shape with
  | [] => Ok ([], root)
  | (key, fieldSchema) :: rest =>
    '(field, root) ← convertFieldWith key fieldNumber fieldSchema root;
    '(fields, root) ← convertFieldsWith rest (fieldNumber + 1) root;
    Ok (field :: fields, root)
  end.

End Fields.

Definition unsupported (d : option ZodDef) : error :=
  PlainError ("Unsupported Zod type: " +:+ constructorName d).

Fixpoint zodTypeToProtobufType (fuel : nat) (schema : ZodType) (fieldName : string)
  (root : Root) : result (string * Root) :=
  match fuel with
  | O => Throw stackOverflow
  | S fuel =>
    unwrappedSchema ← unwrap schema;
    let recur := zodTypeToProtobufType fuel in
    let def := schemas !! unwrappedSchema in
    match def with
    | Some (ZodOptional innerType) | Some (ZodNullable innerType) =>
      recur innerType fieldName root
    | Some ZodString => Ok ("string", root)
    | Some (ZodNumber checks) =>
      if existsb (String.eqb "int") checks then Ok ("int32", root)
      else Ok ("double", root)
    | Some ZodBoolean => Ok ("bool", root)
    | Some (ZodArray elementType) => recur elementType fieldName root
    | Some (ZodObject shape) =>
      let nestedMessageName := capitalize fieldName +:+ "Message" in
      '(fields, root) ← convertFieldsWith recur shape 1 root;
      Ok (nestedMessageName, root ++ [MkType nestedMessageName fields])
    | Some (ZodEnum values) =>
      let enumName := capitalize fieldName +:+ "Enum" in
      Ok (enumName, root ++ [MkEnum enumName (enumValues values)])
    | Some (ZodRecord _ valueType) => recur valueType fieldName root
    | Some ZodBigInt => Ok ("int64", root)
    | Some (ZodDefault innerType) => recur innerType fieldName root
    | Some (ZodUnion (option0 :: _)) => recur option0 fieldName root
    | Some (ZodLiteral (VString _)) => Ok ("string", root)
    | Some (ZodLiteral (VNumber _)) => Ok ("double", root)
    | Some (ZodLiteral (VBoolean _)) => Ok ("bool", root)
    | _ => Throw (unsupported def)
    end
  end.

(** The call stack the conversion is given: deeper than the schemas there
    are, so only a schema nested in itself without a lazy getter in between
    exhausts it. *)
Definition stackDepth : nat := S (S (size schemas)).

Definition convertZodTypeToProtobufField : string -> Z -> ZodType -> Root
  -> result (Field * Root) :=
  convertFieldWith (zodTypeToProtobufType stackDepth).

End Convert.

Section ZodToProtobuf.
Context (P : Platform) (schemas : Schemas).

Definition zodToProtobuf (schema : ZodType) (messageName : string) : result Type_ :=
  let root : Root := [] in
  let versionField := MkField RESERVED_FIELD 1 "uint32" (Some optional) in
  unwrappedSchema ← unwrap schemas schema;
  match schemas !! unwrappedSchema with
  | Some (ZodObject shape) =>
    '(fields, root) ←
      convertFieldsWith schemas (zodTypeToProtobufType schemas (stackDepth schemas))
        shape 2 root;
    let root := root ++ [MkType messageName (versionField :: fields)] in
    resolved ← Root_resolveAll P root;
    Ok {| typeName := messageName;
          typeFields := versionField :: fields;
          typeRoot := root |}
  | _ => Throw (PlainError "Root schema must be a ZodObject")
  end.

End ZodToProtobuf.

End Converter.

(** ** compression/compress.ts, compression/decompress.ts *)

Module Compression.

Section Compression.
Context (P : Platform).

Definition compress (data : Uint8Array) : result Uint8Array :=
  try_catch
    (if isNode P then zlib_deflateSync P data else pako_deflate P data)
    (fun _ => CompressionError "Compression failed").

Definition decompress (data : Uint8Array) : result Uint8Array :=
  try_catch
    (if isNode P then zlib_inflateSync P data else pako_inflate P data)
    (fun _ => CompressionError "Decompression failed").

End Compression.

End Compression.

(** ** encoder.ts *)

Module Encoder.
Import Validation Converter Compression Base64Url.

(** The result type of the safe-parse mode. *)
Record EncodeResult : Type := {
  success : bool;
  data : option string;
  error : option Errors.error
}.

Section Encoder.
Context (P : Platform) (schemas : Schemas).

(** Step 3 of [encodeInternal]: the version is added to the data, except
    version 1. *)
Definition withVersion (validated : gmap string value) (version : Z)
  : gmap string value :=
  if version =? 1 then validated
  else <[RESERVED_FIELD := VNumber version]> validated.

(** Step 6: the marker byte, then the smaller of the two representations. *)
Definition withMarker (binary compressed : Uint8Array) : Uint8Array :=
  if (length compressed <? length binary)%nat then x01 :: compressed
  else x00 :: binary.

Definition encodeInternal (data : value) (schema : ZodType) (version : Z)
  : result string :=
  validateSchema schemas schema ≫= fun _ =>
  validated ← zod_parse P schemas schema data;
  match validated with
  | VObject validated =>
    let withVersion := withVersion validated version in
    pbType ← zodToProtobuf P schemas schema "EncodedState";
    message ← Type_fromObject P pbType (VObject withVersion);
    binary ← Type_encode P pbType message;
    compressed ← compress P binary;
    let finalBinary := withMarker binary compressed in
    Ok (encodeBase64Url finalBinary)
  | _ =>
    Throw (ValidationError
             "Encoded data must be an object. Root schema must be z.object({})")
  end.

(** [encode(data, schema, version = 1)]: the overload that throws. *)
Definition encode (data : value) (schema : ZodType) (version : option Z)
  : result string :=
  encodeInternal data schema (default 1 version).

(** [encode(data, schema, version, { safeParse: true })]. *)
Definition encodeSafe (data : value) (schema : ZodType) (version : Z)
  : EncodeResult :=
  match encodeInternal data schema version with
  | Ok result => {| success := true; data := Some result; error := None |}
  | Throw e => {| success := false; data := None; error := Some e |}
  end.

End Encoder.

End Encoder.

(** ** decoder.ts *)

Module Decoder.
Import Validation Converter Compression Base64Url.

Record DecodeResult : Type := {
  success : bool;
  data : option value;
  error : option Errors.error;
  version : option Z
}.

Definition invalidMarker (marker : string) : Errors.error :=
  DecodingError ("Invalid compression marker: " +:+ marker +:+ ". Expected 0x00 or 0x01").

Section Decoder.
Context (P : Platform) (schemas : Schemas).

(** Step 2 of [decodeInternal]: the branch on the compression marker. *)
Definition unmark (dataWithMarker : Uint8Array) : result Uint8Array :=
  match dataWithMarker with
  | [] => Throw (invalidMarker "undefined")
  | compressionMarker :: payload =>
    if Zb compressionMarker =? 0x01 then decompress P payload
    else if Zb compressionMarker =? 0x00 then Ok payload
    else Throw (invalidMarker (pretty (Zb compressionMarker)))
  end.

(** Step 5: the version read off the decoded object, and the object
    without it. *)
Definition extractVersion (decodedObj : gmap string value)
  : result (gmap string value * Z) :=
  match get decodedObj RESERVED_FIELD with
  | VUndefined => Ok (decodedObj, 1)
  | VNumber version => Ok (delete RESERVED_FIELD decodedObj, version)
  | version =>
    Throw (DecodingError
             ("Invalid version field: " +:+ RESERVED_FIELD
              +:+ ". Expected number, got " +:+ typeof version))
  end.

Definition decodeInternal (encoded : string) (schema : ZodType)
  : result (value * Z) :=
  validateSchema schemas schema ≫= fun _ =>
  dataWithMarker ← decodeBase64Url encoded;
  binary ← unmark dataWithMarker;
  pbType ← zodToProtobuf P schemas schema "EncodedState";
  decoded ← try_catch (Type_decode P pbType binary)
              (fun _ => DecodingError "Failed to decode protobuf message");
  let decodedObj := Type_toObject P pbType decoded in
  '(dataWithoutVersion, finalVersion) ← extractVersion decodedObj;
  validated ← zod_parse P schemas schema (VObject dataWithoutVersion);
  Ok (validated, finalVersion).

(** [decode(encoded, schema)]: the overload that throws. *)
Definition decode (encoded : string) (schema : ZodType) : result value :=
  '(data, _) ← decodeInternal encoded schema;
  Ok data.

(** [decode(encoded, schema, { safeParse: true })]. *)
Definition decodeSafe (encoded : string) (schema : ZodType) : DecodeResult :=
  match decodeInternal encoded schema with
  | Ok (data, version) =>
    {| success := true; data := Some data; error := None; version := Some version |}
  | Throw e =>
    {| success := false; data := None; error := Some e; version := None |}
  end.

Definition decodeWithVersion (encoded : string) (schema : ZodType)
  : result (value * Z) :=
  decodeInternal encoded schema.

End Decoder.

End Decoder.

(** ** migrations.ts *)

Module Migrations.
Import Validation Encoder Decoder.

(** A migration between two versions: pure functions on the decoded value. *)
Record Migration : Type := {
  up : value -> value;
  down : value -> value
}.

Definition createMigration (migration : Migration) : Migration := migration.

(** [migrations[migrationIndex]] when it is there and truthy.  An entry of
    the array may be missing ([None]); an index outside the array reads
    [undefined]. *)
Definition migrationAt (migrations : list (option Migration)) (migrationIndex : Z)
  : option Migration :=
  if migrationIndex <? 0 then None
  else mjoin (migrations !! Z.to_nat migrationIndex).

(** [!!migration]. *)
Definition truthy (migration : option Migration) : bool :=
  match migration with
  | Some _ => true
  | None => false
  end.

Section Migrations.
Context (P : Platform) (schemas : Schemas).

Definition extractVersionAndData (encoded : string) (sourceSchema : ZodType)
  : result (Z * value) :=
  '(data, version) ← decodeWithVersion P schemas encoded sourceSchema;
  Ok (version, data).

Section Loops.
Context (currentVersion targetVersion : Z) (migrations : list (option Migration)).

Definition missingUpgrade (v : Z) : Errors.error :=
  createVersionMismatchError
    ("Missing migration from version " +:+ pretty v +:+ " to " +:+ pretty (v + 1) +:+ ". "
     +:+ "Cannot upgrade from v" +:+ pretty currentVersion
     +:+ " to v" +:+ pretty targetVersion +:+ ".").

Definition missingDowngrade (v : Z) : Errors.error :=
  createVersionMismatchError
    ("Missing migration from version " +:+ pretty v +:+ " to " +:+ pretty (v - 1) +:+ ". "
     +:+ "Cannot downgrade from v" +:+ pretty currentVersion
     +:+ " to v" +:+ pretty targetVersion +:+ ".").

(** [for (let v = currentVersion; v < targetVersion; v++)], with [steps]
    rounds to go from [v]. *)
Fixpoint upgrade (steps : nat) (v : Z) (data : value) : result value :=
  match steps with
  | O => Ok data
  | S steps =>
    let migrationIndex := v - 1 in
    if (migrationIndex >=? Z.of_nat (length migrations))
       || negb (truthy (migrationAt migrations migrationIndex))
    then Throw (missingUpgrade v)
    else
      match migrationAt migrations migrationIndex with
      | Some migration => upgrade steps (v + 1) (up migration data)
      | None => Throw (missingUpgrade v)
      end
  end.

(** [for (let v = currentVersion; v > targetVersion; v--)]. *)
Fixpoint downgrade (steps : nat) (v : Z) (data : value) : result value :=
  match steps with
  | O => Ok data
  | S steps =>
    let migrationIndex := v - 2 in
    if (migrationIndex <? 0)
       || (migrationIndex >=? Z.of_nat (length migrations))
       || negb (truthy (migrationAt migrations migrationIndex))
    then Throw (missingDowngrade v)
    else
      match migrationAt migrations migrationIndex with
      | Some migration => downgrade steps (v - 1) (down migration data)
      | None => Throw (missingDowngrade v)
      end
  end.

End Loops.

Definition applyMigrations (encoded : string) (sourceSchema targetSchema : ZodType)
  (targetVersion : Z) (migrations : list (option Migration)) : result string :=
  '(currentVersion, decoded) ← extractVersionAndData encoded sourceSchema;
  if currentVersion =? targetVersion then
    encode P schemas decoded targetSchema (Some targetVersion)
  else
    data ←
      (if currentVersion <? targetVersion then
         upgrade currentVersion targetVersion migrations
           (Z.to_nat (targetVersion - currentVersion)) currentVersion decoded
       else
         downgrade currentVersion targetVersion migrations
           (Z.to_nat (currentVersion - targetVersion)) currentVersion decoded);
    encode P schemas data targetSchema (Some targetVersion).

Definition getVersion (encoded : string) (schema : ZodType) : Z :=
  match decodeWithVersion P schemas encoded schema with
  | Ok (_, version) => version
  | Throw _ => 1
  end.

End Migrations.

End Migrations.

(** ** Built-in operations on values *)

(** What the optimisations use of the language on plain data. *)
Module Builtins.

(** The truthiness of a value, as [if (value)] and [value && ...] test it. *)
Definition ToBoolean (v : value) : bool :=
  match v with
  | VUndefined | VNull => false
  | VBoolean b => b
  | VNumber n => negb (n =? 0)
  | VString s => negb (String.eqb s EmptyString)
  | VArray _ | VObject _ => true
  end.

(** The own property [key] of an object or an array: for an array, an
    index below its length written in decimal, and [length].  A property
    inherited from [Object.prototype] or [Array.prototype] is a function or
    a prototype object; no such value is among the [value]s, and the
    readers below stop at one as they stop at a missing key. *)
Definition ownProperty (current : value) (key : string) : option value :=
  match current with
  | VObject props => props !! key
  | VArray items =>
    if String.eqb key "length" then Some (VNumber (Z.of_nat (length items)))
    else
      match list_find (fun index => pretty index = key) (seq 0 (length items)) with
      | Some (_, index) => items !! index
      | None => None
      end
  | _ => None
  end.

(** [keys.sort()]: strings in the order of their code units. *)
Definition sort (keys : list string) : list string :=
  merge_sort (fun a b => Is_true (String.leb a b)) keys.

End Builtins.

(** ** optimizations/boolean-packing.ts: the fields of a schema *)

Module BooleanFields.
Import Validation Builtins.

Record BooleanFieldInfo : Type := {
  path : list string;
  bitPosition : nat;
  byteIndex : nat
}.

(** The two variables [extractBooleanFields] closes over: the fields found
    so far and [currentBit]. *)
Abbreviation Found := (list BooleanFieldInfo * nat)%type.

Section Extract.
Context (schemas : Schemas).

(** [shape[key]]. *)
Definition shapeAt (shape : list (string * ZodType)) (key : string) : option ZodType :=
  match list_find (fun entry => entry.1 = key) shape with
  | Some (_, entry) => Some entry.2
  | None => None
  end.

(** [for (const key of keys) traverse(shape[key], [...currentPath, key])]. *)
Fixpoint traverseKeys (traverse : ZodType -> list string -> Found -> result Found)
  (shape : list (string * ZodType)) (currentPath : list string)
  (keys : list string) (found : Found) : result Found :=
  match keys with
  | [] => Ok found
  | key :: rest =>
    match shapeAt shape key with
    | Some field =>
      found ← traverse field (currentPath ++ [key]) found;
      traverseKeys traverse shape currentPath rest found
    | None => traverseKeys traverse shape currentPath rest found
    end
  end.

Fixpoint traverse (fuel : nat) (currentSchema : ZodType) (currentPath : list string)
  (found : Found) : result Found :=
  match fuel with
  | O => Throw Converter.stackOverflow
  | S fuel =>
    unwrapped ← Converter.unwrap schemas currentSchema;
    let unwrapped :=
      match schemas !! unwrapped with
      | Some (ZodOptional innerType) | Some (ZodNullable innerType) => innerType
      | _ => unwrapped
      end in
    let unwrapped :=
      match schemas !! unwrapped with
      | Some (ZodDefault innerType) => innerType
      | _ => unwrapped
      end in
    match schemas !! unwrapped with
    | Some ZodBoolean =>
      let '(fields, currentBit) := found in
      let byteIndex := (currentBit / 8)%nat in
      let bitPosition := (currentBit mod 8)%nat in
      Ok (fields ++ [{| path := currentPath;
                        bitPosition := bitPosition;
                        byteIndex := byteIndex |}],
          S currentBit)
    | Some (ZodObject shape) =>
      let keys := sort shape.*1 in
      traverseKeys (traverse fuel) shape currentPath keys found
    | _ => Ok found
    end
  end.

(** [extractBooleanFields(schema, path)], on the call stack the converter
    is given. *)
Definition extractBooleanFields (schema : ZodType) (path : list string)
  : result (list BooleanFieldInfo) :=
  '(fields, _) ← traverse (Converter.stackDepth schemas) schema path ([], 0%nat);
  Ok fields.

End Extract.

(** The loop over [field.path] of [extractBooleanValues]: [Some current]
    when every key was found. *)
Fixpoint followPath (path : list string) (current : value) : option value :=
  match path with
  | [] => Some current
  | key :: rest =>
    if ToBoolean current && String.eqb (typeof current) "object" then
      match ownProperty current key with
      | Some next => followPath rest next
      | None => None
      end
    else None
  end.

Definition extractBooleanValues (data : value) (fields : list BooleanFieldInfo)
  : list bool :=
  (fun field =>
     match followPath (path field) data with
     | Some (VBoolean current) => current
     | _ => false
     end) <$> fields.

Definition shouldPackBooleans (fields : list BooleanFieldInfo) : bool :=
  let protobufSize := Z.of_nat (length fields) * 2 in
  let packedSize := 1 + Z.of_nat (BooleanPacking.ceil8 (length fields)) in
  (Z.of_nat (length fields) >=? 4) && (packedSize <? protobufSize - 3).

End BooleanFields.

(** ** protobuf/cache.ts *)

Module Cache.
Import Validation Protobuf Converter.

(** The module's [WeakMap] from schema objects to the types generated for
    them; each function takes the cache as it is and gives it back as it
    leaves it. *)
Abbreviation ProtobufCache := (gmap ZodType Type_).

Section Cache.
Context (P : Platform) (schemas : Schemas).

Definition getOrCreateProtobuf (schema : ZodType) (messageName : option string)
  (protobufCache : ProtobufCache) : result (Type_ * ProtobufCache) :=
  match protobufCache !! schema with
  | Some cached => Ok (cached, protobufCache)
  | None =>
    pbType ← zodToProtobuf P schemas schema (default "EncodedState" messageName);
    Ok (pbType, <[schema := pbType]> protobufCache)
  end.

Definition clearCacheForSchema (schema : ZodType) (protobufCache : ProtobufCache)
  : ProtobufCache :=
  delete schema protobufCache.

Definition isCached (schema : ZodType) (protobufCache : ProtobufCache) : bool :=
  bool_decide (is_Some (protobufCache !! schema)).

End Cache.

End Cache.

(** ** optimizations/string-dictionary.ts *)

(** The functions of this file guard their recursion with a set of the
    objects they have seen.  A [value] is a tree: no object or array occurs
    in it twice, and on a tree the guard never fires; the model is of the
    functions on such data.  A property named [__proto__] is not carried
    over by [result[key] = ...], which sets the prototype of [result]
    instead.  The characters of a [string] are its code units. *)
Module StringDictionary.
Import Builtins.

Record StringDictionary : Type := {
  stringToIndex : gmap string nat;
  strings : list string
}.

Definition DEFAULT_MIN_LENGTH : nat := 3.

(** [Object.keys(value)]. *)
Definition keys (props : gmap string value) : list string := (map_to_list props).*1.

(** [traverse] on a string, a value or a key. *)
Definition traverseString (minLength : nat) (value : string)
  (dictionary : StringDictionary) : StringDictionary :=
  if (minLength <=? String.length value)%nat
     && negb (bool_decide (is_Some (stringToIndex dictionary !! value)))
  then
    let index := length (strings dictionary) in
    {| stringToIndex := <[value := index]> (stringToIndex dictionary);
       strings := strings dictionary ++ [value] |}
  else dictionary.

(** [traverse(value)], as what it does to the dictionary under
    construction.  For an object, [visits !! key] is [traverse(value[key])]. *)
Fixpoint traverse (minLength : nat) (value : value)
  : StringDictionary -> StringDictionary :=
  match value with
  | VString value => traverseString minLength value
  | VArray items =>
    fun dictionary =>
      foldl (fun dictionary item => traverse minLength item dictionary) dictionary items
  | VObject props =>
    let visits := traverse minLength <$> props in
    fun dictionary =>
      foldl (fun dictionary key =>
               let dictionary := traverseString minLength key dictionary in
               match visits !! key with
               | Some visit => visit dictionary
               | None => dictionary
               end)
            dictionary (sort (keys props))
  | _ => fun dictionary => dictionary
  end.

Definition buildStringDictionary (data : value) (minLength : option nat)
  : StringDictionary :=
  traverse (default DEFAULT_MIN_LENGTH minLength) data
    {| stringToIndex := ∅; strings := [] |}.

(** [replace(value)]. *)
Fixpoint replace (dictionary : StringDictionary) (minLength : nat) (value : value)
  : JS.value :=
  match value with
  | VString s =>
    if (minLength <=? String.length s)%nat then
      match stringToIndex dictionary !! s with
      | Some index => VObject {[ "__ref" := VNumber (Z.of_nat index) ]}
      | None => value
      end
    else value
  | VArray items => VArray (replace dictionary minLength <$> items)
  | VObject props =>
    VObject (delete "__proto__" (replace dictionary minLength <$> props))
  | _ => value
  end.

Definition applyStringDictionary (data : value) (dictionary : StringDictionary)
  (minLength : option nat) : value :=
  replace dictionary (default DEFAULT_MIN_LENGTH minLength) data.

(** The results of a loop over the items of an array: the items, or the
    error of the first one that threw. *)
Fixpoint collectItems (results : list (result value)) : result (list value) :=
  match results with
  | [] => Ok []
  | r :: rest =>
    item ← r;
    items ← collectItems rest;
    Ok (item :: items)
  end.

(** The results of a loop over the entries of an object: the properties, or
    the error of an entry that threw.  (Which one, when several do, depends
    on the order the properties were inserted in, which a [value] does not
    have.) *)
Definition collectEntries (results : gmap string (result value))
  : result (gmap string value) :=
  map_fold (fun key r collected =>
              collected ← collected;
              val ← r;
              Ok (<[key := val]> collected))
           (Ok ∅) results.

Definition invalidReference (index : Z) : Errors.error :=
  PlainError ("Invalid string reference: " +:+ pretty index).

(** [restore(value)]. *)
Fixpoint restore (strings : list string) (value : value) : result JS.value :=
  match value with
  | VObject props =>
    match props !! "__ref" with
    | Some (VNumber index) =>
      if (index >=? 0) && (index <? Z.of_nat (length strings)) then
        Ok (default VUndefined (VString <$> strings !! Z.to_nat index))
      else Throw (invalidReference index)
    | _ =>
      entries ← collectEntries (restore strings <$> props);
      Ok (VObject (delete "__proto__" entries))
    end
  | VArray items =>
    items ← collectItems (restore strings <$> items);
    Ok (VArray items)
  | _ => Ok value
  end.

Definition restoreStringDictionary (data : value) (strings : list string)
  : result value :=
  restore strings data.

End StringDictionary.

(** ** types.ts *)

Module Types.

Record Experimental : Type := {
  stringDictionary : option bool;
  booleanPacking : option bool
}.

(** [EncoderOptions]; of its fields the package reads [safeParse] only. *)
Record EncoderOptions : Type := {
  safeParse : option bool;
  experimental : option Experimental
}.

Record DecoderOptions : Type := {
  decoderSafeParse : option bool
}.

(** [options?.safeParse], as a condition. *)
Definition safeParseOf (options : option EncoderOptions) : bool :=
  match options with
  | Some options => default false (safeParse options)
  | None => false
  end.

End Types.

(** ** polymorphic.ts *)

Module Polymorphic.
Import Validation Encoder Types.

Record EncodedState : Type := {
  encodedString : string
}.

(** What [Symbol.toPrimitive] gives: the string, or [NaN]. *)
Inductive Primitive : Type :=
| PString (s : string)
| PNaN.

Definition toString (this : EncodedState) : string := encodedString this.

Definition toPrimitive (this : EncodedState) (hint : string) : Primitive :=
  if String.eqb hint "number" then PNaN
  else PString (encodedString this).

Definition valueOf (this : EncodedState) : string := encodedString this.

Definition toJSON (this : EncodedState) : string := encodedString this.

Definition length (this : EncodedState) : nat := String.length (encodedString this).

Section Create.
Context (P : Platform) (schemas : Schemas).

(** [createEncodedState(data, schema, version = 1, options)].  A failed
    result of [encode] carries its error and a successful one its token;
    the other readings of [encoded.error] and [encoded.data!] do not
    occur. *)
Definition createEncodedState (data : value) (schema : ZodType) (version : option Z)
  (options : option EncoderOptions) : result EncodedState :=
  let version := default 1 version in
  if safeParseOf options then
    let encoded := encodeSafe P schemas data schema version in
    if negb (success encoded) then
      Throw (default (PlainError "undefined") (error encoded))
    else
      Ok {| encodedString := default "undefined" (Encoder.data encoded) |}
  else
    encoded ← encode P schemas data schema (Some version);
    Ok {| encodedString := encoded |}.

End Create.

End Polymorphic.

(** ** api.ts *)

Module Api.
Import Validation Encoder Decoder.

(** [CreateQueryParamsOptions extends EncoderOptions]. *)
Record CreateQueryParamsOptions : Type := {
  version : option Z;
  safeParse : option bool;
  experimental : option Types.Experimental
}.

(** A [QueryParams] is a [URLSearchParams] made of the single pair
    [state=encodedValue], together with the encoded value. *)
Record QueryParams : Type := {
  searchParams : list (string * string);
  encodedValue : string
}.

Definition newQueryParams (encodedValue : string) : QueryParams :=
  {| searchParams := [("state", encodedValue)];
     encodedValue := encodedValue |}.

Definition getState (this : QueryParams) : string := encodedValue this.
Definition toString (this : QueryParams) : string := encodedValue this.
Definition valueOf (this : QueryParams) : string := encodedValue this.

Definition toPrimitive (this : QueryParams) (hint : string) : string :=
  if String.eqb hint "number" then encodedValue this
  else encodedValue this.

Record CreateQueryParamsResult : Type := {
  success : bool;
  data : option QueryParams;
  error : option Errors.error
}.

Section Api.
Context (P : Platform) (schemas : Schemas).

(** [createQueryParams(data, schema, options)]: a [QueryParams], or in the
    safe-parse mode a result object. *)
Definition createQueryParams (data : value) (schema : ZodType)
  (options : option CreateQueryParamsOptions)
  : result (QueryParams + CreateQueryParamsResult) :=
  let version := default 1 (options ≫= version) in
  let safeParse := default false (options ≫= safeParse) in
  if safeParse then
    let result := encodeSafe P schemas data schema version in
    if negb (Encoder.success result) then
      Ok (inr {| success := false; data := None; error := Encoder.error result |})
    else
      Ok (inr {| success := true;
                 data := Some (newQueryParams (default "undefined" (Encoder.data result)));
                 error := None |})
  else
    encoded ← encode P schemas data schema (Some version);
    Ok (inl (newQueryParams encoded)).

(** [parseQueryParams(params, schema, options)], on a [QueryParams] or on an
    encoded string. *)
Definition parseQueryParams (params : QueryParams + string) (schema : ZodType)
  (options : option Types.DecoderOptions) : result (value + DecodeResult) :=
  let encoded :=
    match params with
    | inl params => getState params
    | inr encoded => encoded
    end in
  if default false (options ≫= Types.decoderSafeParse) then
    Ok (inr (decodeSafe P schemas encoded schema))
  else
    data ← decode P schemas encoded schema;
    Ok (inl data).

End Api.

End Api.

(** ** query-params.ts *)

Module QueryParamsClass.
Import Validation Encoder Decoder Builtins.

(** The fields of an [EncodedQueryParams]. *)
Record EncodedQueryParams : Type := {
  data : value;
  schema : ZodType;
  version : Z
}.

(** [{ ...value }]: the own enumerable properties of a value. *)
Definition spread (v : value) : gmap string value :=
  match v with
  | VObject props => props
  | VArray items => list_to_map (imap (fun index item => (pretty index, item)) items)
  | VString s =>
    list_to_map (imap (fun index c => (pretty index, VString (String c EmptyString)))
                   (list_ascii_of_string s))
  | _ => ∅
  end.

Section Class.
Context (P : Platform) (schemas : Schemas).

(** [new EncodedQueryParams(init, schema, version = 1)]. *)
Definition new (init : value) (schema : ZodType) (version : option Z)
  : result EncodedQueryParams :=
  match schemas !! schema with
  | Some (ZodObject _) =>
    data ←
      (match init with
       | VString init => decode P schemas init schema
       | _ => zod_parse P schemas schema init
       end);
    Ok {| data := data; schema := schema; version := default 1 version |}
  | _ => Throw (ValidationError "EncodedQueryParams requires a z.object() schema")
  end.

(** [set(name, value)]: the object as the call leaves it. *)
Definition set (this : EncodedQueryParams) (name : string) (v : value)
  : result EncodedQueryParams :=
  let newData := <[name := v]> (spread (data this)) in
  data ← zod_parse P schemas (schema this) (VObject newData);
  Ok {| data := data; schema := schema this; version := version this |}.

(** [delete(name)]. *)
Definition delete (this : EncodedQueryParams) (name : string)
  : result EncodedQueryParams :=
  let newData := base.delete name (spread (data this)) in
  data ← zod_parse P schemas (schema this) (VObject newData);
  Ok {| data := data; schema := schema this; version := version this |}.

(** [toString()]: the encoded state. *)
Definition toString (this : EncodedQueryParams) : result string :=
  encode P schemas (data this) (schema this) (Some (version this)).

(** [toObject()]. *)
Definition toObject (this : EncodedQueryParams) : gmap string value :=
  spread (data this).

End Class.

End QueryParamsClass.
(** ** A reference platform *)

(** One platform the package can run on, for evaluating it on concrete
    inputs: zod's validation of objects, strings, integers, booleans,
    arrays, tuples, enums, unions, optionals, nullables and lazy schemas;
    the protobuf wire format of messages whose fields are strings, 32-bit
    integers and booleans; zlib streams of stored blocks; Node.  Outside
    that fragment its calls throw, and nothing is read off them. *)
Module Reference.
Import Validation Protobuf.

Definition outside : Errors.error := PlainError "outside the reference fragment".
Definition zodError : Errors.error := PlainError "ZodError".

(** *** zod *)

Section Parse.
Context (schemas : Schemas).

(** [for (const key of shapeKeys)]: each field is parsed from [data[key]];
    the result has the key when the input had it or the parsed value is
    defined.  Keys outside the shape are stripped. *)
Fixpoint parseShape (parse : ZodType -> value -> result value)
  (shape : list (string * ZodType)) (props : gmap string value)
  : result (gmap string value) :=
  match shape with
  | [] => Ok ∅
  | (key, fieldSchema) :: rest =>
    parsed ← parse fieldSchema (get props key);
    others ← parseShape parse rest props;
    match parsed, props !! key with
    | VUndefined, None => Ok others
    | _, _ => Ok (<[key := parsed]> others)
    end
  end.

Fixpoint parseItems (parse : ZodType -> value -> result value)
  (items : list ZodType) (values : list value) : result (list value) :=
  match items, values with
  | [], [] => Ok []
  | item :: items, v :: values =>
    parsed ← parse item v;
    others ← parseItems parse items values;
    Ok (parsed :: others)
  | _, _ => Throw zodError
  end.

Fixpoint parseAll (parse : value -> result value) (values : list value)
  : result (list value) :=
  match values with
  | [] => Ok []
  | v :: values =>
    parsed ← parse v;
    others ← parseAll parse values;
    Ok (parsed :: others)
  end.

Fixpoint parseFirst (parse : ZodType -> value -> result value)
  (options : list ZodType) (data : value) : result value :=
  match options with
  | [] => Throw zodError
  | option0 :: rest =>
    match parse option0 data with
    | Ok parsed => Ok parsed
    | Throw _ => parseFirst parse rest data
    end
  end.

Fixpoint parse (fuel : nat) (schema : ZodType) (data : value) : result value :=
  match fuel with
  | O => Throw Converter.stackOverflow
  | S fuel =>
    match schemas !! schema, data with
    | Some ZodString, VString _ => Ok data
    | Some (ZodNumber checks), VNumber _ =>
      if forallb (String.eqb "int") checks then Ok data else Throw outside
    | Some ZodBoolean, VBoolean _ => Ok data
    | Some (ZodEnum values), VString s =>
      if existsb (String.eqb s) values then Ok data else Throw zodError
    | Some (ZodOptional innerType), VUndefined => Ok VUndefined
    | Some (ZodOptional innerType), _ => parse fuel innerType data
    | Some (ZodNullable innerType), VNull => Ok VNull
    | Some (ZodNullable innerType), _ => parse fuel innerType data
    | Some (ZodLazy getter), _ => parse fuel getter data
    | Some (ZodArray element), VArray items =>
      parsed ← parseAll (parse fuel element) items;
      Ok (VArray parsed)
    | Some (ZodTuple items), VArray values =>
      parsed ← parseItems (parse fuel) items values;
      Ok (VArray parsed)
    | Some (ZodUnion options), _ => parseFirst (parse fuel) options data
    | Some (ZodObject shape), VObject props =>
      parsed ← parseShape (parse fuel) shape props;
      Ok (VObject parsed)
    | Some (ZodString | ZodNumber _ | ZodBoolean | ZodEnum _ | ZodArray _
            | ZodTuple _ | ZodObject _), _ => Throw zodError
    | _, _ => Throw outside
    end
  end.

End Parse.

(** *** protobufjs *)

(** A base-128 varint, least significant group first. *)
Fixpoint varint (fuel : nat) (n : Z) : Uint8Array :=
  match fuel with
  | O => []
  | S fuel =>
    if n <? 128 then [u8 n]
    else u8 (Z.lor (Z.land n 127) 128) :: varint fuel (Z.shiftr n 7)
  end.

Definition writeVarint (n : Z) : Uint8Array := varint 10 n.

(** Reads a varint: its value and the bytes after it. *)
Fixpoint readVarint (fuel : nat) (input : Uint8Array) : option (Z * Uint8Array) :=
  match fuel, input with
  | S fuel, b :: rest =>
    if Zb b <? 128 then Some (Zb b, rest)
    else
      match readVarint fuel rest with
      | Some (high, rest) => Some (Z.lor (Z.land (Zb b) 127) (Z.shiftl high 7), rest)
      | None => None
      end
  | _, _ => None
  end.

Definition two32 : Z := 2 ^ 32.

(** [n >>> 0] and [n | 0]. *)
Definition toUint32 (n : Z) : Z := n mod two32.
Definition toInt32 (n : Z) : Z :=
  let u := n mod two32 in if u <? 2 ^ 31 then u else u - two32.

Definition bytesOfString (s : string) : Uint8Array :=
  map byte_of_ascii (list_ascii_of_string s).
Definition stringOfBytes (b : Uint8Array) : string :=
  string_of_list_ascii (map ascii_of_byte b).

(** The conversion [fromObject] applies to a property of a field of the
    given type. *)
Definition convertProperty (type : string) (v : value) : result value :=
  if String.eqb type "string" then
    match v with
    | VString s => Ok (VString s)
    | VNumber n => Ok (VString (pretty n))
    | VBoolean b => Ok (VString (if b then "true" else "false"))
    | _ => Throw outside
    end
  else if String.eqb type "uint32" then
    match v with
    | VNumber n => Ok (VNumber (toUint32 n))
    | VBoolean b => Ok (VNumber (if b then 1 else 0))
    | _ => Throw outside
    end
  else if String.eqb type "int32" then
    match v with
    | VNumber n => Ok (VNumber (toInt32 n))
    | VBoolean b => Ok (VNumber (if b then 1 else 0))
    | _ => Throw outside
    end
  else if String.eqb type "bool" then
    match v with
    | VBoolean b => Ok (VBoolean b)
    | VNumber n => Ok (VBoolean (negb (n =? 0)))
    | VString s => Ok (VBoolean (negb (String.eqb s "")))
    | _ => Ok (VBoolean true)
    end
  else Throw outside.

(** [if (d.f != null) m.f = ...], field by field. *)
Fixpoint fromFields (fields : list Field) (props : gmap string value)
  : result (gmap string value) :=
  match fields with
  | [] => Ok ∅
  | field :: rest =>
    others ← fromFields rest props;
    match field with
    | MkField name _ type rule =>
      match props !! name, rule with
      | None, _ | Some VUndefined, _ | Some VNull, _ => Ok others
      | Some v, (None | Some optional) =>
        converted ← convertProperty type v;
        Ok (<[name := converted]> others)
      | Some _, Some repeated => Throw outside
      end
    | MkMapField name _ _ _ =>
      match props !! name with
      | None | Some VUndefined | Some VNull => Ok others
      | Some _ => Throw outside
      end
    end
  end.

Definition fromObject (type : Type_) (object : value) : result (gmap string value) :=
  match object with
  | VObject props => fromFields (typeFields type) props
  | _ => Ok ∅
  end.

(** The wire bytes of one field that is set. *)
Definition encodeField (id : Z) (v : value) : result Uint8Array :=
  match v with
  | VString s =>
    let content := bytesOfString s in
    Ok (writeVarint (Z.lor (Z.shiftl id 3) 2)
        ++ writeVarint (Z.of_nat (length content)) ++ content)
  | VNumber n =>
    Ok (writeVarint (Z.shiftl id 3) ++ writeVarint (n mod 2 ^ 64))
  | VBoolean b =>
    Ok (writeVarint (Z.shiftl id 3) ++ [if b then x01 else x00])
  | _ => Throw outside
  end.

Fixpoint encodeFields (fields : list Field) (message : gmap string value)
  : result Uint8Array :=
  match fields with
  | [] => Ok []
  | MkField name id _ _ :: rest =>
    others ← encodeFields rest message;
    match message !! name with
    | Some v => written ← encodeField id v; Ok (written ++ others)
    | None => Ok others
    end
  | MkMapField _ _ _ _ :: rest => encodeFields rest message
  end.

Definition encode (type : Type_) (message : gmap string value) : result Uint8Array :=
  encodeFields (typeFields type) message.

Definition indexOutOfRange : Errors.error := PlainError "index out of range".

Definition fieldId (f : Field) : Z :=
  match f with
  | MkField _ id _ _ | MkMapField _ id _ _ => id
  end.

Definition fieldById (fields : list Field) (id : Z) : option Field :=
  List.find (fun f => fieldId f =? id) fields.

(** Reads the value of a known field by its declared type. *)
Definition readField (type : string) (input : Uint8Array)
  : result (value * Uint8Array) :=
  if String.eqb type "string" then
    match readVarint 10 input with
    | Some (len, rest) =>
      if Z.of_nat (length rest) <? len then Throw indexOutOfRange
      else Ok (VString (stringOfBytes (take (Z.to_nat len) rest)),
               drop (Z.to_nat len) rest)
    | None => Throw indexOutOfRange
    end
  else
    match readVarint 10 input with
    | Some (n, rest) =>
      if String.eqb type "uint32" then Ok (VNumber (toUint32 n), rest)
      else if String.eqb type "int32" then Ok (VNumber (toInt32 n), rest)
      else if String.eqb type "bool" then Ok (VBoolean (negb (n =? 0)), rest)
      else Throw outside
    | None => Throw indexOutOfRange
    end.

(** [reader.skipType(wireType)] for a field the type does not have. *)
Definition skipType (wireType : Z) (input : Uint8Array) : result Uint8Array :=
  if wireType =? 0 then
    match readVarint 10 input with
    | Some (_, rest) => Ok rest
    | None => Throw indexOutOfRange
    end
  else if wireType =? 1 then
    if (length input <? 8)%nat then Throw indexOutOfRange else Ok (drop 8 input)
  else if wireType =? 2 then
    match readVarint 10 input with
    | Some (len, rest) =>
      if Z.of_nat (length rest) <? len then Throw indexOutOfRange
      else Ok (drop (Z.to_nat len) rest)
    | None => Throw indexOutOfRange
    end
  else if wireType =? 5 then
    if (length input <? 4)%nat then Throw indexOutOfRange else Ok (drop 4 input)
  else Throw (PlainError "invalid wire type").

(** [while (reader.pos < end)]: tag by tag; a later value of a field
    replaces an earlier one. *)
Fixpoint decodeFields (fuel : nat) (fields : list Field) (input : Uint8Array)
  (message : gmap string value) : result (gmap string value) :=
  match fuel, input with
  | _, [] => Ok message
  | O, _ => Throw indexOutOfRange
  | S fuel, _ =>
    match readVarint 10 input with
    | None => Throw indexOutOfRange
    | Some (tag, rest) =>
      match fieldById fields (Z.shiftr tag 3) with
      | Some (MkField name _ type _) =>
        '(v, rest) ← readField type rest;
        decodeFields fuel fields rest (<[name := v]> message)
      | Some (MkMapField _ _ _ _) => Throw outside
      | None =>
        rest ← skipType (Z.land tag 7) rest;
        decodeFields fuel fields rest message
      end
    end
  end.

Definition decode (type : Type_) (input : Uint8Array) : result (gmap string value) :=
  decodeFields (length input) (typeFields type) input ∅.

(** protobufjs refuses a second reflection object of a name under one
    root. *)
Definition reflectionName (o : ReflectionObject) : string :=
  match o with
  | MkType name _ | MkEnum name _ => name
  end.

Definition resolveAll (root : Root) : result unit :=
  if decide (NoDup (reflectionName <$> root)) then Ok tt
  else Throw (PlainError "duplicate name").

(** *** zlib *)

Definition adler32 (data : Uint8Array) : Z :=
  let '(a, b) :=
    fold_left (fun '(a, b) byte =>
                 let a := (a + Zb byte) mod 65521 in (a, (b + a) mod 65521))
              data (1, 0) in
  Z.lor (Z.shiftl b 16) a.

Definition bigEndian32 (n : Z) : Uint8Array :=
  [u8 (Z.shiftr n 24); u8 (Z.shiftr n 16); u8 (Z.shiftr n 8); u8 n].

(** A zlib stream of one stored block. *)
Definition deflateSync (data : Uint8Array) : result Uint8Array :=
  let len := Z.of_nat (length data) in
  if 65535 <? len then Throw outside
  else
    Ok ([u8 0x78; u8 0x01; u8 0x01;
         u8 len; u8 (Z.shiftr len 8);
         u8 (Z.lxor len 0xFFFF); u8 (Z.shiftr (Z.lxor len 0xFFFF) 8)]
        ++ data ++ bigEndian32 (adler32 data)).

Definition inflateSync (input : Uint8Array) : result Uint8Array :=
  match input with
  | cmf :: flg :: block :: l0 :: l1 :: n0 :: n1 :: rest =>
    let len := Z.lor (Zb l0) (Z.shiftl (Zb l1) 8) in
    let nlen := Z.lor (Zb n0) (Z.shiftl (Zb n1) 8) in
    let data := take (Z.to_nat len) rest in
    if (Zb cmf =? 0x78) && (Zb flg =? 0x01) && (Zb block =? 0x01)
       && (nlen =? Z.lxor len 0xFFFF)
       && bool_decide (Zb <$> drop (Z.to_nat len) rest = Zb <$> bigEndian32 (adler32 data))
    then Ok data
    else Throw (PlainError "incorrect header check")
  | _ => Throw (PlainError "unexpected end of file")
  end.

Definition platform : Platform := {|
  Message := gmap string value;
  zod_parse := fun schemas => parse schemas (Converter.stackDepth schemas);
  Root_resolveAll := resolveAll;
  Type_fromObject := fromObject;
  Type_encode := encode;
  Type_decode := decode;
  Type_toObject := fun _ message => message;
  isNode := true;
  zlib_deflateSync := deflateSync;
  zlib_inflateSync := inflateSync;
  pako_deflate := deflateSync;
  pako_inflate := inflateSync
|}.

(** *** Schemas to run it on *)

(** [z.object({ name: z.string(), age: z.number().int() })] is schema 0. *)
Definition person : Schemas :=
  list_to_map
    [(0%nat, ZodObject [("name", 1%nat); ("age", 2%nat)]);
     (1%nat, ZodString);
     (2%nat, ZodNumber ["int"])].

Definition alice : value :=
  VObject (list_to_map [("name", VString "Alice"); ("age", VNumber 30)]).

(** The properties of Alice. *)
Definition aliceProps : gmap string value :=
  list_to_map [("name", VString "Alice"); ("age", VNumber 30)].

(** The wire bytes of Alice: field 2, the five bytes of the name; field 3,
    the age. *)
Definition aliceWire : Uint8Array :=
  [u8 0x12; u8 5; u8 65; u8 108; u8 105; u8 99; u8 101; u8 0x18; u8 30].

(** [z.object({ pair: z.tuple([z.string(), z.string()]) })] is schema 0. *)
Definition paired : Schemas :=
  list_to_map
    [(0%nat, ZodObject [("pair", 1%nat)]);
     (1%nat, ZodTuple [2%nat; 2%nat]);
     (2%nat, ZodString)].

Definition pair : value :=
  VObject (list_to_map [("pair", VArray [VString "a"; VString "b"])]).

(** [z.object({ id: z.union([z.string(), z.number().int()]) })] is
    schema 0. *)
Definition tagged : Schemas :=
  list_to_map
    [(0%nat, ZodObject [("id", 1%nat)]);
     (1%nat, ZodUnion [2%nat; 3%nat]);
     (2%nat, ZodString);
     (3%nat, ZodNumber ["int"])].



(** [z.object({ name: z.string() })] is schema 0; on the platform
    [passthrough] below it is that schema made with [.passthrough()]. *)
Definition named : Schemas :=
  list_to_map
    [(0%nat, ZodObject [("name", 1%nat)]);
     (1%nat, ZodString)].

(** [{ name: 'x', _encodedStateVersion: 7 }]. *)
Definition stamped : value :=
  VObject (list_to_map [("name", VString "x"); (RESERVED_FIELD, VNumber 7)]).

(** [{ name: 'aaaaaaaaaaaaaaaa', age: 30 }]. *)
Definition repetitive : value :=
  VObject (list_to_map [("name", VString "aaaaaaaaaaaaaaaa"); ("age", VNumber 30)]).

(** *** Two variations *)

(** zod on object schemas made with [.passthrough()]: the object parsed at
    the root keeps the keys of the input that the shape does not have. *)
Definition parsePassthrough (schemas : Schemas) (schema : ZodType) (data : value)
  : result value :=
  parsed ← parse schemas (Converter.stackDepth schemas) schema data;
  match parsed, data with
  | VObject known, VObject props => Ok (VObject (known ∪ props))
  | _, _ => Ok parsed
  end.

Definition passthrough : Platform := {|
  Message := gmap string value;
  zod_parse := parsePassthrough;
  Root_resolveAll := resolveAll;
  Type_fromObject := fromObject;
  Type_encode := encode;
  Type_decode := decode;
  Type_toObject := fun _ message => message;
  isNode := true;
  zlib_deflateSync := deflateSync;
  zlib_inflateSync := inflateSync;
  pako_deflate := deflateSync;
  pako_inflate := inflateSync
|}.

(** A compressor that shortens what repeats, in the place of pako's: each
    run of a byte is written as its length and the byte.  (The streams of
    [deflateSync] above are stored blocks, always longer than their data,
    so that on [platform] the compressed form is never the one sent.) *)
Fixpoint packRuns (data : Uint8Array) : Uint8Array :=
  match data with
  | [] => []
  | b :: rest =>
    match packRuns rest with
    | count :: b' :: tail =>
      if Byte.eqb b b' && (Zb count <? 255) then u8 (Zb count + 1) :: b' :: tail
      else x01 :: b :: count :: b' :: tail
    | _ => [x01; b]
    end
  end.

Fixpoint unpackRuns (input : Uint8Array) : result Uint8Array :=
  match input with
  | [] => Ok []
  | [_] => Throw (PlainError "unexpected end of file")
  | count :: b :: rest =>
    others ← unpackRuns rest;
    Ok (replicate (Z.to_nat (Zb count)) b ++ others)
  end.

Definition shortening : Platform := {|
  Message := gmap string value;
  zod_parse := fun schemas => parse schemas (Converter.stackDepth schemas);
  Root_resolveAll := resolveAll;
  Type_fromObject := fromObject;
  Type_encode := encode;
  Type_decode := decode;
  Type_toObject := fun _ message => message;
  isNode := false;
  zlib_deflateSync := deflateSync;
  zlib_inflateSync := inflateSync;
  pako_deflate := fun data => Ok (packRuns data);
  pako_inflate := unpackRuns
|}.

End Reference.

(** *** Migrations to run *)

Module ReferenceMigrations.
Import Migrations.

(** [{ ...data, age: f(data.age) }] on an object whose age is a number. *)
Definition onAge (f : Z -> Z) (data : value) : value :=
  match data with
  | VObject props =>
    match props !! "age" with
    | Some (VNumber age) => VObject (<["age" := VNumber (f age)]> props)
    | _ => data
    end
  | _ => data
  end.

(** v1 to v2 counts the age in months; v2 to v3 counts it from 1900. *)
Definition v1ToV2 : Migration :=
  createMigration {| up := onAge (fun a => a * 12); down := onAge (fun a => a / 12) |}.

Definition v2ToV3 : Migration :=
  createMigration {| up := onAge (fun a => a + 1900); down := onAge (fun a => a - 1900) |}.

End ReferenceMigrations.


(** ** Examples *)

(** Schemas and data the statements below are evaluated on. *)
Module Examples.
Import Validation.

(** [z.object({ verified: z.boolean().refine(...), name: z.string(),
    settings: z.object({ darkMode: z.boolean().optional() }),
    active: z.boolean() })]. *)
Definition preferences : Schemas :=
  {[ 0%nat := ZodObject [("verified", 5%nat); ("name", 1%nat);
                         ("settings", 3%nat); ("active", 2%nat)];
     1%nat := ZodString;
     2%nat := ZodBoolean;
     3%nat := ZodObject [("darkMode", 4%nat)];
     4%nat := ZodOptional 2%nat;
     5%nat := ZodEffects 2%nat ]}.

(** The same schema with its fields declared in another order. *)
Definition preferencesReordered : Schemas :=
  <[ 0%nat := ZodObject [("active", 2%nat); ("name", 1%nat);
                         ("verified", 5%nat); ("settings", 3%nat)] ]> preferences.

(** [{ name: 'x', active: true, settings: { darkMode: true } }]. *)
Definition darkUser : value :=
  VObject {[ "name" := VString "x";
             "active" := VBoolean true;
             "settings" := VObject {[ "darkMode" := VBoolean true ]} ]}.

(** [{ name: 'electronics', category: 'electronics',
    tags: ['electronics', 'computers', 'electronics', 'ab'] }]. *)
Definition catalog : value :=
  VObject {[ "name" := VString "electronics";
             "category" := VString "electronics";
             "tags" := VArray [VString "electronics"; VString "computers";
                               VString "electronics"; VString "ab"] ]}.

(** The message type of [z.object({ name: z.string(), age: z.number().int() })]. *)
Definition personFields : list Protobuf.Field :=
  [Protobuf.MkField RESERVED_FIELD 1 "uint32" (Some Protobuf.optional);
   Protobuf.MkField "name" 2 "string" None;
   Protobuf.MkField "age" 3 "int32" None].

Definition personType : Protobuf.Type_ :=
  {| Protobuf.typeName := "EncodedState";
     Protobuf.typeFields := personFields;
     Protobuf.typeRoot := [Protobuf.MkType "EncodedState" personFields] |}.

End Examples.
(** * Vocabulary of the statements *)

(** Bit [j] of byte [k] of a byte array (false past its end). *)
Definition bitAt (bytes : Uint8Array) (k j : nat) : bool :=
  match bytes !! k with
  | Some b => Z.testbit (Zb b) (Z.of_nat j)
  | None => false
  end.

(** The schemas a schema is built from, construct by construct: the fields
    of an object, the element of an array, what an optional, a nullable, a
    default, an effect or a lazy schema wraps, the options of a union or a
    discriminated union, the two sides of an intersection or a pipeline, the
    values of a record (its keys are strings), the keys and values of a map,
    the items of a tuple. *)
Definition nestedSchemas (d : Validation.ZodDef) : list Validation.ZodType :=
  match d with
  | Validation.ZodObject shape => shape.*2
  | Validation.ZodArray element => [element]
  | Validation.ZodOptional innerType => [innerType]
  | Validation.ZodNullable innerType => [innerType]
  | Validation.ZodDefault innerType => [innerType]
  | Validation.ZodUnion options => options
  | Validation.ZodDiscriminatedUnion options => options
  | Validation.ZodIntersection l r => [l; r]
  | Validation.ZodRecord _ valueType => [valueType]
  | Validation.ZodMap keyType valueType => [keyType; valueType]
  | Validation.ZodTuple items => items
  | Validation.ZodEffects inner => [inner]
  | Validation.ZodPipeline pipe_in pipe_out => [pipe_in; pipe_out]
  | Validation.ZodLazy getter => [getter]
  | _ => []
  end.

(** [nestedIn schemas s t]: schema [t] is [s] or lies inside [s], at any
    depth. *)
Inductive nestedIn (schemas : Validation.Schemas)
  : Validation.ZodType -> Validation.ZodType -> Prop :=
| nested_here (s : Validation.ZodType) : nestedIn schemas s s
| nested_inside (s c t : Validation.ZodType) (d : Validation.ZodDef) :
    schemas !! s = Some d -> c ∈ nestedSchemas d ->
    nestedIn schemas c t -> nestedIn schemas s t.

(** The schema is an object with a field literally named the reserved
    identifier. *)
Definition declaresReservedField (schemas : Validation.Schemas)
  (s : Validation.ZodType) : Prop :=
  exists shape, schemas !! s = Some (Validation.ZodObject shape)
                /\ Validation.RESERVED_FIELD ∈ shape.*1.

(** The schema contains such a field at some nesting depth. *)
Definition containsReservedField (schemas : Validation.Schemas)
  (s : Validation.ZodType) : Prop :=
  exists t, nestedIn schemas s t /\ declaresReservedField schemas t.

(** What a finished traversal leaves behind: every schema it added to the
    visited set declares no reserved field and has all the schemas nested
    directly in it visited too. *)
Definition closedUpTo (schemas : Validation.Schemas)
  (before after : gset Validation.ZodType) : Prop :=
  before ⊆ after /\
  forall n, n ∈ after -> n ∉ before ->
    ~ declaresReservedField schemas n /\
    forall d c, schemas !! n = Some d -> c ∈ nestedSchemas d -> c ∈ after.

(** The six-bit values of a byte array, three bytes to four values; a last
    group of one byte gives two values, one of two bytes gives three. *)
Fixpoint toSextets (data : Uint8Array) : list Z :=
  match data with
  | [] => []
  | [a] => [Z.shiftr (Zb a) 2; Z.shiftl (Z.land (Zb a) 3) 4]
  | [a; b] =>
    [Z.shiftr (Zb a) 2;
     Z.lor (Z.shiftl (Z.land (Zb a) 3) 4) (Z.shiftr (Zb b) 4);
     Z.shiftl (Z.land (Zb b) 15) 2]
  | a :: b :: c :: rest =>
    Z.shiftr (Zb a) 2
    :: Z.lor (Z.shiftl (Z.land (Zb a) 3) 4) (Z.shiftr (Zb b) 4)
    :: Z.lor (Z.shiftl (Z.land (Zb b) 15) 2) (Z.shiftr (Zb c) 6)
    :: Z.land (Zb c) 63
    :: toSextets rest
  end.

Definition isSextet (s : Z) : Prop := 0 <= s < 64.

(** The padding characters base64 adds after [n] bytes. *)
Definition padCount (n : nat) : nat := ((3 - n mod 3) mod 3)%nat.

(** What a run of [encodeInternal] that returns went through: the object
    validation produced, the wire type built for the schema, the message,
    its wire bytes, and their compressed form. *)
Record EncodeRun (P : Platform) : Type := {
  run_validated : gmap string value;
  run_pbType : Protobuf.Type_;
  run_message : Message P;
  run_binary : Uint8Array;
  run_compressed : Uint8Array
}.

Arguments run_validated {P} _.
Arguments run_pbType {P} _.
Arguments run_message {P} _.
Arguments run_binary {P} _.
Arguments run_compressed {P} _.

Definition encodeRuns (P : Platform) (schemas : Validation.Schemas)
  (data : value) (schema : Validation.ZodType) (version : Z) (run : EncodeRun P) : Prop :=
  Validation.validateSchema schemas schema = Ok tt
  /\ zod_parse P schemas schema data = Ok (VObject (run_validated run))
  /\ Converter.zodToProtobuf P schemas schema "EncodedState" = Ok (run_pbType run)
  /\ Type_fromObject P (run_pbType run)
       (VObject (Encoder.withVersion (run_validated run) version)) = Ok (run_message run)
  /\ Type_encode P (run_pbType run) (run_message run) = Ok (run_binary run)
  /\ Compression.compress P (run_binary run) = Ok (run_compressed run).

(** The token of a run. *)
Definition tokenOf {P : Platform} (run : EncodeRun P) : string :=
  Base64Url.encodeBase64Url (Encoder.withMarker (run_binary run) (run_compressed run)).

(** The library call [compress] makes, and the one [decompress] makes. *)
Definition deflate (P : Platform) (data : Uint8Array) : result Uint8Array :=
  if isNode P then zlib_deflateSync P data else pako_deflate P data.

Definition inflate (P : Platform) (data : Uint8Array) : result Uint8Array :=
  if isNode P then zlib_inflateSync P data else pako_inflate P data.

(** The libraries carry a run of encoding back: the compressed bytes, where
    they are the ones sent, inflate to the wire bytes; the wire bytes decode
    to a message whose object is the one that was serialized. *)
Definition carriedBack (P : Platform) (version : Z) (run : EncodeRun P) : Prop :=
  ((length (run_compressed run) < length (run_binary run))%nat ->
     inflate P (run_compressed run) = Ok (run_binary run))
  /\ (exists decoded, Type_decode P (run_pbType run) (run_binary run) = Ok decoded
        /\ Type_toObject P (run_pbType run) decoded
           = Encoder.withVersion (run_validated run) version).

(** What decoding does with the wire bytes once it has them, steps 3 to 6
    of [decodeInternal]: the message type is built, the bytes are decoded
    and turned into an object, the version is taken off it and the rest is
    validated. *)
Definition fromWire (P : Platform) (schemas : Validation.Schemas)
  (schema : Validation.ZodType) (binary : Uint8Array) : result (value * Z) :=
  pbType ← Converter.zodToProtobuf P schemas schema "EncodedState";
  decoded ← try_catch (Type_decode P pbType binary)
              (fun _ => DecodingError "Failed to decode protobuf message");
  '(dataWithoutVersion, finalVersion) ←
    Decoder.extractVersion (Type_toObject P pbType decoded);
  validated ← zod_parse P schemas schema (VObject dataWithoutVersion);
  Ok (validated, finalVersion).

(** The value has no property of the given name. *)
Definition lacksProperty (v : value) (name : string) : Prop :=
  forall props, v = VObject props -> props !! name = None.

(** The library calls of decoding invert those of a run of encoding: the
    compressed bytes, where they are the ones sent, inflate to the wire
    bytes; the wire bytes decode to a message whose object is the one that
    was serialized; validation produced no property of the reserved name and
    accepts its own output unchanged. *)
Definition inverts (P : Platform) (schemas : Validation.Schemas)
  (schema : Validation.ZodType) (version : Z) (run : EncodeRun P) : Prop :=
  ((length (run_compressed run) < length (run_binary run))%nat ->
     Compression.decompress P (run_compressed run) = Ok (run_binary run))
  /\ (exists decoded, Type_decode P (run_pbType run) (run_binary run) = Ok decoded
        /\ Type_toObject P (run_pbType run) decoded
           = Encoder.withVersion (run_validated run) version)
  /\ run_validated run !! Validation.RESERVED_FIELD = None
  /\ zod_parse P schemas schema (VObject (run_validated run)) = Ok (VObject (run_validated run)).


(** The version [decodeWithHeader] reads off the two header bytes. *)
Definition versionOf (byte0 byte1 : byte) : Z :=
  Z.lor (Z.land (Zb byte0) 0x3F) (Z.shiftl (Z.land (Zb byte1) 0x0F) 6).

(** The fields found so far are laid out in order: the counter is their
    number, and field number [i] has byte [i / 8] and bit [i mod 8]. *)
Definition laidOut (found : BooleanFields.Found) : Prop :=
  found.2 = length found.1
  /\ forall (i : nat) (field : BooleanFields.BooleanFieldInfo),
       found.1 !! i = Some field ->
       BooleanFields.byteIndex field = (i / 8)%nat
       /\ BooleanFields.bitPosition field = (i mod 8)%nat.

(** [leadsTo data path v]: going down from the data along the path ends at
    [v].  A key of the path names a property of an object, or, in an
    array, the item at the index it is the decimal of, or the length of the
    array; nothing lies below any other value. *)
Inductive leadsTo : value -> list string -> value -> Prop :=
| leads_here (v : value) : leadsTo v [] v
| leads_property (props : gmap string value) (key : string) (next : value)
    (rest : list string) (v : value) :
    props !! key = Some next ->
    leadsTo next rest v ->
    leadsTo (VObject props) (key :: rest) v
| leads_item (items : list value) (index : nat) (next : value)
    (rest : list string) (v : value) :
    items !! index = Some next ->
    leadsTo next rest v ->
    leadsTo (VArray items) (pretty index :: rest) v
| leads_length (items : list value) (rest : list string) (v : value) :
    leadsTo (VNumber (Z.of_nat (length items))) rest v ->
    leadsTo (VArray items) ("length" :: rest) v.

(** The name and the number of a field of a message type. *)
Definition fieldNameOf (field : Protobuf.Field) : string :=
  match field with
  | Protobuf.MkField name _ _ _ | Protobuf.MkMapField name _ _ _ => name
  end.

Definition fieldNumberOf (field : Protobuf.Field) : Z :=
  match field with
  | Protobuf.MkField _ id _ _ | Protobuf.MkMapField _ id _ _ => id
  end.

(** The fields carry the numbers [first], [first + 1], ... in order. *)
Definition numberedFrom (first : Z) (fields : list Protobuf.Field) : Prop :=
  fieldNumberOf <$> fields = (fun i => first + Z.of_nat i) <$> seq 0 (length fields).

(** Every message type of the root numbers its fields from 1. *)
Definition nestedNumbered (root : Protobuf.Root) : Prop :=
  forall name fields, Protobuf.MkType name fields ∈ root -> numberedFrom 1 fields.

(** The characters of base64url text. *)
Definition urlAlphabet : list ascii :=
  list_ascii_of_string "ABCDEFGHIJKLMNOPQRSTUVWXYZabcdefghijklmnopqrstuvwxyz0123456789-_".

(** The base64url character of a six-bit value. *)
Definition urlDigit (sextet : Z) : ascii :=
  let c := Buffer.encodeSextet sextet in
  let c := if Ascii.eqb c "+" then "-"%char else c in
  if Ascii.eqb c "/" then "_"%char else c.

(** encode fails with the error [e]: thrown in the normal mode, reported in
    the result of the safe-parse mode. *)
Definition encodeFails (P : Platform) (schemas : Validation.Schemas)
  (data : value) (schema : Validation.ZodType) (version : option Z)
  (e : Errors.error) : Prop :=
  Encoder.encode P schemas data schema version = Throw e
  /\ Encoder.encodeSafe P schemas data schema (default 1 version)
     = {| Encoder.success := false; Encoder.data := None; Encoder.error := Some e |}.

(** decode fails with the error [e], in either mode, and so does
    decodeWithVersion. *)
Definition decodeFails (P : Platform) (schemas : Validation.Schemas)
  (encoded : string) (schema : Validation.ZodType) (e : Errors.error) : Prop :=
  Decoder.decode P schemas encoded schema = Throw e
  /\ Decoder.decodeWithVersion P schemas encoded schema = Throw e
  /\ Decoder.decodeSafe P schemas encoded schema
     = {| Decoder.success := false; Decoder.data := None;
          Decoder.error := Some e; Decoder.version := None |}.

(** A measure of values, for induction on them. *)
Fixpoint valueSize (v : value) : nat :=
  match v with
  | VArray items => S (list_sum (valueSize <$> items))
  | VObject props => S (map_fold (fun _ n total => (n + total)%nat) 0%nat (valueSize <$> props))
  | _ => 1
  end.

(** The strings that occur in a value: its string values and the keys of
    its objects, at any depth. *)
Inductive occursIn : value -> string -> Prop :=
| occurs_string (s : string) : occursIn (VString s) s
| occurs_item (items : list value) (item : value) (s : string) :
    item ∈ items -> occursIn item s -> occursIn (VArray items) s
| occurs_key (props : gmap string value) (key : string) :
    is_Some (props !! key) -> occursIn (VObject props) key
| occurs_property (props : gmap string value) (key : string) (val : value) (s : string) :
    props !! key = Some val -> occursIn val s -> occursIn (VObject props) s.

(** The property is a number, as a reference [{ __ref: index }] has it. *)
Definition isReference (property : option value) : bool :=
  match property with
  | Some (VNumber _) => true
  | _ => false
  end.

(** No object of the value has a numeric property [__ref], and none has a
    property [__proto__]. *)
Fixpoint plainData (v : value) : bool :=
  match v with
  | VArray items => forallb plainData items
  | VObject props =>
    negb (isReference (props !! "__ref"))
    && negb (bool_decide (is_Some (props !! "__proto__")))
    && map_fold (fun _ plain rest => plain && rest) true (plainData <$> props)
  | _ => true
  end.

(** The two halves of a dictionary agree: a string has the index at which
    the array holds it. *)
Definition consistent (dictionary : StringDictionary.StringDictionary) : Prop :=
  forall (s : string) (index : nat),
    StringDictionary.stringToIndex dictionary !! s = Some index
    <-> StringDictionary.strings dictionary !! index = Some s.

(** What a traversal does to the dictionary under construction: it stays
    consistent, and gains exactly the strings [found] that are long
    enough. *)
Definition extends (minLength : nat)
  (before after : StringDictionary.StringDictionary) (found : string -> Prop) : Prop :=
  consistent after
  /\ forall s, s ∈ StringDictionary.strings after
               <-> s ∈ StringDictionary.strings before
                   \/ (found s /\ (minLength <= String.length s)%nat).

(** Two schema objects that are the same up to the order in which an object
    schema lists its fields. *)
Definition sameFields (d d' : option Validation.ZodDef) : Prop :=
  match d, d' with
  | Some (Validation.ZodObject shape), Some (Validation.ZodObject shape') =>
    shape ≡ₚ shape' /\ NoDup shape.*1
  | _, _ => d = d'
  end.

(** The data an [EncodedQueryParams] holds is what validation under its
    schema returned. *)
Definition validatedState (P : Platform) (schemas : Validation.Schemas)
  (params : QueryParamsClass.EncodedQueryParams) : Prop :=
  exists input,
    zod_parse P schemas (QueryParamsClass.schema params) input
    = Ok (QueryParamsClass.data params).
(** * Theorems *)

(** ** Bytes *)

Lemma Zb_range (b : byte) : 0 <= Zb b < 256.
Proof.
  unfold Zb. pose proof (Byte.to_N_bounded b) as H.
  change 256 with (Z.of_N 256). lia.
Qed.

Lemma Zb_u8 (z : Z) : Zb (u8 z) = z mod 256.
Proof.
  unfold u8, Zb.
  assert (Hr : 0 <= z mod 256 < 256) by (apply Z.mod_pos_bound; lia).
  destruct (Byte.of_N (Z.to_N (z mod 256))) as [b|] eqn:E.
  - apply Byte.to_of_N in E. rewrite E. lia.
  - apply Byte.of_N_None_iff in E. lia.
Qed.

Lemma Zb_u8_small (z : Z) : 0 <= z < 256 -> Zb (u8 z) = z.
Proof. intros H. rewrite Zb_u8. apply Z.mod_small, H. Qed.

Lemma u8_Zb (b : byte) : u8 (Zb b) = b.
Proof.
  unfold u8. rewrite (Z.mod_small _ _ (Zb_range b)).
  unfold Zb. rewrite N2Z.id, Byte.of_to_N. reflexivity.
Qed.

(** ** The framing header (format.ts) *)

Section HeaderBits.
Import Format.

Lemma testbit_above (v k n : Z) : 0 <= v < 2 ^ k -> 0 <= k <= n -> Z.testbit v n = false.
Proof.
  intros Hv Hk. rewrite <- (Z.mod_small v (2 ^ k)) by exact Hv.
  apply Z.mod_pow2_bits_high. exact Hk.
Qed.

(** Reading back a stored header byte: the byte kept its eight low bits. *)
Lemma testbit_Zb_u8 (z n : Z) : 0 <= n -> Z.testbit (Zb (u8 z)) n = (n <? 8) && Z.testbit z n.
Proof.
  intros Hn. rewrite Zb_u8. change 256 with (2 ^ 8).
  apply Z.testbit_mod_pow2. lia.
Qed.

(** The constants of the header as powers of two and runs of ones. *)
Ltac header_consts :=
  unfold FLAGS_COMPRESSED, FLAGS_STRING_DICTIONARY, FLAGS_BOOLEAN_PACKING;
  change (Z.shiftl 1 6) with (2 ^ 6); change (Z.shiftl 1 4) with (2 ^ 4);
  change (Z.shiftl 1 5) with (2 ^ 5);
  change 63 with (Z.ones 6); change 15 with (Z.ones 4).

Ltac bit_rewrite :=
  repeat first
    [ rewrite Z.lor_spec | rewrite Z.land_spec
    | rewrite Z.shiftl_spec by lia | rewrite Z.shiftr_spec by lia
    | rewrite testbit_Zb_u8 by lia
    | rewrite Z.testbit_ones_nonneg by lia | rewrite Z.pow2_bits_eqb by lia ].

Ltac bit_cases :=
  repeat match goal with
  | |- context [?a <? ?b] => destruct (Z.ltb_spec a b)
  | |- context [?a =? ?b] => destruct (Z.eqb_spec a b)
  end.

Lemma encodeWithHeader_ok (payload : Uint8Array) (version : Z) (options : HeaderOptions) :
  0 <= version <= 1023 ->
  encodeWithHeader payload version options =
  Ok (u8 (headerByte0 version (compressed options))
      :: u8 (headerByte1 version (truthy (stringDictionary options))
                              (truthy (booleanPacking options)))
      :: payload).
Proof.
  intros Hv. unfold encodeWithHeader, headerByte0, headerByte1.
  destruct (version <? 0) eqn:E0; [apply Z.ltb_lt in E0; lia|].
  destruct (version >? 1023) eqn:E1; [apply Z.gtb_lt in E1; lia|].
  reflexivity.
Qed.

Lemma version_bits (version : Z) (c s b : bool) :
  0 <= version <= 1023 ->
  Z.lor (Z.land (Zb (u8 (headerByte0 version c))) 0x3F)
        (Z.shiftl (Z.land (Zb (u8 (headerByte1 version s b))) 0x0F) 6) = version.
Proof.
  intros Hv. apply Z.bits_inj'. intros n Hn.
  assert (Hhigh : 10 <= n -> Z.testbit version n = false).
  { intros H. apply (testbit_above version 10 n); [change (2 ^ 10) with 1024|]; lia. }
  unfold headerByte0, headerByte1. header_consts.
  rewrite Z.lor_spec, Z.shiftl_spec by lia.
  destruct (Z.lt_ge_cases n 6) as [Hlow|Hup].
  - rewrite (Z.testbit_neg_r _ (n - 6)) by lia.
    destruct c; bit_rewrite; bit_cases; try lia;
      destruct (Z.testbit version n); reflexivity.
  - destruct c, s, b; bit_rewrite; bit_cases; try lia;
      replace (n - 6 + 6) with n by lia;
      rewrite ?Hhigh by lia;
      destruct (Z.testbit version n); reflexivity.
Qed.

Lemma flag_test (x k : Z) : 0 <= k ->
  negb (Z.land x (2 ^ k) =? 0) = Z.testbit x k.
Proof.
  intros Hk. destruct (Z.testbit x k) eqn:E.
  - destruct (Z.eqb_spec (Z.land x (2 ^ k)) 0) as [H0|]; [|reflexivity].
    apply (f_equal (fun y => Z.testbit y k)) in H0.
    rewrite Z.land_spec, E, Z.pow2_bits_true, Z.bits_0 in H0 by lia. discriminate.
  - replace (Z.land x (2 ^ k)) with 0; [reflexivity|].
    symmetry. apply Z.bits_inj'. intros n Hn.
    rewrite Z.land_spec, Z.bits_0, Z.pow2_bits_eqb by lia.
    destruct (Z.eqb_spec k n); [subst; rewrite E|]; auto using andb_false_r.
Qed.

Lemma compressed_bit (version : Z) (c : bool) :
  negb (Z.land (Zb (u8 (headerByte0 version c))) FLAGS_COMPRESSED =? 0) = c.
Proof.
  unfold FLAGS_COMPRESSED. change (Z.shiftl 1 6) with (2 ^ 6).
  rewrite flag_test by lia. unfold headerByte0. header_consts.
  destruct c; bit_rewrite; cbn; rewrite ?andb_false_r, ?orb_true_r; reflexivity.
Qed.

Lemma stringDictionary_bit (version : Z) (s b : bool) :
  negb (Z.land (Zb (u8 (headerByte1 version s b))) FLAGS_STRING_DICTIONARY =? 0) = s.
Proof.
  unfold FLAGS_STRING_DICTIONARY. change (Z.shiftl 1 4) with (2 ^ 4).
  rewrite flag_test by lia. unfold headerByte1. header_consts.
  destruct s, b; bit_rewrite; cbn; rewrite ?andb_false_r, ?orb_true_r; reflexivity.
Qed.

Lemma booleanPacking_bit (version : Z) (s b : bool) :
  negb (Z.land (Zb (u8 (headerByte1 version s b))) FLAGS_BOOLEAN_PACKING =? 0) = b.
Proof.
  unfold FLAGS_BOOLEAN_PACKING. change (Z.shiftl 1 5) with (2 ^ 5).
  rewrite flag_test by lia. unfold headerByte1. header_consts.
  destruct s, b; bit_rewrite; cbn; rewrite ?andb_false_r, ?orb_true_r; reflexivity.
Qed.

End HeaderBits.

(** C8 (general form): unframing a frame gives back the version, the three
    flags as read for truthiness, and the payload. *)
Lemma decodeWithHeader_encodeWithHeader
  (payload : Uint8Array) (version : Z) (options : Format.HeaderOptions) :
  0 <= version <= 1023 ->
  (framed ← Format.encodeWithHeader payload version options;
   Format.decodeWithHeader framed)
  = Ok {| Format.h_version := version;
          Format.h_compressed := Format.compressed options;
          Format.h_stringDictionary := Format.truthy (Format.stringDictionary options);
          Format.h_booleanPacking := Format.truthy (Format.booleanPacking options);
          Format.h_payload := payload |}.
Proof.
  intros Hv. rewrite encodeWithHeader_ok by exact Hv.
  cbn [mbind result_bind bind Format.decodeWithHeader].
  rewrite version_bits by exact Hv.
  rewrite compressed_bit, stringDictionary_bit, booleanPacking_bit.
  reflexivity.
Qed.

(** C8: for every payload, every version in 0..1023 and every combination of
    the compressed, stringDictionary and booleanPacking flags,
    decodeWithHeader (encodeWithHeader payload version flags) returns exactly
    the version, the three flags and the payload bytes given. *)
Theorem header_roundtrip (payload : Uint8Array) (version : Z) (c s b : bool) :
  0 <= version <= 1023 ->
  (framed ← Format.encodeWithHeader payload version
               {| Format.compressed := c;
                  Format.stringDictionary := Some s;
                  Format.booleanPacking := Some b |};
   Format.decodeWithHeader framed)
  = Ok {| Format.h_version := version;
          Format.h_compressed := c;
          Format.h_stringDictionary := s;
          Format.h_booleanPacking := b;
          Format.h_payload := payload |}.
Proof.
  intros Hv.
  exact (decodeWithHeader_encodeWithHeader payload version
           {| Format.compressed := c; Format.stringDictionary := Some s;
              Format.booleanPacking := Some b |} Hv).
Qed.

(** C8 at version 1023 with every flag set, over a three-byte payload. *)
Lemma header_roundtrip_witness :
  0 <= 1023 <= 1023 /\
  (framed ← Format.encodeWithHeader [x01; x02; x03] 1023
               {| Format.compressed := true;
                  Format.stringDictionary := Some true;
                  Format.booleanPacking := Some true |};
   Format.decodeWithHeader framed)
  = Ok {| Format.h_version := 1023;
          Format.h_compressed := true;
          Format.h_stringDictionary := true;
          Format.h_booleanPacking := true;
          Format.h_payload := [x01; x02; x03] |}.
Proof.
  split; [lia|]. apply (header_roundtrip [x01; x02; x03] 1023 true true true). lia.
Defined.

(** The frame is the two header bytes followed by the payload, untouched. *)
Lemma encodeWithHeader_length (payload framed : Uint8Array) (version : Z)
  (options : Format.HeaderOptions) :
  Format.encodeWithHeader payload version options = Ok framed ->
  length framed = (2 + length payload)%nat.
Proof.
  unfold Format.encodeWithHeader.
  destruct (_ || _); [discriminate|]. intros [= <-]. reflexivity.
Qed.

(** Out-of-range versions are refused by the framing operation, whatever the
    payload and the flags. *)
Lemma encodeWithHeader_rejects (payload : Uint8Array) (version : Z)
  (options : Format.HeaderOptions) :
  version < 0 \/ 1023 < version ->
  Format.encodeWithHeader payload version options
  = Throw (PlainError "Version must be 0-1023").
Proof.
  intros Hv. unfold Format.encodeWithHeader.
  destruct (version <? 0) eqn:E0; [reflexivity|].
  destruct (version >? 1023) eqn:E1; [reflexivity|].
  apply Z.ltb_ge in E0. rewrite Z.gtb_ltb in E1. apply Z.ltb_ge in E1. lia.
Qed.

(** decodeWithHeader refuses inputs shorter than the header. *)
Lemma decodeWithHeader_short (encoded : Uint8Array) :
  (length encoded < 2)%nat ->
  Format.decodeWithHeader encoded
  = Throw (PlainError "Encoded data too short - missing header").
Proof.
  destruct encoded as [|b0 [|b1 rest]]; cbn; intros H; try reflexivity; lia.
Qed.

(** ** Boolean packing (optimizations/boolean-packing.ts) *)

Section Packing.
Import BooleanPacking.

Lemma bit_of_shift (x n : Z) : 0 <= n ->
  (Z.land (Z.shiftr x n) 1 =? 1) = Z.testbit x n.
Proof.
  intros Hn. change 1 with (Z.ones 1) at 1.
  rewrite Z.land_ones, Z.shiftr_div_pow2 by lia.
  symmetry. apply Z.testbit_eqb. exact Hn.
Qed.

Lemma unpackAt_bitAt (bytes : Uint8Array) (i : nat) :
  unpackAt bytes i = bitAt bytes (i / 8) (i mod 8).
Proof.
  unfold unpackAt, bitAt. destruct (bytes !! (i / 8)%nat); [|reflexivity].
  apply bit_of_shift. lia.
Qed.

(** One step of the loop sets bit [i mod 8] of byte [i / 8] when the value
    is true and leaves every other bit as it was. *)
Lemma bitAt_packStep (i : nat) (v : bool) (bytes : Uint8Array) (k j : nat) :
  (j < 8)%nat -> (i / 8 < length bytes)%nat ->
  bitAt (packStep i v bytes) k j
  = bitAt bytes k j || (v && Nat.eqb (8 * k + j) i).
Proof.
  intros Hj Hi. unfold packStep. destruct v; cbn [andb]; [|apply eq_sym, orb_false_r].
  unfold bitAt. rewrite list_lookup_alter.
  destruct (decide ((i / 8)%nat = k)) as [<-|Hne].
  - destruct (lookup_lt_is_Some_2 bytes (i / 8)%nat Hi) as [b Hb].
    rewrite Hb. cbn [fmap option_fmap option_map].
    rewrite testbit_Zb_u8, Z.lor_spec, Z.shiftl_spec by lia.
    change 1 with (2 ^ 0). rewrite Z.pow2_bits_eqb by lia.
    replace (Z.of_nat j <? 8) with true by (symmetry; apply Z.ltb_lt; lia).
    cbn [andb]. f_equal.
    pose proof (Nat.div_mod_eq i 8) as Hdm.
    destruct (Nat.eqb_spec (8 * (i / 8) + j) i) as [He|He];
      destruct (Z.eqb_spec 0 (Z.of_nat j - Z.of_nat (i mod 8))); try reflexivity; lia.
  - destruct (Nat.eqb_spec (8 * k + j) i) as [He|He]; [|apply eq_sym, orb_false_r].
    exfalso. apply Hne. subst i.
    rewrite Nat.mul_comm, Nat.div_add_l by lia.
    rewrite (Nat.div_small j 8) by lia. lia.
Qed.

Lemma packStep_length (i : nat) (v : bool) (bytes : Uint8Array) :
  length (packStep i v bytes) = length bytes.
Proof. unfold packStep. destruct v; [apply length_alter|reflexivity]. Qed.

(** The loop invariant: after the loop from index [i] over [values], bit
    [8k+j] is set exactly when it was set before or the value the loop
    visited at that index is true. *)
Lemma packLoop_spec (values : list bool) :
  forall (i : nat) (bytes : Uint8Array),
  (i + length values <= 8 * length bytes)%nat ->
  length (packLoop values i bytes) = length bytes /\
  forall k j : nat, (j < 8)%nat ->
    bitAt (packLoop values i bytes) k j
    = bitAt bytes k j
      || (Nat.leb i (8 * k + j) && nth (8 * k + j - i) values false).
Proof.
  induction values as [|v rest IH]; intros i bytes Hlen; cbn [packLoop length] in *.
  - split; [reflexivity|]. intros k j _.
    destruct (8 * k + j - i)%nat; cbn; rewrite andb_false_r, orb_false_r; reflexivity.
  - assert (Hi : (i / 8 < length bytes)%nat).
    { apply Nat.Div0.div_lt_upper_bound. lia. }
    destruct (IH (S i) (packStep i v bytes)) as [IHlen IHbits].
    { rewrite packStep_length. lia. }
    split; [rewrite IHlen; apply packStep_length|].
    intros k j Hj. rewrite IHbits, bitAt_packStep by assumption.
    rewrite <- orb_assoc. f_equal.
    destruct (Nat.eqb_spec (8 * k + j) i) as [He|He].
    + rewrite He, Nat.sub_diag, Nat.leb_refl. cbn [nth andb].
      replace (Nat.leb (S i) i) with false by (symmetry; apply Nat.leb_gt; lia).
      cbn. rewrite orb_false_r, andb_true_r. reflexivity.
    + rewrite andb_false_r. cbn [orb].
      destruct (Nat.leb_spec (S i) (8 * k + j)) as [Hle|Hgt].
      * replace (Nat.leb i (8 * k + j)) with true by (symmetry; apply Nat.leb_le; lia).
        replace (8 * k + j - i)%nat with (S (8 * k + j - S i)) by lia. reflexivity.
      * replace (Nat.leb i (8 * k + j)) with false by (symmetry; apply Nat.leb_gt; lia).
        reflexivity.
Qed.

Lemma ceil8_bound (n : nat) : (n <= 8 * ceil8 n)%nat.
Proof.
  unfold ceil8. pose proof (Nat.div_mod_eq (n + 7) 8) as H.
  pose proof (Nat.mod_upper_bound (n + 7) 8). lia.
Qed.

Lemma bitAt_zeros (n k j : nat) : bitAt (replicate n x00) k j = false.
Proof.
  unfold bitAt. destruct (replicate n x00 !! k) as [b|] eqn:E; [|reflexivity].
  apply lookup_replicate in E as [-> _]. apply Z.testbit_0_l.
Qed.

(** Eight per byte, least significant bit first: bit [j] of byte [k] of the
    packed array is value number [8k+j]. *)
Lemma packBooleans_bits (values : list bool) (k j : nat) :
  (j < 8)%nat ->
  bitAt (packBooleans values) k j = nth (8 * k + j) values false.
Proof.
  intros Hj. unfold packBooleans.
  destruct (packLoop_spec values 0 (replicate (ceil8 (length values)) x00)) as [_ Hbits].
  { rewrite length_replicate. apply ceil8_bound. }
  rewrite Hbits, bitAt_zeros, Nat.sub_0_r by exact Hj. reflexivity.
Qed.

Lemma packBooleans_length (values : list bool) :
  length (packBooleans values) = ceil8 (length values).
Proof.
  unfold packBooleans.
  destruct (packLoop_spec values 0 (replicate (ceil8 (length values)) x00)) as [Hlen _].
  { rewrite length_replicate. apply ceil8_bound. }
  rewrite Hlen. apply length_replicate.
Qed.

Lemma unpackAt_packBooleans (values : list bool) (i : nat) :
  unpackAt (packBooleans values) i = nth i values false.
Proof.
  rewrite unpackAt_bitAt, packBooleans_bits by (apply Nat.mod_upper_bound; lia).
  rewrite <- Nat.div_mod_eq. reflexivity.
Qed.

Lemma map_nth_seq (values : list bool) :
  map (fun i => nth i values false) (seq 0 (length values)) = values.
Proof.
  induction values as [|v rest IH]; [reflexivity|].
  cbn [length seq map nth]. f_equal.
  rewrite <- seq_shift, map_map. exact IH.
Qed.

End Packing.

(** C9: packBooleans packs eight values per byte, least significant bit
    first, so [true,false,true,true,false,false,true,false] packs to the
    single byte 0b01001101; and for every list of booleans vs,
    unpackBooleans (packBooleans vs) (length vs) is vs again. *)
Theorem packBooleans_unpackBooleans :
  BooleanPacking.packBooleans [true; false; true; true; false; false; true; false]
    = [u8 0x4D]
  /\ (forall (vs : list bool) (k j : nat), (j < 8)%nat ->
        bitAt (BooleanPacking.packBooleans vs) k j = nth (8 * k + j) vs false)
  /\ (forall vs : list bool,
        length (BooleanPacking.packBooleans vs) = BooleanPacking.ceil8 (length vs))
  /\ (forall vs : list bool,
        BooleanPacking.unpackBooleans (BooleanPacking.packBooleans vs) (length vs) = vs).
Proof.
  split; [reflexivity|].
  split; [intros vs k j Hj; apply packBooleans_bits; exact Hj|].
  split; [exact packBooleans_length|].
  intros vs. unfold BooleanPacking.unpackBooleans.
  etransitivity; [|apply map_nth_seq].
  apply map_ext. intros i. apply unpackAt_packBooleans.
Qed.

(** ** Reserved-field validation (validation.ts) *)

Section Traversal.
Import Validation.
Context (schemas : Schemas).

Lemma closedUpTo_refl (V : gset ZodType) : closedUpTo schemas V V.
Proof. split; [reflexivity|]. intros n Hin Hout. contradiction. Qed.

Lemma closedUpTo_trans (V1 V2 V3 : gset ZodType) :
  closedUpTo schemas V1 V2 -> closedUpTo schemas V2 V3 -> closedUpTo schemas V1 V3.
Proof.
  intros [S12 C12] [S23 C23]. split; [set_solver|].
  intros n Hin Hout. destruct (decide (n ∈ V2)) as [H2|H2].
  - destruct (C12 n H2 Hout) as [Hd Hc]. split; [exact Hd|].
    intros d c Hl Hn. apply S23, (Hc d c Hl Hn).
  - exact (C23 n Hin H2).
Qed.

(** Entering a schema that declares no reserved field, once everything
    nested in it has been traversed. *)
Lemma closedUpTo_enter (s : ZodType) (V V' : gset ZodType) :
  ~ declaresReservedField schemas s ->
  closedUpTo schemas ({[s]} ∪ V) V' ->
  (forall d c, schemas !! s = Some d -> c ∈ nestedSchemas d -> c ∈ V') ->
  closedUpTo schemas V V' /\ s ∈ V'.
Proof.
  intros Hs [Sub Cl] Hc. split; [|set_solver].
  split; [set_solver|]. intros n Hin Hout.
  destruct (decide (n = s)) as [->|Hne]; [split; assumption|].
  apply Cl; [exact Hin|set_solver].
Qed.

Section Some.
Context (f : ZodType -> gset ZodType -> Visit).

Lemma someVisited_false (items : list ZodType) :
  (forall item V V', f item V = Some (false, V') -> closedUpTo schemas V V' /\ item ∈ V') ->
  forall V V', someVisited f items V = Some (false, V') ->
  closedUpTo schemas V V' /\ forall item, item ∈ items -> item ∈ V'.
Proof.
  intros Hf. induction items as [|item rest IH]; intros V V' H; cbn in H.
  - injection H as <-. split; [apply closedUpTo_refl|]. intros item Hin. inversion Hin.
  - destruct (f item V) as [[[] V1]|] eqn:E; try discriminate.
    destruct (Hf _ _ _ E) as [C1 I1]. destruct (IH _ _ H) as [C2 I2].
    split; [exact (closedUpTo_trans _ _ _ C1 C2)|].
    intros x Hx. apply elem_of_cons in Hx as [->|Hx]; [|exact (I2 x Hx)].
    destruct C2 as [Sub _]. set_solver.
Qed.

Lemma someVisited_true (items : list ZodType) :
  forall V V', someVisited f items V = Some (true, V') ->
  exists item V1 V2, item ∈ items /\ f item V1 = Some (true, V2).
Proof.
  induction items as [|item rest IH]; intros V V' H; cbn in H; [discriminate|].
  destruct (f item V) as [[[] V1]|] eqn:E; try discriminate.
  - exists item, V, V1. split; [left|exact E].
  - destruct (IH _ _ H) as (x & Va & Vb & Hx & Hf).
    exists x, Va, Vb. split; [right; exact Hx|exact Hf].
Qed.

Lemma someVisited_grows (items : list ZodType) :
  (forall item V b V', f item V = Some (b, V') -> V ⊆ V') ->
  forall V b V', someVisited f items V = Some (b, V') -> V ⊆ V'.
Proof.
  intros Hf. induction items as [|item rest IH]; intros V b V' H; cbn in H.
  - injection H as _ <-. reflexivity.
  - destruct (f item V) as [[[] V1]|] eqn:E; try discriminate.
    + injection H as _ <-. exact (Hf _ _ _ _ E).
    + pose proof (Hf _ _ _ _ E). pose proof (IH _ _ _ H). set_solver.
Qed.

Lemma someVisited_returns (items : list ZodType) (V0 : gset ZodType) :
  (forall item V b V', f item V = Some (b, V') -> V ⊆ V') ->
  (forall item V, V0 ⊆ V -> is_Some (f item V)) ->
  forall V, V0 ⊆ V -> is_Some (someVisited f items V).
Proof.
  intros Hg Hf. induction items as [|item rest IH]; intros V HV; cbn.
  - eexists; reflexivity.
  - destruct (Hf item V HV) as [[[] V1] E]; rewrite E; [eexists; reflexivity|].
    apply IH. pose proof (Hg _ _ _ _ E). set_solver.
Qed.

End Some.

Ltac visit_kinds H :=
  match type of H with
  | context [schemas !! ?s] => destruct (schemas !! s) as [[]|] eqn:Elookup
  end.

(** A traversal that answers false has visited, and found clean, every
    schema it could reach through schemas not yet visited. *)
Lemma hasReservedField_false (fuel : nat) :
  forall (s : ZodType) (V V' : gset ZodType),
  hasReservedField fuel schemas s V = Some (false, V') ->
  closedUpTo schemas V V' /\ s ∈ V'.
Proof.
  induction fuel as [|fuel IH]; intros s V V' H; cbn [hasReservedField] in H;
    [discriminate|].
  destruct (decide (s ∈ V)) as [Hin|Hout].
  { injection H as <-. split; [apply closedUpTo_refl|exact Hin]. }
  assert (Hsome : forall items, someVisited (hasReservedField fuel schemas) items
                     ({[s]} ∪ V) = Some (false, V') ->
            closedUpTo schemas ({[s]} ∪ V) V' /\ forall item, item ∈ items -> item ∈ V').
  { intros items. apply someVisited_false. exact IH. }
  assert (Hobj : forall shape, schemas !! s = Some (ZodObject shape) ->
                   RESERVED_FIELD ∉ shape.*1 -> ~ declaresReservedField schemas s).
  { intros shape E Hno (shape' & E' & Hyes). congruence. }
  visit_kinds H;
    try (destruct (decide (RESERVED_FIELD ∈ shape.*1)) as [Hres|Hres]; [discriminate|]);
    first [ apply Hsome in H as [Hc Hitems]
          | apply IH in H as [Hc Hitem]
          | injection H as <-; pose proof (closedUpTo_refl ({[s]} ∪ V)) as Hc ].
  all: apply closedUpTo_enter; [ | exact Hc | ].
  all: try (intros (shape' & E' & Hyes); congruence).
  all: intros d c Hd Hn; rewrite Elookup in Hd; try discriminate;
    injection Hd as <-; cbn [nestedSchemas] in Hn.
  all: first [ apply Hitems; exact Hn
             | apply list_elem_of_singleton in Hn as ->; exact Hitem
             | inversion Hn ].
Qed.

Lemma nestedIn_closed (V : gset ZodType) (s t : ZodType) :
  closedUpTo schemas ∅ V -> nestedIn schemas s t -> s ∈ V -> t ∈ V.
Proof.
  intros [_ Cl] Hn. induction Hn as [s|s c t d Hd Hc _ IH]; intros Hs; [exact Hs|].
  apply IH. destruct (Cl s Hs) as [_ Hnested]; [set_solver|].
  exact (Hnested d c Hd Hc).
Qed.

(** Completeness of the traversal from an empty visited set. *)
Lemma hasReservedField_complete (fuel : nat) (s : ZodType) (V' : gset ZodType) :
  hasReservedField fuel schemas s ∅ = Some (false, V') ->
  ~ containsReservedField schemas s.
Proof.
  intros H (t & Hn & Hd). apply hasReservedField_false in H as [Hc Hs].
  pose proof (nestedIn_closed V' s t Hc Hn Hs) as Ht.
  destruct Hc as [_ Cl]. destruct (Cl t Ht) as [Hno _]; [set_solver|].
  exact (Hno Hd).
Qed.

End Traversal.

Section TraversalTotal.
Import Validation.
Context (schemas : Schemas).

Ltac lookup_kinds :=
  match goal with
  | H : context [schemas !! ?s] |- _ => destruct (schemas !! s) as [[]|] eqn:Elookup
  | |- context [schemas !! ?s] => destruct (schemas !! s) as [[]|] eqn:Elookup
  end.

(** The visited set only grows. *)
Lemma hasReservedField_grows (fuel : nat) :
  forall (s : ZodType) (V : gset ZodType) (b : bool) (V' : gset ZodType),
  hasReservedField fuel schemas s V = Some (b, V') -> V ⊆ V'.
Proof.
  induction fuel as [|fuel IH]; intros s V b V' H; cbn [hasReservedField] in H;
    [discriminate|].
  destruct (decide (s ∈ V)) as [Hin|Hout]; [injection H as _ <-; reflexivity|].
  assert (Hsome : forall items,
            someVisited (hasReservedField fuel schemas) items ({[s]} ∪ V) = Some (b, V') ->
            {[s]} ∪ V ⊆ V').
  { intros items. apply someVisited_grows. exact IH. }
  lookup_kinds;
    try (destruct (decide (RESERVED_FIELD ∈ shape.*1)) as [Hres|Hres]);
    first [ apply Hsome in H | apply IH in H | injection H as _ <- ];
    set_solver.
Qed.

(** Soundness: an answer of true comes from a schema nested in the one
    asked about that declares the reserved field. *)
Lemma hasReservedField_sound (fuel : nat) :
  forall (s : ZodType) (V V' : gset ZodType),
  hasReservedField fuel schemas s V = Some (true, V') ->
  containsReservedField schemas s.
Proof.
  induction fuel as [|fuel IH]; intros s V V' H; cbn [hasReservedField] in H;
    [discriminate|].
  destruct (decide (s ∈ V)) as [Hin|Hout]; [discriminate|].
  assert (Hstep : forall d c, schemas !! s = Some d -> c ∈ nestedSchemas d ->
                    containsReservedField schemas c -> containsReservedField schemas s).
  { intros d c Hd Hc (t & Hn & Ht). exists t. split; [|exact Ht].
    exact (nested_inside schemas s c t d Hd Hc Hn). }
  assert (Hsome : forall d, schemas !! s = Some d ->
            someVisited (hasReservedField fuel schemas) (nestedSchemas d) ({[s]} ∪ V)
              = Some (true, V') ->
            containsReservedField schemas s).
  { intros d Hd Hs. apply someVisited_true in Hs as (c & Va & Vb & Hc & Hf).
    exact (Hstep d c Hd Hc (IH _ _ _ Hf)). }
  lookup_kinds; try discriminate;
    try (destruct (decide (RESERVED_FIELD ∈ shape.*1)) as [Hres|Hres];
         [exists s; split; [apply nested_here|exists shape; split; assumption]|]);
    first [ eapply Hsome; [reflexivity|exact H]
          | apply IH in H; eapply Hstep; [reflexivity| |exact H];
            cbn [nestedSchemas]; apply list_elem_of_singleton; reflexivity ].
Qed.

(** The traversal returns: each level of the call stack has entered one more
    of the schemas in existence. *)
Lemma hasReservedField_returns (fuel : nat) :
  forall (s : ZodType) (V : gset ZodType),
  (size (dom schemas ∖ V) < fuel)%nat ->
  is_Some (hasReservedField fuel schemas s V).
Proof.
  induction fuel as [|fuel IH]; intros s V Hfuel; [lia|].
  cbn [hasReservedField].
  destruct (decide (s ∈ V)) as [Hin|Hout]; [eexists; reflexivity|].
  destruct (schemas !! s) as [d|] eqn:Elookup; [|eexists; reflexivity].
  assert (Hsmaller : forall W, {[s]} ∪ V ⊆ W -> (size (dom schemas ∖ W) < fuel)%nat).
  { intros W HW.
    assert (Hs : s ∈ dom schemas ∖ V).
    { apply elem_of_difference. split; [apply elem_of_dom; eexists; exact Elookup|exact Hout]. }
    assert (Hsub : dom schemas ∖ W ⊂ dom schemas ∖ V).
    { split; [set_solver|]. intros Hc. specialize (Hc s Hs). set_solver. }
    apply subset_size in Hsub. lia. }
  assert (Hone : forall c, is_Some (hasReservedField fuel schemas c ({[s]} ∪ V))).
  { intros c. apply IH, Hsmaller. reflexivity. }
  assert (Hsome : forall items,
            is_Some (someVisited (hasReservedField fuel schemas) items ({[s]} ∪ V))).
  { intros items. apply (someVisited_returns _ items ({[s]} ∪ V));
      [exact (hasReservedField_grows fuel)| |reflexivity].
    intros item W HW. apply IH, Hsmaller, HW. }
  destruct d; try apply Hone; try apply Hsome; try (eexists; reflexivity).
  destruct (decide (RESERVED_FIELD ∈ shape.*1)); [eexists; reflexivity|apply Hsome].
Qed.

(** [validateSchema] throws its ValidationError exactly on the schemas that
    contain the reserved field, and returns on all others. *)
Lemma validateSchema_throws (s : ZodType) :
  containsReservedField schemas s ->
  validateSchema schemas s = Throw (ValidationError reservedMessage).
Proof.
  intros Hc. unfold validateSchema.
  destruct (hasReservedField_returns (S (size schemas)) s ∅) as [[b V'] E].
  { rewrite difference_empty_L, size_dom. lia. }
  rewrite E. destruct b; [reflexivity|].
  exfalso. exact (hasReservedField_complete schemas _ s V' E Hc).
Qed.

Lemma validateSchema_passes (s : ZodType) :
  ~ containsReservedField schemas s ->
  validateSchema schemas s = Ok tt.
Proof.
  intros Hc. unfold validateSchema.
  destruct (hasReservedField_returns (S (size schemas)) s ∅) as [[b V'] E].
  { rewrite difference_empty_L, size_dom. lia. }
  rewrite E. destruct b; [|reflexivity].
  exfalso. exact (Hc (hasReservedField_sound _ s ∅ V' E)).
Qed.

Lemma validateSchema_Ok_iff (s : ZodType) :
  validateSchema schemas s = Ok tt <-> ~ containsReservedField schemas s.
Proof.
  split; [|apply validateSchema_passes].
  intros H Hc. rewrite (validateSchema_throws s Hc) in H. discriminate.
Qed.

End TraversalTotal.

(** ** The base64url text layer (compression/base64url.ts) *)

Section Base64.
Import Buffer Base64Url.

(** Induction over a byte array three bytes at a time. *)
Lemma list_ind3 {A : Type} (Q : list A -> Prop) :
  Q [] -> (forall a, Q [a]) -> (forall a b, Q [a; b]) ->
  (forall a b c rest, Q rest -> Q (a :: b :: c :: rest)) ->
  forall l, Q l.
Proof.
  intros H0 H1 H2 H3.
  assert (Hall : forall l, Q l /\ (forall a, Q (a :: l)) /\ (forall a b, Q (a :: b :: l))).
  { induction l as [|x l (IH0 & IH1 & IH2)].
    - repeat split; auto.
    - repeat split; auto. }
  intros l. apply Hall.
Qed.

Lemma bounded_by_bits (x k : Z) :
  0 <= x -> 0 <= k -> (forall n, k <= n -> Z.testbit x n = false) -> x < 2 ^ k.
Proof.
  intros Hx Hk Hbits.
  assert (E : x mod 2 ^ k = x).
  { apply Z.bits_inj'. intros n Hn. rewrite Z.testbit_mod_pow2 by lia.
    destruct (Z.ltb_spec n k); [reflexivity|]. rewrite Hbits by lia. reflexivity. }
  rewrite <- E. apply Z.mod_pos_bound. lia.
Qed.

Lemma testbit_Zb_high (b : byte) (n : Z) : 8 <= n -> Z.testbit (Zb b) n = false.
Proof.
  intros Hn. apply (testbit_above (Zb b) 8 n); [|lia].
  change (2 ^ 8) with 256. apply Zb_range.
Qed.

Ltac sextet_consts :=
  change 3 with (Z.ones 2); change 15 with (Z.ones 4); change 63 with (Z.ones 6).

Ltac sextet_bits :=
  repeat first
    [ rewrite Z.lor_spec | rewrite Z.land_spec
    | rewrite Z.shiftl_spec by lia | rewrite Z.shiftr_spec by lia
    | rewrite Z.testbit_ones_nonneg by lia
    | match goal with
      | |- context [Z.testbit (Zb ?b) ?i] => rewrite (testbit_Zb_high b i) by lia
      | |- context [Z.testbit ?x ?i] => rewrite (Z.testbit_neg_r x i) by lia
      end ].

Ltac bit_split :=
  rewrite ?Z.add_simpl_r, ?Z.sub_add;
  repeat match goal with
  | |- context [?i <? ?k] => destruct (Z.ltb_spec i k); try lia
  end.

(** A byte is equal to the stored low eight bits of any number that agrees
    with it on those bits. *)
Lemma u8_bits (x : Z) (b : byte) :
  (forall n, 0 <= n < 8 -> Z.testbit x n = Z.testbit (Zb b) n) -> u8 x = b.
Proof.
  intros H.
  assert (E : x mod 256 = Zb b).
  { apply Z.bits_inj'. intros n Hn. change 256 with (2 ^ 8).
    rewrite Z.testbit_mod_pow2 by lia.
    destruct (Z.ltb_spec n 8); [apply H; lia|].
    rewrite testbit_Zb_high by lia. reflexivity. }
  rewrite <- (u8_Zb b), <- E. unfold u8.
  rewrite Z.mod_mod by lia. reflexivity.
Qed.

Ltac byte_bits :=
  apply u8_bits; intros n Hn; sextet_consts; sextet_bits.

Ltac bits_done :=
  rewrite ?Z.add_simpl_r, ?Z.sub_add;
  repeat match goal with
  | |- context [Z.testbit ?x ?i] =>
    let v := fresh "bit" in set (v := Z.testbit x i) in *; clearbody v
  end;
  btauto.

Lemma byte0_of_sextets (a b : byte) :
  u8 (Z.lor (Z.shiftl (Z.shiftr (Zb a) 2) 2)
        (Z.shiftr (Z.lor (Z.shiftl (Z.land (Zb a) 3) 4) (Z.shiftr (Zb b) 4)) 4)) = a.
Proof.
  byte_bits.
  destruct (Z.lt_ge_cases n 2); sextet_bits; bit_split; bits_done.
Qed.

Lemma byte0_of_sextets_last (a : byte) :
  u8 (Z.lor (Z.shiftl (Z.shiftr (Zb a) 2) 2)
        (Z.shiftr (Z.shiftl (Z.land (Zb a) 3) 4) 4)) = a.
Proof.
  byte_bits.
  destruct (Z.lt_ge_cases n 2); sextet_bits; bit_split; bits_done.
Qed.

Lemma byte1_of_sextets (a b c : byte) :
  u8 (Z.lor
        (Z.shiftl (Z.land (Z.lor (Z.shiftl (Z.land (Zb a) 3) 4) (Z.shiftr (Zb b) 4)) 15) 4)
        (Z.shiftr (Z.lor (Z.shiftl (Z.land (Zb b) 15) 2) (Z.shiftr (Zb c) 6)) 2)) = b.
Proof.
  byte_bits.
  destruct (Z.lt_ge_cases n 4); sextet_bits; bit_split; bits_done.
Qed.

Lemma byte1_of_sextets_last (a b : byte) :
  u8 (Z.lor
        (Z.shiftl (Z.land (Z.lor (Z.shiftl (Z.land (Zb a) 3) 4) (Z.shiftr (Zb b) 4)) 15) 4)
        (Z.shiftr (Z.shiftl (Z.land (Zb b) 15) 2) 2)) = b.
Proof.
  byte_bits.
  destruct (Z.lt_ge_cases n 4); sextet_bits; bit_split; bits_done.
Qed.

Lemma byte2_of_sextets (b c : byte) :
  u8 (Z.lor
        (Z.shiftl (Z.land (Z.lor (Z.shiftl (Z.land (Zb b) 15) 2) (Z.shiftr (Zb c) 6)) 3) 6)
        (Z.land (Zb c) 63)) = c.
Proof.
  byte_bits.
  destruct (Z.lt_ge_cases n 6); sextet_bits; bit_split; bits_done.
Qed.

(** Regrouping the six-bit values of a byte array gives the bytes back. *)
Lemma fromSextets_toSextets (data : Uint8Array) :
  fromSextets (toSextets data) = data.
Proof.
  induction data as [|a|a b|a b c rest IH] using list_ind3.
  - reflexivity.
  - cbn [toSextets fromSextets]. rewrite byte0_of_sextets_last. reflexivity.
  - cbn [toSextets fromSextets].
    rewrite byte0_of_sextets, byte1_of_sextets_last. reflexivity.
  - cbn [toSextets fromSextets].
    rewrite byte0_of_sextets, byte1_of_sextets, byte2_of_sextets, IH. reflexivity.
Qed.

Ltac sextet_nonneg :=
  repeat first
    [ apply Z.lor_nonneg; split | apply Z.shiftl_nonneg | apply Z.shiftr_nonneg
    | apply Z.land_nonneg; left | apply Zb_range ].

Ltac sextet_range :=
  split;
  [ sextet_nonneg
  | change 64 with (2 ^ 6); apply bounded_by_bits;
    [ sextet_nonneg | lia
    | intros n Hn; sextet_consts; sextet_bits; bit_split; bits_done ] ].

Lemma toSextets_range (data : Uint8Array) : Forall isSextet (toSextets data).
Proof.
  induction data as [|a|a b|a b c rest IH] using list_ind3;
    cbn [toSextets]; repeat apply Forall_cons_2; try apply Forall_nil_2;
    try exact IH; unfold isSextet; sextet_range.
Qed.

(** The base64 digits: each decodes to its value, none is the padding
    character, and the URL-safe substitution of one is undone by the
    substitution back. *)
Lemma sextet_digit (s : Z) :
  isSextet s ->
  let c := encodeSextet s in
  let c' := if Ascii.eqb c "+" then "-"%char else c in
  let c'' := if Ascii.eqb c' "/" then "_"%char else c' in
  let d' := if Ascii.eqb c'' "-" then "+"%char else c'' in
  let d'' := if Ascii.eqb d' "_" then "/"%char else d' in
  decodeSextet c = Some s /\ c <> pad /\ c'' <> pad /\ d'' = c.
Proof.
  intros Hs.
  assert (Hn : exists n, (n < 64)%nat /\ s = Z.of_nat n).
  { exists (Z.to_nat s). unfold isSextet in Hs. lia. }
  destruct Hn as (n & Hn & ->).
  do 64 (destruct n as [|n]; [repeat split; (reflexivity || discriminate)|]).
  lia.
Qed.

Lemma padCount_step (n : nat) : padCount (3 + n) = padCount n.
Proof.
  unfold padCount.
  replace ((3 + n) mod 3)%nat with (n mod 3)%nat; [reflexivity|].
  rewrite Nat.add_comm. symmetry. exact (Nat.Div0.mod_add n 1 3).
Qed.

Lemma toBase64_sextets (data : Uint8Array) :
  toBase64 data
  = map encodeSextet (toSextets data) ++ replicate (padCount (length data)) pad.
Proof.
  induction data as [|a|a b|a b c rest IH] using list_ind3; try reflexivity.
  cbn [toBase64 toSextets map app]. rewrite IH.
  change (length (a :: b :: c :: rest)) with (3 + length rest)%nat.
  rewrite padCount_step. reflexivity.
Qed.

(** What the decoder reads from base64 text, padded or not. *)
Lemma sextets_digits (ss : list Z) (k : nat) :
  Forall isSextet ss ->
  sextets (map encodeSextet ss ++ replicate k pad) = ss.
Proof.
  induction 1 as [|s ss Hs _ IH]; cbn [map app sextets].
  - destruct k; reflexivity.
  - destruct (sextet_digit s Hs) as (Hd & Hp & _).
    destruct (Ascii.eqb_spec (encodeSextet s) pad) as [E|_]; [contradiction|].
    rewrite Hd, IH. reflexivity.
Qed.

Lemma fromBase64_toBase64 (data : Uint8Array) : fromBase64 (toBase64 data) = data.
Proof.
  unfold fromBase64.
  rewrite toBase64_sextets, sextets_digits by apply toSextets_range.
  apply fromSextets_toSextets.
Qed.

(** The text of [encodeBase64Url] and what [decodeBase64Url] makes of it
    before padding, digit by digit. *)
Lemma url_digits (ss : list Z) (k : nat) :
  Forall isSextet ss ->
  replaceAll "_" "/"
    (replaceAll "-" "+"
       (removeAll "="
          (replaceAll "/" "_"
             (replaceAll "+" "-" (map encodeSextet ss ++ replicate k pad)))))
  = map encodeSextet ss.
Proof.
  intros Hss. unfold replaceAll, removeAll.
  induction Hss as [|s ss Hs _ IH]; cbn [map app].
  - induction k as [|k IHk]; [reflexivity|].
    cbn [replicate map]. rewrite filter_cons_False; [exact IHk|].
    intros H. apply H. reflexivity.
  - destruct (sextet_digit s Hs) as (_ & _ & Hp & Hback). cbn zeta in Hp, Hback.
    rewrite filter_cons_True by exact Hp.
    cbn [map]. rewrite IH. f_equal. exact Hback.
Qed.

Lemma toSextets_padding (data : Uint8Array) :
  ((4 - length (toSextets data) mod 4) mod 4)%nat = padCount (length data).
Proof.
  induction data as [|a|a b|a b c rest IH] using list_ind3; try reflexivity.
  change (length (a :: b :: c :: rest)) with (3 + length rest)%nat.
  rewrite padCount_step, <- IH. cbn [toSextets length].
  replace (S (S (S (S (length (toSextets rest))))))
    with (length (toSextets rest) + 1 * 4)%nat by lia.
  rewrite Nat.Div0.mod_add. reflexivity.
Qed.

(** The padding [decodeBase64Url] computes is the padding [encodeBase64Url]
    removed: the text handed to the base64 decoder is the base64 of the
    data. *)
Lemma toBase64Text_encodeBase64Url (data : Uint8Array) :
  toBase64Text (encodeBase64Url data) = toBase64 data.
Proof.
  unfold toBase64Text, encodeBase64Url.
  rewrite list_ascii_of_string_of_list_ascii, toBase64_sextets.
  rewrite url_digits by apply toSextets_range.
  rewrite length_map, toSextets_padding. reflexivity.
Qed.

Lemma decodeBase64Url_encodeBase64Url (data : Uint8Array) :
  decodeBase64Url (encodeBase64Url data) = Ok data.
Proof.
  unfold decodeBase64Url, try_catch.
  rewrite toBase64Text_encodeBase64Url, fromBase64_toBase64. reflexivity.
Qed.

(** The text of a token is URL-safe: no "+", no "/" and no "=". *)
Lemma encodeBase64Url_safe (data : Uint8Array) (c : ascii) :
  c ∈ list_ascii_of_string (encodeBase64Url data) ->
  c <> "+"%char /\ c <> "/"%char /\ c <> "="%char.
Proof.
  unfold encodeBase64Url, removeAll, replaceAll.
  rewrite list_ascii_of_string_of_list_ascii.
  intros Hc. apply list_elem_of_filter in Hc as [Hpad Hc].
  apply list_elem_of_fmap in Hc as (c1 & -> & Hc1).
  apply list_elem_of_fmap in Hc1 as (c0 & -> & _).
  set (c1 := if Ascii.eqb c0 "+" then "-"%char else c0).
  split; [|split; [|exact Hpad]].
  - destruct (Ascii.eqb_spec c1 "/") as [_|_]; [discriminate|].
    unfold c1. destruct (Ascii.eqb_spec c0 "+") as [_|Hne]; [discriminate|exact Hne].
  - destruct (Ascii.eqb_spec c1 "/") as [_|Hne]; [discriminate|exact Hne].
Qed.

End Base64.

(** ** The orchestrator (encoder.ts, decoder.ts) *)

Section Orchestrator.
Import Validation Converter Compression Base64Url Encoder Decoder.
Context (P : Platform) (schemas : Schemas).

Lemma bind_Ok {A B : Type} (r : result A) (k : A -> result B) (b : B) :
  (r ≫= k) = Ok b -> exists a, r = Ok a /\ k a = Ok b.
Proof.
  destruct r as [a|e]; cbn; [|discriminate]. intros H. exists a. split; [reflexivity|exact H].
Qed.

Lemma bind_Throw {A B : Type} (r : result A) (k : A -> result B) (e : Errors.error) :
  r = Throw e -> (r ≫= k) = Throw e.
Proof. intros ->. reflexivity. Qed.

Lemma bind_step {A B : Type} (r : result A) (k : A -> result B) (a : A) :
  r = Ok a -> (r ≫= k) = k a.
Proof. intros ->. reflexivity. Qed.

(** [encodeInternal] returns exactly when each of its steps returns, and
    then returns the base64url text of the marked bytes.  No step looks at
    the range of the version. *)
Lemma encodeInternal_Ok (data : value) (schema : ZodType) (version : Z) (token : string) :
  encodeInternal P schemas data schema version = Ok token <->
  exists run, encodeRuns P schemas data schema version run /\ token = tokenOf run.
Proof.
  unfold encodeInternal, encodeRuns, tokenOf. split.
  - intros H.
    apply bind_Ok in H as ([] & Hv & H).
    apply bind_Ok in H as (v & Hp & H).
    destruct v as [| | | | | |props]; try discriminate.
    apply bind_Ok in H as (T & HT & H).
    apply bind_Ok in H as (m & Hm & H).
    apply bind_Ok in H as (b & Hb & H).
    apply bind_Ok in H as (c & Hc & H).
    injection H as <-.
    exists {| run_validated := props; run_pbType := T; run_message := m;
              run_binary := b; run_compressed := c |}.
    cbn. auto 10.
  - intros ([props T m b c] & (Hv & Hp & HT & Hm & Hb & Hc) & ->). cbn in *.
    rewrite (bind_step _ _ _ Hv), (bind_step _ _ _ Hp).
    rewrite (bind_step _ _ _ HT), (bind_step _ _ _ Hm).
    rewrite (bind_step _ _ _ Hb), (bind_step _ _ _ Hc). reflexivity.
Qed.

(** The marker step of [decodeInternal] on the bytes [encodeInternal]
    marked. *)
Lemma unmark_withMarker (binary compressed : Uint8Array) :
  ((length compressed < length binary)%nat -> decompress P compressed = Ok binary) ->
  unmark P (withMarker binary compressed) = Ok binary.
Proof.
  intros H. unfold withMarker.
  destruct (Nat.ltb_spec (length compressed) (length binary)) as [Hlt|Hge].
  - cbn. exact (H Hlt).
  - reflexivity.
Qed.

(** The version step of [decodeInternal] on the object [encodeInternal]
    serialized. *)
Lemma extractVersion_withVersion (validated : gmap string value) (version : Z) :
  validated !! RESERVED_FIELD = None ->
  extractVersion (withVersion validated version) = Ok (validated, version).
Proof.
  intros Hno. unfold extractVersion, withVersion, get.
  destruct (Z.eqb_spec version 1) as [->|Hne].
  - rewrite Hno. reflexivity.
  - rewrite lookup_insert_eq. cbn. rewrite delete_insert_id by exact Hno. reflexivity.
Qed.

(** Decoding the token of a run of encoding whose library calls are
    inverted gives back the validated object and the version. *)
Lemma decodeInternal_tokenOf (data : value) (schema : ZodType) (version : Z)
  (run : EncodeRun P) :
  encodeRuns P schemas data schema version run ->
  inverts P schemas schema version run ->
  decodeInternal P schemas (tokenOf run) schema
  = Ok (VObject (run_validated run), version).
Proof.
  intros (Hv & Hp & HT & Hm & Hb & Hc) (Hinf & (decoded & Hd & Ho) & Hno & Hid).
  unfold decodeInternal, tokenOf.
  rewrite (bind_step _ _ _ Hv).
  rewrite (bind_step _ _ _ (decodeBase64Url_encodeBase64Url _)).
  rewrite (bind_step _ _ _ (unmark_withMarker _ _ Hinf)).
  rewrite (bind_step _ _ _ HT).
  rewrite Hd. cbn [try_catch mbind result_bind bind].
  rewrite Ho, (extractVersion_withVersion _ _ Hno).
  cbn [mbind result_bind bind]. rewrite Hid. reflexivity.
Qed.

End Orchestrator.

Section Validated.
Import Validation Converter Compression Base64Url Encoder Decoder.
Context (P : Platform) (schemas : Schemas).


Lemma decodeInternal_validates (encoded : string) (schema : ZodType) (e : Errors.error) :
  validateSchema schemas schema = Throw e ->
  decodeInternal P schemas encoded schema = Throw e.
Proof. intros H. unfold decodeInternal. apply bind_Throw, H. Qed.

(** The marker step on bytes that start with neither marker. *)
Lemma unmark_invalid (bytes : Uint8Array) :
  (forall payload, bytes <> x00 :: payload /\ bytes <> x01 :: payload) ->
  exists marker, unmark P bytes = Throw (invalidMarker marker).
Proof.
  intros H. destruct bytes as [|m payload]; [exists "undefined"; reflexivity|].
  exists (pretty (Zb m)). cbn [unmark].
  destruct (Z.eqb_spec (Zb m) 1) as [E1|_].
  { exfalso. apply (proj2 (H payload)). f_equal.
    rewrite <- (u8_Zb m), E1. reflexivity. }
  destruct (Z.eqb_spec (Zb m) 0) as [E0|_]; [|reflexivity].
  exfalso. apply (proj1 (H payload)). f_equal.
  rewrite <- (u8_Zb m), E0. reflexivity.
Qed.

(** What [decodeInternal] throws when the marker step throws. *)
Lemma decodeInternal_unmark (encoded : string) (schema : ZodType)
  (bytes : Uint8Array) (e : Errors.error) :
  validateSchema schemas schema = Ok tt ->
  decodeBase64Url encoded = Ok bytes ->
  unmark P bytes = Throw e ->
  decodeInternal P schemas encoded schema = Throw e.
Proof.
  intros Hv Hb Hu. unfold decodeInternal.
  rewrite (bind_step _ _ _ Hv), (bind_step _ _ _ Hb). apply bind_Throw, Hu.
Qed.

End Validated.

(** A schema that contains the reserved field makes decodeWithVersion
    throw the validation error. *)
Lemma reserved_schema_throws (P : Platform) (schemas : Validation.Schemas)
  (schema : Validation.ZodType) (encoded : string) :
  containsReservedField schemas schema ->
  Decoder.decodeWithVersion P schemas encoded schema
  = Throw (ValidationError Validation.reservedMessage).
Proof.
  intros Hc. unfold Decoder.decodeWithVersion.
  apply decodeInternal_validates, validateSchema_throws, Hc.
Qed.





(** ** The compression marker *)

Section FromWire.
Import Validation Converter Compression Base64Url Encoder Decoder.
Context (P : Platform) (schemas : Schemas).

(** Past the marker step, [decodeInternal] is [fromWire] on the wire
    bytes. *)
Lemma decodeInternal_fromWire (encoded : string) (schema : ZodType)
  (bytes binary : Uint8Array) :
  validateSchema schemas schema = Ok tt ->
  decodeBase64Url encoded = Ok bytes ->
  unmark P bytes = Ok binary ->
  decodeInternal P schemas encoded schema = fromWire P schemas schema binary.
Proof.
  intros Hv Hb Hu. unfold decodeInternal, fromWire.
  rewrite (bind_step _ _ _ Hv), (bind_step _ _ _ Hb), (bind_step _ _ _ Hu).
  reflexivity.
Qed.

(** [compress] and [decompress] return what the library call returns. *)
Lemma compress_Ok (data compressed : Uint8Array) :
  compress P data = Ok compressed <-> deflate P data = Ok compressed.
Proof.
  unfold compress, deflate, try_catch.
  destruct (if isNode P then _ else _); split; congruence.
Qed.

Lemma decompress_Ok (data binary : Uint8Array) :
  decompress P data = Ok binary <-> inflate P data = Ok binary.
Proof.
  unfold decompress, inflate, try_catch.
  destruct (if isNode P then _ else _); split; congruence.
Qed.

Lemma decompress_Throw (data : Uint8Array) (e : Errors.error) :
  inflate P data = Throw e ->
  decompress P data = Throw (CompressionError "Decompression failed").
Proof. unfold decompress, inflate. intros ->. reflexivity. Qed.

(** The version step on an object that carries a number as its version. *)
Lemma extractVersion_number (decodedObj : gmap string value) (version : Z) :
  decodedObj !! RESERVED_FIELD = Some (VNumber version) ->
  extractVersion decodedObj = Ok (delete RESERVED_FIELD decodedObj, version).
Proof. intros H. unfold extractVersion, get. rewrite H. reflexivity. Qed.

(** Decoding a token of marked bytes. *)
Lemma decodeInternal_marked (schema : ZodType) (bytes : Uint8Array) :
  decodeInternal P schemas (encodeBase64Url bytes) schema
  = (validateSchema schemas schema ≫= fun _ =>
     binary ← unmark P bytes; fromWire P schemas schema binary).
Proof.
  unfold decodeInternal, fromWire.
  destruct (validateSchema schemas schema) as [[]|e]; [|reflexivity].
  cbn [mbind result_bind bind].
  rewrite (bind_step _ _ _ (decodeBase64Url_encodeBase64Url bytes)). reflexivity.
Qed.

End FromWire.

(** C6: encode emits one marker byte ahead of the payload: 0x01 followed by
    what the platform's deflate returned for the wire bytes when that is
    shorter than the wire bytes, 0x00 followed by the wire bytes otherwise,
    so that the payload is always the shorter of the two.  decode branches
    on that byte: on 0x00 it goes on with the rest of the bytes as they
    are, on 0x01 it goes on with what the platform's inflate returns for
    the rest (a token of 0x01 and compressed bytes decodes as the token of
    0x00 and the bytes they inflate to does) and fails with a
    CompressionError when inflate throws; on any other first byte, and on
    no byte at all, it fails with a DecodingError. *)
Theorem adaptive_marker (P : Platform) (schemas : Validation.Schemas) :
  (forall data schema version token,
     Encoder.encode P schemas data schema version = Ok token ->
     exists run marker payload,
       encodeRuns P schemas data schema (default 1 version) run
       /\ deflate P (run_binary run) = Ok (run_compressed run)
       /\ Base64Url.decodeBase64Url token = Ok (marker :: payload)
       /\ ((length (run_compressed run) < length (run_binary run))%nat ->
             marker = x01 /\ payload = run_compressed run)
       /\ ((length (run_binary run) <= length (run_compressed run))%nat ->
             marker = x00 /\ payload = run_binary run)
       /\ length payload
          = Nat.min (length (run_binary run)) (length (run_compressed run)))
  /\ (forall encoded schema payload,
        Validation.validateSchema schemas schema = Ok tt ->
        Base64Url.decodeBase64Url encoded = Ok (x00 :: payload) ->
        Decoder.decodeWithVersion P schemas encoded schema
        = fromWire P schemas schema payload
        /\ Decoder.decode P schemas encoded schema
           = ('(data, _) ← fromWire P schemas schema payload; Ok data))
  /\ (forall encoded schema payload binary,
        Validation.validateSchema schemas schema = Ok tt ->
        Base64Url.decodeBase64Url encoded = Ok (x01 :: payload) ->
        inflate P payload = Ok binary ->
        Decoder.decodeWithVersion P schemas encoded schema
        = fromWire P schemas schema binary
        /\ Decoder.decode P schemas encoded schema
           = ('(data, _) ← fromWire P schemas schema binary; Ok data))
  /\ (forall schema payload binary,
        inflate P payload = Ok binary ->
        Decoder.decode P schemas (Base64Url.encodeBase64Url (x01 :: payload)) schema
        = Decoder.decode P schemas (Base64Url.encodeBase64Url (x00 :: binary)) schema)
  /\ (forall encoded schema payload e,
        Validation.validateSchema schemas schema = Ok tt ->
        Base64Url.decodeBase64Url encoded = Ok (x01 :: payload) ->
        inflate P payload = Throw e ->
        Decoder.decode P schemas encoded schema
        = Throw (CompressionError "Decompression failed"))
  /\ (forall encoded schema bytes,
        Validation.validateSchema schemas schema = Ok tt ->
        Base64Url.decodeBase64Url encoded = Ok bytes ->
        (forall payload, bytes <> x00 :: payload /\ bytes <> x01 :: payload) ->
        exists marker,
          Decoder.decode P schemas encoded schema
          = Throw (DecodingError
                     ("Invalid compression marker: " +:+ marker
                      +:+ ". Expected 0x00 or 0x01"))).
Proof.
  repeat match goal with |- _ /\ _ => split end.
  - intros data schema version token H. unfold Encoder.encode in H.
    apply encodeInternal_Ok in H as (run & Hrun & ->).
    assert (Hd : deflate P (run_binary run) = Ok (run_compressed run)).
    { apply compress_Ok. apply Hrun. }
    unfold tokenOf. rewrite decodeBase64Url_encodeBase64Url.
    unfold Encoder.withMarker.
    destruct (Nat.ltb_spec (length (run_compressed run)) (length (run_binary run)))
      as [Hlt|Hge].
    + exists run, x01, (run_compressed run).
      split; [exact Hrun|]. split; [exact Hd|]. split; [reflexivity|].
      split; [intros _; split; reflexivity|]. split; [lia|lia].
    + exists run, x00, (run_binary run).
      split; [exact Hrun|]. split; [exact Hd|]. split; [reflexivity|].
      split; [lia|]. split; [intros _; split; reflexivity|lia].
  - intros encoded schema payload Hv Hb.
    pose proof (decodeInternal_fromWire P schemas encoded schema _ payload Hv Hb eq_refl)
      as H.
    unfold Decoder.decodeWithVersion, Decoder.decode. rewrite H. split; reflexivity.
  - intros encoded schema payload binary Hv Hb Hi.
    assert (Hu : Decoder.unmark P (x01 :: payload) = Ok binary).
    { cbn. apply decompress_Ok, Hi. }
    pose proof (decodeInternal_fromWire P schemas encoded schema _ binary Hv Hb Hu) as H.
    unfold Decoder.decodeWithVersion, Decoder.decode. rewrite H. split; reflexivity.
  - intros schema payload binary Hi. unfold Decoder.decode.
    rewrite !decodeInternal_marked.
    assert (Hu : Decoder.unmark P (x01 :: payload) = Ok binary).
    { cbn. apply decompress_Ok, Hi. }
    rewrite Hu. reflexivity.
  - intros encoded schema payload e Hv Hb Hi. unfold Decoder.decode.
    rewrite (decodeInternal_unmark P schemas encoded schema _ _ Hv Hb
               (decompress_Throw P payload e Hi)).
    reflexivity.
  - intros encoded schema bytes Hv Hb Hm.
    destruct (unmark_invalid P bytes Hm) as [marker Hu]. exists marker.
    unfold Decoder.decode.
    rewrite (decodeInternal_unmark P schemas encoded schema bytes _ Hv Hb Hu).
    reflexivity.
Qed.

(** The marker on the reference platform: Alice's token carries 0x00 and the
    raw wire bytes, a stored zlib stream being longer than what it stores;
    a token whose first byte is 138 is refused. *)
Example alice_marker :
  Base64Url.decodeBase64Url "ABIFQWxpY2UYHg"
  = Ok (x00 :: [u8 0x12; u8 5; u8 65; u8 108; u8 105; u8 99; u8 101; u8 0x18; u8 30])
  /\ Decoder.decode Reference.platform Reference.person "invalid-data" 0%nat
     = Throw (DecodingError "Invalid compression marker: 138. Expected 0x00 or 0x01")
  /\ Migrations.getVersion Reference.platform Reference.person "invalid-data" 0%nat = 1.
Proof. repeat split; vm_compute; reflexivity. Qed.

(** C6 where the compressed form is the shorter one: under a compressor
    that writes runs, the twenty wire bytes of a name of sixteen letters
    are sent as 0x01 and ten bytes, and decode inflates them. *)
Lemma adaptive_marker_witness :
  Encoder.encode Reference.shortening Reference.person Reference.repetitive 0%nat None
    = Ok "AQESARAQYQEYAR4"
  /\ Base64Url.decodeBase64Url "AQESARAQYQEYAR4"
     = Ok (x01 :: [u8 1; u8 0x12; u8 1; u8 16; u8 16; u8 97; u8 1; u8 0x18; u8 1; u8 30])
  /\ inflate Reference.shortening
       [u8 1; u8 0x12; u8 1; u8 16; u8 16; u8 97; u8 1; u8 0x18; u8 1; u8 30]
     = Ok ([u8 0x12; u8 16] ++ replicate 16 (u8 97) ++ [u8 0x18; u8 30])
  /\ Decoder.decode Reference.shortening Reference.person "AQESARAQYQEYAR4" 0%nat
     = Ok Reference.repetitive.
Proof.
  assert (Hb : Base64Url.decodeBase64Url "AQESARAQYQEYAR4"
               = Ok (x01 :: [u8 1; u8 0x12; u8 1; u8 16; u8 16; u8 97; u8 1; u8 0x18;
                             u8 1; u8 30])) by (vm_compute; reflexivity).
  assert (Hi : inflate Reference.shortening
                 [u8 1; u8 0x12; u8 1; u8 16; u8 16; u8 97; u8 1; u8 0x18; u8 1; u8 30]
               = Ok ([u8 0x12; u8 16] ++ replicate 16 (u8 97) ++ [u8 0x18; u8 30]))
    by (vm_compute; reflexivity).
  split; [vm_compute; reflexivity|]. split; [exact Hb|]. split; [exact Hi|].
  destruct (adaptive_marker Reference.shortening Reference.person)
    as (_ & _ & Hinflated & _).
  destruct (Hinflated "AQESARAQYQEYAR4" 0%nat _ _ eq_refl Hb Hi) as [_ ->].
  vm_compute. reflexivity.
Defined.

Section GetVersion.
Import Validation Converter Compression Base64Url Encoder Decoder Migrations.
Context (P : Platform) (schemas : Schemas).

Lemma getVersion_caught (encoded : string) (schema : ZodType) (e : Errors.error) :
  decodeWithVersion P schemas encoded schema = Throw e ->
  getVersion P schemas encoded schema = 1.
Proof. intros H. unfold getVersion. rewrite H. reflexivity. Qed.

Lemma getVersion_decoded (encoded : string) (schema : ZodType) (data : value) (v : Z) :
  decodeWithVersion P schemas encoded schema = Ok (data, v) ->
  getVersion P schemas encoded schema = v.
Proof. intros H. unfold getVersion. rewrite H. reflexivity. Qed.

(** The steps of [decodeInternal] that can throw after the marker step,
    on the wire bytes [binary]. *)
Lemma decodeInternal_binary (encoded : string) (schema : ZodType)
  (bytes binary : Uint8Array) :
  validateSchema schemas schema = Ok tt ->
  decodeBase64Url encoded = Ok bytes ->
  unmark P bytes = Ok binary ->
  decodeInternal P schemas encoded schema
  = (pbType ← zodToProtobuf P schemas schema "EncodedState";
     decoded ← try_catch (Type_decode P pbType binary)
                 (fun _ => DecodingError "Failed to decode protobuf message");
     '(dataWithoutVersion, finalVersion) ← extractVersion (Type_toObject P pbType decoded);
     validated ← zod_parse P schemas schema (VObject dataWithoutVersion);
     Ok (validated, finalVersion)).
Proof.
  intros Hv Hb Hu. unfold decodeInternal.
  rewrite (bind_step _ _ _ Hv), (bind_step _ _ _ Hb), (bind_step _ _ _ Hu).
  reflexivity.
Qed.

End GetVersion.

(** C10: getVersion never throws.  Whatever makes the token undecodable
    under the schema, the error is caught and the default version 1 is
    returned: a schema that uses the reserved field, a first byte that is
    no compression marker, bytes that do not inflate, wire bytes the
    message type does not decode, an object the schema does not validate;
    and when the token decodes, its version is returned. *)
Theorem getVersion_total (P : Platform) (schemas : Validation.Schemas)
  (encoded : string) (schema : Validation.ZodType) :
  (forall e, Decoder.decodeWithVersion P schemas encoded schema = Throw e ->
             Migrations.getVersion P schemas encoded schema = 1)
  /\ (forall data v, Decoder.decodeWithVersion P schemas encoded schema = Ok (data, v) ->
                     Migrations.getVersion P schemas encoded schema = v)
  /\ (containsReservedField schemas schema ->
      Migrations.getVersion P schemas encoded schema = 1)
  /\ (forall bytes,
        Validation.validateSchema schemas schema = Ok tt ->
        Base64Url.decodeBase64Url encoded = Ok bytes ->
        (forall payload, bytes <> x00 :: payload /\ bytes <> x01 :: payload) ->
        Migrations.getVersion P schemas encoded schema = 1)
  /\ (forall payload e,
        Validation.validateSchema schemas schema = Ok tt ->
        Base64Url.decodeBase64Url encoded = Ok (x01 :: payload) ->
        (if isNode P then zlib_inflateSync P payload else pako_inflate P payload)
          = Throw e ->
        Migrations.getVersion P schemas encoded schema = 1)
  /\ (forall bytes binary pbType e,
        Validation.validateSchema schemas schema = Ok tt ->
        Base64Url.decodeBase64Url encoded = Ok bytes ->
        Decoder.unmark P bytes = Ok binary ->
        Converter.zodToProtobuf P schemas schema "EncodedState" = Ok pbType ->
        Type_decode P pbType binary = Throw e ->
        Migrations.getVersion P schemas encoded schema = 1)
  /\ (forall bytes binary pbType decoded dataWithoutVersion v e,
        Validation.validateSchema schemas schema = Ok tt ->
        Base64Url.decodeBase64Url encoded = Ok bytes ->
        Decoder.unmark P bytes = Ok binary ->
        Converter.zodToProtobuf P schemas schema "EncodedState" = Ok pbType ->
        Type_decode P pbType binary = Ok decoded ->
        Decoder.extractVersion (Type_toObject P pbType decoded)
          = Ok (dataWithoutVersion, v) ->
        zod_parse P schemas schema (VObject dataWithoutVersion) = Throw e ->
        Migrations.getVersion P schemas encoded schema = 1).
Proof.
  repeat split.
  - intros e. apply getVersion_caught.
  - intros data v. apply getVersion_decoded.
  - intros Hc. eapply getVersion_caught.
    apply (reserved_schema_throws P schemas schema encoded Hc).
  - intros bytes Hv Hb Hm.
    destruct (unmark_invalid P bytes Hm) as [marker Hu].
    eapply getVersion_caught.
    exact (decodeInternal_unmark P schemas encoded schema bytes _ Hv Hb Hu).
  - intros payload e Hv Hb Hi.
    eapply getVersion_caught.
    apply (decodeInternal_unmark P schemas encoded schema _ _ Hv Hb).
    cbn. unfold Compression.decompress. rewrite Hi. reflexivity.
  - intros bytes binary pbType e Hv Hb Hu HT Hd.
    eapply getVersion_caught. unfold Decoder.decodeWithVersion.
    rewrite (decodeInternal_binary P schemas encoded schema bytes binary Hv Hb Hu).
    rewrite (bind_step _ _ _ HT), Hd. reflexivity.
  - intros bytes binary pbType decoded dataWithoutVersion v e Hv Hb Hu HT Hd Hx Hp.
    eapply getVersion_caught. unfold Decoder.decodeWithVersion.
    rewrite (decodeInternal_binary P schemas encoded schema bytes binary Hv Hb Hu).
    rewrite (bind_step _ _ _ HT), Hd. cbn [try_catch].
    rewrite (bind_step _ _ _ (eq_refl : Ok decoded = Ok decoded)).
    rewrite Hx. cbn. rewrite Hp. reflexivity.
Qed.

(** ** Versions in the payload *)

Section Versions.
Import Validation Encoder Decoder.

Lemma extractVersion_absent (decodedObj : gmap string value) :
  decodedObj !! RESERVED_FIELD = None ->
  extractVersion decodedObj = Ok (decodedObj, 1).
Proof. intros H. unfold extractVersion, get. rewrite H. reflexivity. Qed.

End Versions.

(** Decoding the token of a run of encoding that the libraries carry
    back: the version is the one encoded, and the value is what validation
    returns on the validated object without a property of the reserved
    name. *)
Lemma decodeInternal_carried (P : Platform) (schemas : Validation.Schemas)
  (data : value) (schema : Validation.ZodType) (version : Z) (run : EncodeRun P)
  (validated : value) :
  encodeRuns P schemas data schema version run ->
  carriedBack P version run ->
  (version = 1 -> run_validated run !! Validation.RESERVED_FIELD = None) ->
  zod_parse P schemas schema
    (VObject (delete Validation.RESERVED_FIELD (run_validated run))) = Ok validated ->
  Decoder.decodeInternal P schemas (tokenOf run) schema = Ok (validated, version).
Proof.
  intros (Hv & Hp & HT & Hm & Hb & Hc) (Hinf & (decoded & Hd & Ho)) Hno Hparse.
  assert (Hu : Decoder.unmark P (Encoder.withMarker (run_binary run) (run_compressed run))
               = Ok (run_binary run)).
  { apply unmark_withMarker. intros Hlt. apply decompress_Ok, Hinf, Hlt. }
  rewrite (decodeInternal_fromWire P schemas (tokenOf run) schema _ _ Hv
             (decodeBase64Url_encodeBase64Url _) Hu).
  unfold fromWire. rewrite (bind_step _ _ _ HT), Hd.
  cbn [try_catch mbind result_bind bind]. rewrite Ho.
  unfold Encoder.withVersion in *.
  destruct (Z.eqb_spec version 1) as [->|Hne].
  - specialize (Hno eq_refl).
    rewrite (extractVersion_absent _ Hno). cbn [mbind result_bind bind].
    rewrite (delete_id _ _ Hno) in Hparse. rewrite Hparse. reflexivity.
  - rewrite (extractVersion_number _ _ (lookup_insert_eq _ _ _)).
    cbn [mbind result_bind bind]. rewrite delete_insert_eq, Hparse. reflexivity.
Qed.

(** ** The version field on the reference wire *)

Section ReferenceWire.
Import Validation Reference.

(** The low seven bits under the continuation bit. *)
Lemma continued_byte (n : Z) :
  Z.lor (Z.land n 127) 128 = n mod 128 + 128.
Proof.
  change 127 with (Z.ones 7). rewrite Z.land_ones by lia.
  symmetry. apply Z.add_nocarry_lor.
  apply Z.bits_inj'. intros i Hi.
  rewrite Z.land_spec, Z.bits_0. change 128 with (2 ^ 7).
  rewrite Z.pow2_bits_eqb by lia.
  destruct (Z.eqb_spec 7 i) as [<-|_]; [|apply andb_false_r].
  rewrite Z.mod_pow2_bits_high by lia. reflexivity.
Qed.

Lemma continued_value (n : Z) :
  Z.lor (Z.land (n mod 128 + 128) 127) (Z.shiftl (Z.shiftr n 7) 7) = n.
Proof.
  rewrite <- continued_byte.
  apply Z.bits_inj'. intros i Hi.
  rewrite Z.lor_spec, Z.land_spec, Z.lor_spec, Z.land_spec.
  change 127 with (Z.ones 7). change 128 with (2 ^ 7).
  rewrite Z.pow2_bits_eqb by lia.
  destruct (Z.ltb_spec i 7) as [Hlt|Hge].
  - rewrite Z.ones_spec_low by lia.
    rewrite Z.shiftl_spec_low by lia.
    destruct (Z.eqb_spec 7 i); [lia|].
    rewrite !andb_true_r, !orb_false_r. reflexivity.
  - rewrite Z.ones_spec_high by lia.
    rewrite Z.shiftl_spec by lia. rewrite Z.shiftr_spec by lia.
    rewrite !andb_false_r. cbn. f_equal. lia.
Qed.

Lemma varint_S (fuel : nat) (n : Z) :
  varint (S fuel) n
  = if n <? 128 then [u8 n]
    else u8 (Z.lor (Z.land n 127) 128) :: varint fuel (Z.shiftr n 7).
Proof. reflexivity. Qed.

Lemma readVarint_cons (fuel : nat) (b : byte) (rest : Uint8Array) :
  readVarint (S fuel) (b :: rest)
  = if Zb b <? 128 then Some (Zb b, rest)
    else match readVarint fuel rest with
         | Some (high, rest) => Some (Z.lor (Z.land (Zb b) 127) (Z.shiftl high 7), rest)
         | None => None
         end.
Proof. reflexivity. Qed.

(** A varint reads back as the number it was written from. *)
Lemma readVarint_varint (fuel : nat) :
  forall (n : Z) (rest : Uint8Array),
    0 <= n < 2 ^ (7 * Z.of_nat (S fuel)) ->
    readVarint (S fuel) (varint (S fuel) n ++ rest) = Some (n, rest).
Proof.
  induction fuel as [|fuel IH]; intros n rest Hn.
  - change (2 ^ (7 * Z.of_nat 1)) with 128 in Hn.
    cbn [varint]. destruct (Z.ltb_spec n 128); [|lia].
    cbn [app readVarint]. rewrite Zb_u8_small by lia.
    destruct (Z.ltb_spec n 128); [reflexivity|lia].
  - rewrite (varint_S (S fuel)). destruct (Z.ltb_spec n 128) as [Hlt|Hge].
    + cbn [app]. rewrite readVarint_cons, Zb_u8_small by lia.
      destruct (Z.ltb_spec n 128); [reflexivity|lia].
    + rewrite <- app_comm_cons, readVarint_cons.
      rewrite continued_byte.
      assert (Hm : 0 <= n mod 128 < 128) by (apply Z.mod_pos_bound; lia).
      rewrite Zb_u8_small by lia.
      destruct (Z.ltb_spec (n mod 128 + 128) 128); [lia|].
      rewrite IH.
      * rewrite continued_value. reflexivity.
      * rewrite Z.shiftr_div_pow2 by lia. split.
        -- apply Z.div_pos; lia.
        -- apply Z.div_lt_upper_bound; [lia|].
           rewrite <- Z.pow_add_r by lia.
           replace (7 + 7 * Z.of_nat (S fuel)) with (7 * Z.of_nat (S (S fuel))) by lia.
           lia.
Qed.

Lemma readVarint_writeVarint (n : Z) (rest : Uint8Array) :
  0 <= n < 2 ^ 64 ->
  readVarint 10 (writeVarint n ++ rest) = Some (n, rest).
Proof.
  intros Hn. apply readVarint_varint.
  change (2 ^ (7 * Z.of_nat 10)) with (2 ^ 64 * 64). lia.
Qed.

Lemma length_varint (fuel : nat) (n : Z) : (length (varint fuel n) <= fuel)%nat.
Proof.
  revert n. induction fuel as [|fuel IH]; intros n; [reflexivity|].
  cbn [varint]. destruct (n <? 128); cbn [length]; [lia|].
  specialize (IH (Z.shiftr n 7)). lia.
Qed.

End ReferenceWire.

Section ReferencePerson.
Import Validation Reference.

Lemma person_validates : validateSchema person 0%nat = Ok tt.
Proof. vm_compute. reflexivity. Qed.

Lemma person_parses : zod_parse platform person 0%nat alice = Ok (VObject aliceProps).
Proof. vm_compute. reflexivity. Qed.

Lemma person_type :
  Converter.zodToProtobuf platform person 0%nat "EncodedState" = Ok Examples.personType.
Proof. vm_compute. reflexivity. Qed.

(** The fields of the schema do not look at the version field of the
    object. *)
Lemma fromFields_person (x : value) :
  fromFields (tail Examples.personFields) (<[RESERVED_FIELD := x]> aliceProps)
  = Ok aliceProps.
Proof. vm_compute. reflexivity. Qed.

Lemma fromObject_person (v : Z) :
  fromObject Examples.personType (VObject (<[RESERVED_FIELD := VNumber v]> aliceProps))
  = Ok (<[RESERVED_FIELD := VNumber (toUint32 v)]> aliceProps).
Proof.
  change (fromObject Examples.personType (VObject ?props))
    with (others ← fromFields (tail Examples.personFields) props;
          match props !! RESERVED_FIELD with
          | None | Some VUndefined | Some VNull => Ok others
          | Some w =>
            converted ← convertProperty "uint32" w;
            Ok (<[RESERVED_FIELD := converted]> others)
          end).
  rewrite fromFields_person. cbn [mbind result_bind bind].
  rewrite lookup_insert_eq. reflexivity.
Qed.

Lemma encodeFields_person (x : value) :
  encodeFields (tail Examples.personFields) (<[RESERVED_FIELD := x]> aliceProps)
  = Ok aliceWire.
Proof. vm_compute. reflexivity. Qed.

Lemma encode_person (u : Z) :
  0 <= u < 2 ^ 32 ->
  encode Examples.personType (<[RESERVED_FIELD := VNumber u]> aliceProps)
  = Ok (u8 8 :: writeVarint u ++ aliceWire).
Proof.
  intros Hu.
  change (encode Examples.personType ?message)
    with (others ← encodeFields (tail Examples.personFields) message;
          match message !! RESERVED_FIELD with
          | Some w => written ← encodeField 1 w; Ok (written ++ others)
          | None => Ok others
          end).
  rewrite encodeFields_person. cbn [mbind result_bind bind].
  rewrite lookup_insert_eq. cbn [encodeField mbind result_bind bind].
  rewrite (Z.mod_small u (2 ^ 64)) by lia.
  reflexivity.
Qed.

Lemma decodeFields_person (x : value) (fuel : nat) :
  decodeFields (S (S fuel)) Examples.personFields aliceWire (<[RESERVED_FIELD := x]> ∅)
  = Ok (<[RESERVED_FIELD := x]> aliceProps).
Proof. destruct fuel; vm_compute; reflexivity. Qed.

Lemma readField_uint32 (input : Uint8Array) :
  readField "uint32" input
  = match readVarint 10 input with
    | Some (n, rest) => Ok (VNumber (toUint32 n), rest)
    | None => Throw indexOutOfRange
    end.
Proof. reflexivity. Qed.

Lemma decode_person (u : Z) :
  0 <= u < 2 ^ 32 ->
  decode Examples.personType (u8 8 :: writeVarint u ++ aliceWire)
  = Ok (<[RESERVED_FIELD := VNumber u]> aliceProps).
Proof.
  intros Hu. unfold decode. cbn [length].
  change (decodeFields (S ?fuel) (Protobuf.typeFields Examples.personType) (u8 8 :: ?rest) ∅)
    with ('(w, rest') ← readField "uint32" rest;
          decodeFields fuel Examples.personFields rest' (<[RESERVED_FIELD := w]> ∅)).
  rewrite readField_uint32, readVarint_writeVarint by lia.
  cbn [mbind result_bind bind].
  rewrite length_app, Nat.add_comm. cbn [aliceWire length Nat.add].
  rewrite decodeFields_person. unfold toUint32, two32. rewrite Z.mod_small by lia.
  reflexivity.
Qed.

(** A stream of one stored block is eleven bytes longer than its data. *)
Lemma deflateSync_length (data compressed : Uint8Array) :
  deflateSync data = Ok compressed -> length compressed = (length data + 11)%nat.
Proof.
  unfold deflateSync. destruct (65535 <? _); [discriminate|].
  intros H. injection H as <-. cbn [app length]. rewrite !length_app.
  cbn [length bigEndian32]. lia.
Qed.

Lemma deflateSync_returns (data : Uint8Array) :
  Z.of_nat (length data) <= 65535 -> exists compressed, deflateSync data = Ok compressed.
Proof.
  intros H. unfold deflateSync.
  destruct (Z.ltb_spec 65535 (Z.of_nat (length data))); [lia|]. eexists. reflexivity.
Qed.

(** Alice at any version but 1 on the reference platform: the wire bytes
    start with the version field, and the version comes back modulo 2^32. *)
Lemma alice_embedded (v : Z) :
  v <> 1 ->
  exists token,
    Encoder.encode platform person alice 0%nat (Some v) = Ok token
    /\ Base64Url.decodeBase64Url token
       = Ok (x00 :: u8 8 :: writeVarint (v mod 2 ^ 32) ++ aliceWire)
    /\ Decoder.decodeWithVersion platform person token 0%nat
       = Ok (alice, v mod 2 ^ 32).
Proof.
  intros Hne.
  assert (Hu : 0 <= v mod 2 ^ 32 < 2 ^ 32) by (apply Z.mod_pos_bound; lia).
  set (binary := u8 8 :: writeVarint (v mod 2 ^ 32) ++ aliceWire).
  assert (Hlen : Z.of_nat (length binary) <= 65535).
  { unfold binary. cbn [length]. rewrite length_app.
    pose proof (length_varint 10 (v mod 2 ^ 32)) as Hl.
    unfold writeVarint. cbn [aliceWire length]. lia. }
  destruct (deflateSync_returns binary Hlen) as [compressed Hc].
  pose proof (deflateSync_length _ _ Hc) as Hlonger.
  exists (Base64Url.encodeBase64Url (x00 :: binary)).
  assert (Henc : Encoder.encode platform person alice 0%nat (Some v)
                 = Ok (Base64Url.encodeBase64Url (x00 :: binary))).
  { unfold Encoder.encode. change (default 1 (Some v)) with v. apply encodeInternal_Ok.
    exists (Build_EncodeRun platform aliceProps Examples.personType
              (<[RESERVED_FIELD := VNumber (v mod 2 ^ 32)]> aliceProps)
              binary compressed).
    split.
    - unfold encodeRuns.
      cbn [run_validated run_pbType run_message run_binary run_compressed].
      split; [exact person_validates|]. split; [exact person_parses|].
      split; [exact person_type|].
      split.
      { unfold Encoder.withVersion. destruct (Z.eqb_spec v 1); [contradiction|].
        exact (fromObject_person v). }
      split; [exact (encode_person _ Hu)|].
      apply compress_Ok. exact Hc.
    - unfold tokenOf, Encoder.withMarker.
      cbn [run_binary run_compressed].
      destruct (Nat.ltb_spec (length compressed) (length binary)); [lia|]. reflexivity. }
  split; [exact Henc|].
  split; [apply decodeBase64Url_encodeBase64Url|].
  unfold Decoder.decodeWithVersion.
  rewrite (decodeInternal_fromWire platform person _ 0%nat (x00 :: binary) binary
             person_validates (decodeBase64Url_encodeBase64Url _) eq_refl).
  unfold fromWire. rewrite (bind_step _ _ _ person_type).
  change (Type_decode platform Examples.personType binary)
    with (decode Examples.personType binary).
  unfold binary. rewrite (decode_person _ Hu).
  cbn [try_catch mbind result_bind bind].
  change (Type_toObject platform Examples.personType ?m) with m.
  rewrite (extractVersion_number _ _ (lookup_insert_eq _ _ _)).
  cbn [mbind result_bind bind].
  rewrite delete_insert_id by (vm_compute; reflexivity).
  change (VObject aliceProps) with alice.
  rewrite (bind_step _ _ _ person_parses). reflexivity.
Qed.

End ReferencePerson.

(** C5, as the code has it.  On every value and schema on which encode
    returns a token: at version 1 the object handed to the serializer is
    the validated object itself, which has a property of the reserved name
    only if validation's output has one; at any other version v it is the
    validated object with the reserved field set to v;
    and decodeWithVersion on the token returns exactly v (at v = 1 provided
    validation's output has no property of the reserved name) whenever
    inflate gives back the wire bytes where the compressed form was sent,
    the wire bytes decode to the object that was serialized, and validation
    returns on that object without its version field.  Decoding a payload
    whose object has no version field yields version 1.  On the reference
    wire format, where the version field is a uint32, the token of Alice at
    version v carries no version field for v = 1 and the field with
    v mod 2^32 otherwise, and decodeWithVersion returns v mod 2^32: exactly
    v when 0 <= v < 2^32, and only then. *)
Theorem version_omission (P : Platform) (schemas : Validation.Schemas)
  (schema : Validation.ZodType) :
  (forall data version token,
     Encoder.encode P schemas data schema (Some version) = Ok token ->
     exists run serialized,
       encodeRuns P schemas data schema version run
       /\ token = tokenOf run
       /\ Type_fromObject P (run_pbType run) (VObject serialized) = Ok (run_message run)
       /\ (version = 1 -> serialized = run_validated run)
       /\ (version <> 1 ->
           serialized
           = <[Validation.RESERVED_FIELD := VNumber version]> (run_validated run))
       /\ (forall validated,
             carriedBack P version run ->
             (version = 1 -> run_validated run !! Validation.RESERVED_FIELD = None) ->
             zod_parse P schemas schema
               (VObject (delete Validation.RESERVED_FIELD (run_validated run)))
             = Ok validated ->
             Decoder.decodeWithVersion P schemas token schema = Ok (validated, version)))
  /\ (forall encoded bytes binary pbType decoded,
        Validation.validateSchema schemas schema = Ok tt ->
        Base64Url.decodeBase64Url encoded = Ok bytes ->
        Decoder.unmark P bytes = Ok binary ->
        Converter.zodToProtobuf P schemas schema "EncodedState" = Ok pbType ->
        Type_decode P pbType binary = Ok decoded ->
        Type_toObject P pbType decoded !! Validation.RESERVED_FIELD = None ->
        Decoder.decodeWithVersion P schemas encoded schema
        = (validated ← zod_parse P schemas schema
                         (VObject (Type_toObject P pbType decoded));
           Ok (validated, 1)))
  /\ (forall v : Z,
        exists token,
          Encoder.encode Reference.platform Reference.person Reference.alice 0%nat (Some v)
          = Ok token
          /\ Base64Url.decodeBase64Url token
             = Ok (x00 :: (if v =? 1 then []
                           else u8 8 :: Reference.writeVarint (v mod 2 ^ 32))
                          ++ Reference.aliceWire)
          /\ Decoder.decodeWithVersion Reference.platform Reference.person token 0%nat
             = Ok (Reference.alice, v mod 2 ^ 32)
          /\ (Decoder.decodeWithVersion Reference.platform Reference.person token 0%nat
              = Ok (Reference.alice, v)
              <-> 0 <= v < 2 ^ 32)).
Proof.
  split; [|split].
  - intros data version token H. unfold Encoder.encode in H.
    change (default 1 (Some version)) with version in H.
    apply encodeInternal_Ok in H as (run & Hrun & ->).
    exists run, (Encoder.withVersion (run_validated run) version).
    split; [exact Hrun|]. split; [reflexivity|].
    split; [apply Hrun|].
    split; [intros ->; reflexivity|].
    split.
    { intros Hne. unfold Encoder.withVersion.
      destruct (Z.eqb_spec version 1); [contradiction|reflexivity]. }
    intros validated Hcarried Hno Hparse.
    exact (decodeInternal_carried P schemas data schema version run validated
             Hrun Hcarried Hno Hparse).
  - intros encoded bytes binary pbType decoded Hv Hb Hu HT Hd Hno.
    unfold Decoder.decodeWithVersion.
    rewrite (decodeInternal_fromWire P schemas encoded schema bytes binary Hv Hb Hu).
    unfold fromWire. rewrite (bind_step _ _ _ HT), Hd.
    cbn [try_catch mbind result_bind bind].
    rewrite (extractVersion_absent _ Hno). reflexivity.
  - intros v.
    assert (H : exists token,
      Encoder.encode Reference.platform Reference.person Reference.alice 0%nat (Some v)
      = Ok token
      /\ Base64Url.decodeBase64Url token
         = Ok (x00 :: (if v =? 1 then []
                       else u8 8 :: Reference.writeVarint (v mod 2 ^ 32))
                      ++ Reference.aliceWire)
      /\ Decoder.decodeWithVersion Reference.platform Reference.person token 0%nat
         = Ok (Reference.alice, v mod 2 ^ 32)).
    { destruct (Z.eqb_spec v 1) as [->|Hne].
      - exists "ABIFQWxpY2UYHg". repeat split; vm_compute; reflexivity.
      - exact (alice_embedded v Hne). }
    destruct H as (token & Henc & Hb & Hdec). exists token.
    split; [exact Henc|]. split; [exact Hb|]. split; [exact Hdec|].
    rewrite Hdec. split.
    + intros E. injection E as E. rewrite <- E. apply Z.mod_pos_bound. lia.
    + intros Hr. rewrite Z.mod_small by exact Hr. reflexivity.
Qed.

(** C4, as the code has it: the framing operation refuses every version
    outside 0..1023, 1024 and -1 among them, with a fatal error and for
    every payload and flag combination; the public encode entry point makes
    no check of the range of the version: it returns exactly when
    validation, the wire-schema builder, the serializer and the compressor
    return on the data carrying the version. *)
Theorem version_range (payload : Uint8Array) (options : Format.HeaderOptions)
  (P : Platform) (schemas : Validation.Schemas) (data : value)
  (schema : Validation.ZodType) (version : Z) (token : string) :
  (version < 0 \/ 1023 < version ->
   Format.encodeWithHeader payload version options
   = Throw (PlainError "Version must be 0-1023"))
  /\ Format.encodeWithHeader payload 1024 options
     = Throw (PlainError "Version must be 0-1023")
  /\ Format.encodeWithHeader payload (-1) options
     = Throw (PlainError "Version must be 0-1023")
  /\ (Encoder.encode P schemas data schema (Some version) = Ok token <->
      exists run, encodeRuns P schemas data schema version run /\ token = tokenOf run).
Proof.
  split; [apply encodeWithHeader_rejects|].
  split; [reflexivity|]. split; [reflexivity|].
  unfold Encoder.encode. cbn [default]. apply encodeInternal_Ok.
Qed.


(** ** The package on the reference platform *)

Section ReferenceRuns.
Import Validation Reference.

Lemma fromObject_alice :
  fromObject Examples.personType (VObject aliceProps) = Ok aliceProps.
Proof. vm_compute. reflexivity. Qed.

Lemma encode_alice : encode Examples.personType aliceProps = Ok aliceWire.
Proof. vm_compute. reflexivity. Qed.

Lemma decode_alice : decode Examples.personType aliceWire = Ok aliceProps.
Proof. vm_compute. reflexivity. Qed.

Lemma alice_unversioned : aliceProps !! RESERVED_FIELD = None.
Proof. vm_compute. reflexivity. Qed.

(** What a run of encode on Alice under the person schema went through, at
    a version the version field holds. *)
Lemma alice_run (version : Z) (run : EncodeRun platform) :
  0 <= version < 2 ^ 32 ->
  encodeRuns platform person alice 0%nat version run ->
  run_validated run = aliceProps
  /\ run_pbType run = Examples.personType
  /\ decode Examples.personType (run_binary run)
     = Ok (Encoder.withVersion aliceProps version)
  /\ (length (run_binary run) <= length (run_compressed run))%nat.
Proof.
  intros Hr. destruct run as [validated T m b c]. intros (_ & Hp & HT & Hm & Hb & Hc).
  cbn [run_validated run_pbType run_message run_binary run_compressed] in *.
  rewrite person_parses in Hp. injection Hp as <-.
  rewrite person_type in HT. injection HT as <-.
  apply compress_Ok in Hc. change (deflate platform b) with (deflateSync b) in Hc.
  apply deflateSync_length in Hc.
  split; [reflexivity|]. split; [reflexivity|]. split; [|lia].
  change (Type_fromObject platform Examples.personType ?o)
    with (fromObject Examples.personType o) in Hm.
  change (Type_encode platform Examples.personType ?o)
    with (encode Examples.personType o) in Hb.
  unfold Encoder.withVersion in *. destruct (Z.eqb_spec version 1) as [->|Hne].
  - rewrite fromObject_alice in Hm. injection Hm as <-.
    rewrite encode_alice in Hb. injection Hb as <-. exact decode_alice.
  - rewrite fromObject_person in Hm. injection Hm as <-.
    unfold toUint32, two32 in Hb. rewrite Z.mod_small in Hb by exact Hr.
    rewrite (encode_person _ Hr) in Hb. injection Hb as <-.
    exact (decode_person _ Hr).
Qed.

(** On the reference platform the libraries carry every run of encode on
    Alice back. *)
Lemma alice_carried (version : Z) :
  0 <= version < 2 ^ 32 ->
  forall run : EncodeRun platform,
  encodeRuns platform person alice 0%nat version run ->
  carriedBack platform version run.
Proof.
  intros Hr run Hrun.
  destruct (alice_run version run Hr Hrun) as (Hv & HT & Hd & Hlen).
  split; [intros Hlt; lia|].
  rewrite Hv, HT.
  exists (Encoder.withVersion aliceProps version). split; [exact Hd|reflexivity].
Qed.

End ReferenceRuns.

(** On the reference platform every run of encode on Alice under the person
    schema is inverted by decoding. *)
Lemma alice_inverts (version : Z) :
  version = 1 \/ version = 5 ->
  forall run : EncodeRun Reference.platform,
  encodeRuns Reference.platform Reference.person Reference.alice 0%nat version run ->
  inverts Reference.platform Reference.person 0%nat version run.
Proof.
  intros Hversion run Hrun.
  assert (Hr : 0 <= version < 2 ^ 32) by (destruct Hversion as [-> | ->]; lia).
  destruct (alice_run version run Hr Hrun) as (Hv & HT & Hd & Hlen).
  split; [intros Hlt; lia|].
  rewrite Hv, HT.
  split; [exists (Encoder.withVersion Reference.aliceProps version);
          split; [exact Hd|reflexivity]|].
  split; [exact alice_unversioned|exact person_parses].
Defined.

Lemma alice_lacks : lacksProperty Reference.alice Validation.RESERVED_FIELD.
Proof. intros props H. injection H as <-. exact alice_unversioned. Qed.



(** Three more ways a value does not come back, on the reference platform:
    validation strips a key the schema does not have; a union is given the
    wire type of its first option, so the number 42 under
    [z.union([z.string(), z.number().int()])] comes back as the string "42";
    an integer past 32 bits wraps in the int32 field. *)
Example stripped_key :
  (token ← Encoder.encode Reference.platform Reference.person
             (VObject (list_to_map [("name", VString "Alice"); ("age", VNumber 30);
                                    ("nick", VString "Al")])) 0%nat None;
   Decoder.decode Reference.platform Reference.person token 0%nat)
  = Ok Reference.alice.
Proof. vm_compute. reflexivity. Qed.

Example union_first_option :
  zod_parse Reference.platform Reference.tagged 0%nat
    (VObject (list_to_map [("id", VNumber 42)]))
  = Ok (VObject (list_to_map [("id", VNumber 42)]))
  /\ (token ← Encoder.encode Reference.platform Reference.tagged
                (VObject (list_to_map [("id", VNumber 42)])) 0%nat None;
      Decoder.decode Reference.platform Reference.tagged token 0%nat)
     = Ok (VObject (list_to_map [("id", VString "42")])).
Proof. split; vm_compute; reflexivity. Qed.

Example int32_wraps :
  (token ← Encoder.encode Reference.platform Reference.person
             (VObject (list_to_map [("name", VString "Alice");
                                    ("age", VNumber 2147483648)])) 0%nat None;
   Decoder.decode Reference.platform Reference.person token 0%nat)
  = Ok (VObject (list_to_map [("name", VString "Alice");
                              ("age", VNumber (-2147483648))])).
Proof. vm_compute. reflexivity. Qed.

(** A fourth way, and why the value must not have a property of the
    reserved name: under [z.object({ name: z.string() }).passthrough()] the
    value [{ name: 'x', _encodedStateVersion: 7 }] is returned by validation
    as it is; encode at version 1 serializes it with its property as the
    version field, and decode returns [{ name: 'x' }], at version 7. *)
Example reserved_key_embedded :
  zod_parse Reference.passthrough Reference.named 0%nat Reference.stamped
  = Ok Reference.stamped
  /\ Encoder.encode Reference.passthrough Reference.named Reference.stamped 0%nat None
     = Ok "AAgHEgF4"
  /\ Base64Url.decodeBase64Url "AAgHEgF4"
     = Ok (x00 :: [u8 8; u8 7; u8 0x12; u8 1; u8 120])
  /\ Decoder.decodeWithVersion Reference.passthrough Reference.named "AAgHEgF4" 0%nat
     = Ok (VObject (list_to_map [("name", VString "x")]), 7)
  /\ Decoder.decode Reference.passthrough Reference.named "AAgHEgF4" 0%nat
     = Ok (VObject (list_to_map [("name", VString "x")])).
Proof. repeat split; vm_compute; reflexivity. Qed.

(** The builder's refusal does not depend on the libraries: wherever
    validation accepts the pair, encode throws. *)
Lemma paired_unsupported (P : Platform) (validated : gmap string value) :
  zod_parse P Reference.paired 0%nat Reference.pair = Ok (VObject validated) ->
  Encoder.encode P Reference.paired Reference.pair 0%nat None
  = Throw (PlainError "Unsupported Zod type: ZodTuple").
Proof.
  intros Hp. unfold Encoder.encode, Encoder.encodeInternal.
  rewrite (bind_step _ _ tt (eq_refl : Validation.validateSchema Reference.paired 0%nat = Ok tt)).
  rewrite (bind_step _ _ _ Hp). reflexivity.
Qed.

(** C5 on Alice at version 5: the token of the run decodes to Alice at
    version 5. *)
Lemma version_omission_witness :
  Encoder.encode Reference.platform Reference.person Reference.alice 0%nat (Some 5)
    = Ok "AAgFEgVBbGljZRge"
  /\ Decoder.decodeWithVersion Reference.platform Reference.person
       "AAgFEgVBbGljZRge" 0%nat
     = Ok (Reference.alice, 5).
Proof.
  assert (Henc : Encoder.encode Reference.platform Reference.person
                   Reference.alice 0%nat (Some 5) = Ok "AAgFEgVBbGljZRge")
    by (vm_compute; reflexivity).
  split; [exact Henc|].
  destruct (version_omission Reference.platform Reference.person 0%nat) as [Hruns _].
  destruct (Hruns Reference.alice 5 "AAgFEgVBbGljZRge" Henc)
    as (run & serialized & Hrun & _ & _ & _ & _ & Hdec).
  assert (Hr : 0 <= 5 < 2 ^ 32) by lia.
  apply (Hdec Reference.alice (alice_carried 5 Hr run Hrun)).
  - intros H. discriminate H.
  - destruct (alice_run 5 run Hr Hrun) as (-> & _).
    vm_compute. reflexivity.
Defined.

(** Against C5 as stated.  Version -1 is not 1, encode embeds it and
    returns a token, and decodeWithVersion on that token returns 4294967295,
    the value the unsigned 32-bit version field holds for it.  And under
    [z.object({ name: z.string() }).passthrough()] the value
    [{ name: 'x', _encodedStateVersion: 7 }] validates, and the payload of
    its token at version 1 starts with the version field (tag 8), holding
    7. *)
Lemma version_omission_counterexample :
  Encoder.encode Reference.platform Reference.person Reference.alice 0%nat (Some (-1))
    = Ok "AAj_____DxIFQWxpY2UYHg"
  /\ Decoder.decodeWithVersion Reference.platform Reference.person
       "AAj_____DxIFQWxpY2UYHg" 0%nat
     = Ok (Reference.alice, 4294967295)
  /\ zod_parse Reference.passthrough Reference.named 0%nat Reference.stamped
     = Ok Reference.stamped
  /\ Encoder.encode Reference.passthrough Reference.named Reference.stamped 0%nat (Some 1)
     = Ok "AAgHEgF4"
  /\ Base64Url.decodeBase64Url "AAgHEgF4"
     = Ok (x00 :: [u8 8; u8 7; u8 0x12; u8 1; u8 120])
  /\ Decoder.decodeWithVersion Reference.passthrough Reference.named "AAgHEgF4" 0%nat
     = Ok (VObject (list_to_map [("name", VString "x")]), 7).
Proof. repeat split; vm_compute; reflexivity. Qed.

(** Against C4 as stated: the public encode entry point returns a token at
    version 1024, and one at version -1; the versions come back from
    getVersion as 1024 and 4294967295. *)
Lemma version_range_counterexample :
  Encoder.encode Reference.platform Reference.person Reference.alice 0%nat (Some 1024)
    = Ok "AAiACBIFQWxpY2UYHg"
  /\ Encoder.encode Reference.platform Reference.person Reference.alice 0%nat (Some (-1))
     = Ok "AAj_____DxIFQWxpY2UYHg"
  /\ Migrations.getVersion Reference.platform Reference.person "AAiACBIFQWxpY2UYHg" 0%nat
     = 1024
  /\ Migrations.getVersion Reference.platform Reference.person
       "AAj_____DxIFQWxpY2UYHg" 0%nat
     = 4294967295.
Proof. repeat split; vm_compute; reflexivity. Qed.

(** ** The migration engine (migrations.ts) *)

Section Engine.
Import Validation Encoder Decoder Migrations.
Context (P : Platform) (schemas : Schemas).
Context (currentVersion targetVersion : Z) (migrations : list (option Migration)).

Lemma migrationAt_bounds (migrationIndex : Z) (m : Migration) :
  migrationAt migrations migrationIndex = Some m ->
  0 <= migrationIndex < Z.of_nat (length migrations).
Proof.
  unfold migrationAt. destruct (Z.ltb_spec migrationIndex 0); [discriminate|].
  destruct (migrations !! Z.to_nat migrationIndex) as [o|] eqn:E; [|discriminate].
  intros _. apply lookup_lt_Some in E. lia.
Qed.

(** One round of the upgrade loop over a hop that is there. *)
Lemma upgrade_step (steps : nat) (v : Z) (data : value) (m : Migration) :
  migrationAt migrations (v - 1) = Some m ->
  upgrade currentVersion targetVersion migrations (S steps) v data
  = upgrade currentVersion targetVersion migrations steps (v + 1) (up m data).
Proof.
  intros H. cbn [upgrade]. pose proof (migrationAt_bounds _ _ H) as Hb.
  rewrite H. cbn [truthy negb].
  destruct (Z.geb_spec (v - 1) (Z.of_nat (length migrations))); [lia|]. reflexivity.
Qed.

(** One round of the upgrade loop over a hop that is missing. *)
Lemma upgrade_stop (steps : nat) (v : Z) (data : value) :
  migrationAt migrations (v - 1) = None ->
  upgrade currentVersion targetVersion migrations (S steps) v data
  = Throw (missingUpgrade currentVersion targetVersion v).
Proof.
  intros H. cbn [upgrade]. rewrite H. cbn [truthy negb].
  rewrite orb_true_r. reflexivity.
Qed.

Lemma downgrade_step (steps : nat) (v : Z) (data : value) (m : Migration) :
  migrationAt migrations (v - 2) = Some m ->
  downgrade currentVersion targetVersion migrations (S steps) v data
  = downgrade currentVersion targetVersion migrations steps (v - 1) (down m data).
Proof.
  intros H. cbn [downgrade]. pose proof (migrationAt_bounds _ _ H) as Hb.
  rewrite H. cbn [truthy negb].
  destruct (Z.ltb_spec (v - 2) 0); [lia|].
  destruct (Z.geb_spec (v - 2) (Z.of_nat (length migrations))); [lia|]. reflexivity.
Qed.

Lemma downgrade_stop (steps : nat) (v : Z) (data : value) :
  migrationAt migrations (v - 2) = None ->
  downgrade currentVersion targetVersion migrations (S steps) v data
  = Throw (missingDowngrade currentVersion targetVersion v).
Proof.
  intros H. cbn [downgrade]. rewrite H. cbn [truthy negb].
  rewrite orb_true_r. reflexivity.
Qed.

(** The upgrade loop over hops that are all there applies their [up]
    functions in increasing order of version. *)
Lemma upgrade_chain (hops : list Migration) :
  forall (v : Z) (data : value),
  (forall (i : nat) (m : Migration), hops !! i = Some m ->
     migrationAt migrations (v + Z.of_nat i - 1) = Some m) ->
  upgrade currentVersion targetVersion migrations (length hops) v data
  = Ok (foldl (fun d m => up m d) data hops).
Proof.
  induction hops as [|m hops IH]; intros v data Hhops; [reflexivity|].
  cbn [length foldl].
  rewrite (upgrade_step _ v data m).
  - apply IH. intros i m' Hi.
    replace (v + 1 + Z.of_nat i - 1) with (v + Z.of_nat (S i) - 1) by lia.
    apply Hhops. exact Hi.
  - replace (v - 1) with (v + Z.of_nat 0 - 1) by lia. apply Hhops. reflexivity.
Qed.

(** The downgrade loop over hops that are all there applies their [down]
    functions in decreasing order of version. *)
Lemma downgrade_chain (hops : list Migration) :
  forall (v : Z) (data : value),
  (forall (i : nat) (m : Migration), hops !! i = Some m ->
     migrationAt migrations (v - Z.of_nat i - 2) = Some m) ->
  downgrade currentVersion targetVersion migrations (length hops) v data
  = Ok (foldl (fun d m => down m d) data hops).
Proof.
  induction hops as [|m hops IH]; intros v data Hhops; [reflexivity|].
  cbn [length foldl].
  rewrite (downgrade_step _ v data m).
  - apply IH. intros i m' Hi.
    replace (v - 1 - Z.of_nat i - 2) with (v - Z.of_nat (S i) - 2) by lia.
    apply Hhops. exact Hi.
  - replace (v - 2) with (v - Z.of_nat 0 - 2) by lia. apply Hhops. reflexivity.
Qed.

(** The upgrade loop stops at the first hop that is missing, with the error
    that names it. *)
Lemma upgrade_missing (steps : nat) :
  forall (v missing : Z) (data : value),
  v <= missing < v + Z.of_nat steps ->
  (forall w, v <= w < missing -> is_Some (migrationAt migrations (w - 1))) ->
  migrationAt migrations (missing - 1) = None ->
  upgrade currentVersion targetVersion migrations steps v data
  = Throw (missingUpgrade currentVersion targetVersion missing).
Proof.
  induction steps as [|steps IH]; intros v missing data Hrange Hbefore Hnone; [lia|].
  destruct (Z.eq_dec v missing) as [->|Hne]; [apply upgrade_stop, Hnone|].
  destruct (Hbefore v) as [m Hm]; [lia|].
  rewrite (upgrade_step _ v data m Hm).
  apply IH; [lia| |exact Hnone]. intros w Hw. apply Hbefore. lia.
Qed.

Lemma downgrade_missing (steps : nat) :
  forall (v missing : Z) (data : value),
  v - Z.of_nat steps < missing <= v ->
  (forall w, missing < w <= v -> is_Some (migrationAt migrations (w - 2))) ->
  migrationAt migrations (missing - 2) = None ->
  downgrade currentVersion targetVersion migrations steps v data
  = Throw (missingDowngrade currentVersion targetVersion missing).
Proof.
  induction steps as [|steps IH]; intros v missing data Hrange Hbefore Hnone; [lia|].
  destruct (Z.eq_dec v missing) as [->|Hne]; [apply downgrade_stop, Hnone|].
  destruct (Hbefore v) as [m Hm]; [lia|].
  rewrite (downgrade_step _ v data m Hm).
  apply IH; [lia| |exact Hnone]. intros w Hw. apply Hbefore. lia.
Qed.

(** The upgrade loop either finds every hop or throws the error of a
    missing one. *)
Lemma upgrade_result (steps : nat) :
  forall (v : Z) (data : value),
  (exists r, upgrade currentVersion targetVersion migrations steps v data = Ok r
     /\ forall w, v <= w < v + Z.of_nat steps -> is_Some (migrationAt migrations (w - 1)))
  \/ (exists w, v <= w < v + Z.of_nat steps
        /\ migrationAt migrations (w - 1) = None
        /\ upgrade currentVersion targetVersion migrations steps v data
           = Throw (missingUpgrade currentVersion targetVersion w)).
Proof.
  induction steps as [|steps IH]; intros v data.
  - left. exists data. split; [reflexivity|]. intros w Hw. lia.
  - destruct (migrationAt migrations (v - 1)) as [m|] eqn:Hm.
    + rewrite (upgrade_step _ v data m Hm).
      destruct (IH (v + 1) (up m data)) as [(r & Hr & Hall)|(w & Hw & Hnone & Hthrow)].
      * left. exists r. split; [exact Hr|]. intros w Hw.
        destruct (Z.eq_dec w v) as [->|Hne]; [rewrite Hm; eexists; reflexivity|].
        apply Hall. lia.
      * right. exists w. split; [lia|]. split; assumption.
    + right. exists v. split; [lia|]. split; [exact Hm|]. apply upgrade_stop, Hm.
Qed.

Lemma downgrade_result (steps : nat) :
  forall (v : Z) (data : value),
  (exists r, downgrade currentVersion targetVersion migrations steps v data = Ok r
     /\ forall w, v - Z.of_nat steps < w <= v -> is_Some (migrationAt migrations (w - 2)))
  \/ (exists w, v - Z.of_nat steps < w <= v
        /\ migrationAt migrations (w - 2) = None
        /\ downgrade currentVersion targetVersion migrations steps v data
           = Throw (missingDowngrade currentVersion targetVersion w)).
Proof.
  induction steps as [|steps IH]; intros v data.
  - left. exists data. split; [reflexivity|]. intros w Hw. lia.
  - destruct (migrationAt migrations (v - 2)) as [m|] eqn:Hm.
    + rewrite (downgrade_step _ v data m Hm).
      destruct (IH (v - 1) (down m data)) as [(r & Hr & Hall)|(w & Hw & Hnone & Hthrow)].
      * left. exists r. split; [exact Hr|]. intros w Hw.
        destruct (Z.eq_dec w v) as [->|Hne]; [rewrite Hm; eexists; reflexivity|].
        apply Hall. lia.
      * right. exists w. split; [lia|]. split; assumption.
    + right. exists v. split; [lia|]. split; [exact Hm|]. apply downgrade_stop, Hm.
Qed.

End Engine.

Section Apply.
Import Validation Encoder Decoder Migrations.
Context (P : Platform) (schemas : Schemas).
Context (encoded : string) (sourceSchema targetSchema : ZodType).
Context (decoded : value) (currentVersion : Z).
Hypothesis Hdecoded :
  decodeWithVersion P schemas encoded sourceSchema = Ok (decoded, currentVersion).

(** [applyMigrations] once the token is decoded. *)
Lemma applyMigrations_decoded (targetVersion : Z) (migrations : list (option Migration)) :
  applyMigrations P schemas encoded sourceSchema targetSchema targetVersion migrations
  = if currentVersion =? targetVersion then
      encode P schemas decoded targetSchema (Some targetVersion)
    else
      data ←
        (if currentVersion <? targetVersion then
           upgrade currentVersion targetVersion migrations
             (Z.to_nat (targetVersion - currentVersion)) currentVersion decoded
         else
           downgrade currentVersion targetVersion migrations
             (Z.to_nat (currentVersion - targetVersion)) currentVersion decoded);
      encode P schemas data targetSchema (Some targetVersion).
Proof.
  unfold applyMigrations, extractVersionAndData. rewrite Hdecoded. reflexivity.
Qed.

Lemma applyMigrations_up (targetVersion : Z) (migrations : list (option Migration))
  (hops : list Migration) :
  currentVersion < targetVersion ->
  length hops = Z.to_nat (targetVersion - currentVersion) ->
  (forall (i : nat) (m : Migration), hops !! i = Some m ->
     migrationAt migrations (currentVersion + Z.of_nat i - 1) = Some m) ->
  applyMigrations P schemas encoded sourceSchema targetSchema targetVersion migrations
  = encode P schemas (foldl (fun d m => up m d) decoded hops) targetSchema
      (Some targetVersion).
Proof.
  intros Hlt Hlen Hhops. rewrite applyMigrations_decoded.
  destruct (Z.eqb_spec currentVersion targetVersion); [lia|].
  destruct (Z.ltb_spec currentVersion targetVersion); [|lia].
  rewrite <- Hlen, (upgrade_chain _ _ _ hops _ _ Hhops). reflexivity.
Qed.

Lemma applyMigrations_down (targetVersion : Z) (migrations : list (option Migration))
  (hops : list Migration) :
  targetVersion < currentVersion ->
  length hops = Z.to_nat (currentVersion - targetVersion) ->
  (forall (i : nat) (m : Migration), hops !! i = Some m ->
     migrationAt migrations (currentVersion - Z.of_nat i - 2) = Some m) ->
  applyMigrations P schemas encoded sourceSchema targetSchema targetVersion migrations
  = encode P schemas (foldl (fun d m => down m d) decoded hops) targetSchema
      (Some targetVersion).
Proof.
  intros Hlt Hlen Hhops. rewrite applyMigrations_decoded.
  destruct (Z.eqb_spec currentVersion targetVersion); [lia|].
  destruct (Z.ltb_spec currentVersion targetVersion); [lia|].
  rewrite <- Hlen, (downgrade_chain _ _ _ hops _ _ Hhops). reflexivity.
Qed.

Lemma applyMigrations_same (migrations : list (option Migration)) :
  applyMigrations P schemas encoded sourceSchema targetSchema currentVersion migrations
  = encode P schemas decoded targetSchema (Some currentVersion).
Proof. rewrite applyMigrations_decoded, Z.eqb_refl. reflexivity. Qed.

Lemma applyMigrations_missing_up (targetVersion : Z)
  (migrations : list (option Migration)) (missing : Z) :
  currentVersion <= missing < targetVersion ->
  (forall w, currentVersion <= w < missing -> is_Some (migrationAt migrations (w - 1))) ->
  migrationAt migrations (missing - 1) = None ->
  applyMigrations P schemas encoded sourceSchema targetSchema targetVersion migrations
  = Throw (missingUpgrade currentVersion targetVersion missing).
Proof.
  intros Hrange Hbefore Hnone. rewrite applyMigrations_decoded.
  destruct (Z.eqb_spec currentVersion targetVersion); [lia|].
  destruct (Z.ltb_spec currentVersion targetVersion); [|lia].
  rewrite (upgrade_missing _ _ _ _ currentVersion missing decoded);
    [reflexivity|lia|exact Hbefore|exact Hnone].
Qed.

Lemma applyMigrations_missing_down (targetVersion : Z)
  (migrations : list (option Migration)) (missing : Z) :
  targetVersion < missing <= currentVersion ->
  (forall w, missing < w <= currentVersion -> is_Some (migrationAt migrations (w - 2))) ->
  migrationAt migrations (missing - 2) = None ->
  applyMigrations P schemas encoded sourceSchema targetSchema targetVersion migrations
  = Throw (missingDowngrade currentVersion targetVersion missing).
Proof.
  intros Hrange Hbefore Hnone. rewrite applyMigrations_decoded.
  destruct (Z.eqb_spec currentVersion targetVersion); [lia|].
  destruct (Z.ltb_spec currentVersion targetVersion); [lia|].
  rewrite (downgrade_missing _ _ _ _ currentVersion missing decoded);
    [reflexivity|lia|exact Hbefore|exact Hnone].
Qed.

Lemma applyMigrations_some_missing_up (targetVersion : Z)
  (migrations : list (option Migration)) :
  currentVersion < targetVersion ->
  (exists v, currentVersion <= v < targetVersion
             /\ migrationAt migrations (v - 1) = None) ->
  exists missing, currentVersion <= missing < targetVersion
    /\ migrationAt migrations (missing - 1) = None
    /\ applyMigrations P schemas encoded sourceSchema targetSchema targetVersion migrations
       = Throw (missingUpgrade currentVersion targetVersion missing).
Proof.
  intros Hlt (v & Hv & Hnone). rewrite applyMigrations_decoded.
  destruct (Z.eqb_spec currentVersion targetVersion); [lia|].
  destruct (Z.ltb_spec currentVersion targetVersion); [|lia].
  destruct (upgrade_result currentVersion targetVersion migrations
              (Z.to_nat (targetVersion - currentVersion)) currentVersion decoded)
    as [(r & _ & Hall)|(w & Hw & Hwnone & Hthrow)].
  - destruct (Hall v) as [m Hm]; [lia|]. congruence.
  - exists w. split; [lia|]. split; [exact Hwnone|]. rewrite Hthrow. reflexivity.
Qed.

Lemma applyMigrations_some_missing_down (targetVersion : Z)
  (migrations : list (option Migration)) :
  targetVersion < currentVersion ->
  (exists v, targetVersion < v <= currentVersion
             /\ migrationAt migrations (v - 2) = None) ->
  exists missing, targetVersion < missing <= currentVersion
    /\ migrationAt migrations (missing - 2) = None
    /\ applyMigrations P schemas encoded sourceSchema targetSchema targetVersion migrations
       = Throw (missingDowngrade currentVersion targetVersion missing).
Proof.
  intros Hlt (v & Hv & Hnone). rewrite applyMigrations_decoded.
  destruct (Z.eqb_spec currentVersion targetVersion); [lia|].
  destruct (Z.ltb_spec currentVersion targetVersion); [lia|].
  destruct (downgrade_result currentVersion targetVersion migrations
              (Z.to_nat (currentVersion - targetVersion)) currentVersion decoded)
    as [(r & _ & Hall)|(w & Hw & Hwnone & Hthrow)].
  - destruct (Hall v) as [m Hm]; [lia|]. congruence.
  - exists w. split; [lia|]. split; [exact Hwnone|]. rewrite Hthrow. reflexivity.
Qed.

End Apply.

(** C2: from a value at current version c to target version t, with every
    hop there: if c < t, applyMigrations applies migrations[v-1].up for
    v = c..t-1 in increasing order (so from 1 to 3 over [v1->v2, v2->v3] it
    applies the two up functions in sequence); if c > t, it applies
    migrations[v-2].down for v = c..t+1 in decreasing order (from 3 to 1,
    the two down functions in sequence); if c = t, no function is applied
    and the value is still validated against the target schema, by the
    encode that ends every case. *)
Theorem migration_chain (P : Platform) (schemas : Validation.Schemas)
  (encoded : string) (sourceSchema targetSchema : Validation.ZodType)
  (targetVersion : Z) (migrations : list (option Migrations.Migration))
  (decoded : value) (currentVersion : Z) :
  Decoder.decodeWithVersion P schemas encoded sourceSchema = Ok (decoded, currentVersion) ->
  let migrated :=
    Migrations.applyMigrations P schemas encoded sourceSchema targetSchema
      targetVersion migrations in
  let encodeAtTarget := fun data =>
    Encoder.encode P schemas data targetSchema (Some targetVersion) in
  (currentVersion < targetVersion ->
   forall hops : list Migrations.Migration,
     length hops = Z.to_nat (targetVersion - currentVersion) ->
     (forall (i : nat) (m : Migrations.Migration), hops !! i = Some m ->
        Migrations.migrationAt migrations (currentVersion + Z.of_nat i - 1) = Some m) ->
     migrated = encodeAtTarget (foldl (fun d m => Migrations.up m d) decoded hops))
  /\ (targetVersion < currentVersion ->
      forall hops : list Migrations.Migration,
        length hops = Z.to_nat (currentVersion - targetVersion) ->
        (forall (i : nat) (m : Migrations.Migration), hops !! i = Some m ->
           Migrations.migrationAt migrations (currentVersion - Z.of_nat i - 2) = Some m) ->
        migrated = encodeAtTarget (foldl (fun d m => Migrations.down m d) decoded hops))
  /\ (currentVersion = 1 -> targetVersion = 3 ->
      forall m1 m2, migrations = [Some m1; Some m2] ->
        migrated = encodeAtTarget (Migrations.up m2 (Migrations.up m1 decoded)))
  /\ (currentVersion = 3 -> targetVersion = 1 ->
      forall m1 m2, migrations = [Some m1; Some m2] ->
        migrated = encodeAtTarget (Migrations.down m1 (Migrations.down m2 decoded)))
  /\ (currentVersion = targetVersion ->
      migrated = encodeAtTarget decoded
      /\ (forall token, migrated = Ok token ->
            exists validated,
              zod_parse P schemas targetSchema decoded = Ok (VObject validated))
      /\ (forall e,
            Validation.validateSchema schemas targetSchema = Ok tt ->
            zod_parse P schemas targetSchema decoded = Throw e ->
            migrated = Throw e)).
Proof.
  intros Hdec migrated encodeAtTarget. subst migrated encodeAtTarget. cbv beta.
  split; [|split; [|split; [|split]]].
  - intros Hlt hops Hlen Hhops.
    exact (applyMigrations_up P schemas encoded sourceSchema targetSchema decoded
             currentVersion Hdec targetVersion migrations hops Hlt Hlen Hhops).
  - intros Hlt hops Hlen Hhops.
    exact (applyMigrations_down P schemas encoded sourceSchema targetSchema decoded
             currentVersion Hdec targetVersion migrations hops Hlt Hlen Hhops).
  - intros -> -> m1 m2 ->.
    apply (applyMigrations_up P schemas encoded sourceSchema targetSchema decoded
             1 Hdec 3 [Some m1; Some m2] [m1; m2]); [lia|reflexivity|].
    intros [|[|i]] m Hi; try discriminate; injection Hi as <-; reflexivity.
  - intros -> -> m1 m2 ->.
    apply (applyMigrations_down P schemas encoded sourceSchema targetSchema decoded
             3 Hdec 1 [Some m1; Some m2] [m2; m1]); [lia|reflexivity|].
    intros [|[|i]] m Hi; try discriminate; injection Hi as <-; reflexivity.
  - intros <-.
    pose proof (applyMigrations_same P schemas encoded sourceSchema targetSchema decoded
                  currentVersion Hdec migrations) as Hsame.
    split; [exact Hsame|]. rewrite Hsame. unfold Encoder.encode. cbn [default]. split.
    + intros token Htoken.
      apply encodeInternal_Ok in Htoken as (run & (_ & Hp & _) & _).
      exists (run_validated run). exact Hp.
    + intros e Hv Hp. unfold Encoder.encodeInternal.
      rewrite (bind_step _ _ _ Hv). apply bind_Throw, Hp.
Qed.

(** C2 on Alice's token at version 1, migrated to version 3 over the two
    reference migrations. *)
Lemma migration_chain_witness :
  Decoder.decodeWithVersion Reference.platform Reference.person "ABIFQWxpY2UYHg" 0%nat
    = Ok (Reference.alice, 1)
  /\ Migrations.applyMigrations Reference.platform Reference.person "ABIFQWxpY2UYHg"
       0%nat 0%nat 3
       [Some ReferenceMigrations.v1ToV2; Some ReferenceMigrations.v2ToV3]
     = Encoder.encode Reference.platform Reference.person
         (Migrations.up ReferenceMigrations.v2ToV3
            (Migrations.up ReferenceMigrations.v1ToV2 Reference.alice))
         0%nat (Some 3).
Proof.
  assert (Hdec : Decoder.decodeWithVersion Reference.platform Reference.person
                   "ABIFQWxpY2UYHg" 0%nat = Ok (Reference.alice, 1))
    by (vm_compute; reflexivity).
  split; [exact Hdec|].
  exact (proj1 (proj2 (proj2
           (migration_chain Reference.platform Reference.person "ABIFQWxpY2UYHg"
              0%nat 0%nat 3
              [Some ReferenceMigrations.v1ToV2; Some ReferenceMigrations.v2ToV3]
              Reference.alice 1 Hdec)))
           eq_refl eq_refl _ _ eq_refl).
Defined.

(** The migrated token carries version 3 and the age counted in months from
    1900; migrating it back to version 1 gives Alice's token again. *)
Example alice_migrated :
  Migrations.applyMigrations Reference.platform Reference.person "ABIFQWxpY2UYHg"
    0%nat 0%nat 3 [Some ReferenceMigrations.v1ToV2; Some ReferenceMigrations.v2ToV3]
  = Ok "AAgDEgVBbGljZRjUEQ"
  /\ Decoder.decodeWithVersion Reference.platform Reference.person
       "AAgDEgVBbGljZRjUEQ" 0%nat
     = Ok (VObject (list_to_map [("name", VString "Alice"); ("age", VNumber 2260)]), 3)
  /\ Migrations.applyMigrations Reference.platform Reference.person "AAgDEgVBbGljZRjUEQ"
       0%nat 0%nat 1 [Some ReferenceMigrations.v1ToV2; Some ReferenceMigrations.v2ToV3]
     = Ok "ABIFQWxpY2UYHg".
Proof. repeat split; vm_compute; reflexivity. Qed.

(** C3: when a hop the request needs is absent from the migrations array,
    applyMigrations fails with a VersionMismatchError whose message names
    the missing version pair, the first one the chain comes to, and returns
    nothing; from version 1 to version 3 over the empty array the error
    names version 1 to 2. *)
Theorem missing_hop (P : Platform) (schemas : Validation.Schemas)
  (encoded : string) (sourceSchema targetSchema : Validation.ZodType)
  (targetVersion : Z) (migrations : list (option Migrations.Migration))
  (decoded : value) (currentVersion : Z) :
  Decoder.decodeWithVersion P schemas encoded sourceSchema = Ok (decoded, currentVersion) ->
  let migrated :=
    Migrations.applyMigrations P schemas encoded sourceSchema targetSchema
      targetVersion migrations in
  (forall missing,
     currentVersion <= missing < targetVersion ->
     (forall w, currentVersion <= w < missing ->
        is_Some (Migrations.migrationAt migrations (w - 1))) ->
     Migrations.migrationAt migrations (missing - 1) = None ->
     migrated
     = Throw (VersionMismatchError
                ("Missing migration from version " +:+ pretty missing
                 +:+ " to " +:+ pretty (missing + 1) +:+ ". "
                 +:+ "Cannot upgrade from v" +:+ pretty currentVersion
                 +:+ " to v" +:+ pretty targetVersion +:+ ".")))
  /\ (forall missing,
        targetVersion < missing <= currentVersion ->
        (forall w, missing < w <= currentVersion ->
           is_Some (Migrations.migrationAt migrations (w - 2))) ->
        Migrations.migrationAt migrations (missing - 2) = None ->
        migrated
        = Throw (VersionMismatchError
                   ("Missing migration from version " +:+ pretty missing
                    +:+ " to " +:+ pretty (missing - 1) +:+ ". "
                    +:+ "Cannot downgrade from v" +:+ pretty currentVersion
                    +:+ " to v" +:+ pretty targetVersion +:+ ".")))
  /\ (currentVersion < targetVersion ->
      (exists v, currentVersion <= v < targetVersion
                 /\ Migrations.migrationAt migrations (v - 1) = None) ->
      exists missing,
        currentVersion <= missing < targetVersion
        /\ Migrations.migrationAt migrations (missing - 1) = None
        /\ migrated
           = Throw (VersionMismatchError
                      ("Missing migration from version " +:+ pretty missing
                       +:+ " to " +:+ pretty (missing + 1) +:+ ". "
                       +:+ "Cannot upgrade from v" +:+ pretty currentVersion
                       +:+ " to v" +:+ pretty targetVersion +:+ ".")))
  /\ (targetVersion < currentVersion ->
      (exists v, targetVersion < v <= currentVersion
                 /\ Migrations.migrationAt migrations (v - 2) = None) ->
      exists missing,
        targetVersion < missing <= currentVersion
        /\ Migrations.migrationAt migrations (missing - 2) = None
        /\ migrated
           = Throw (VersionMismatchError
                      ("Missing migration from version " +:+ pretty missing
                       +:+ " to " +:+ pretty (missing - 1) +:+ ". "
                       +:+ "Cannot downgrade from v" +:+ pretty currentVersion
                       +:+ " to v" +:+ pretty targetVersion +:+ ".")))
  /\ (currentVersion = 1 -> targetVersion = 3 -> migrations = [] ->
      migrated
      = Throw (VersionMismatchError
                 "Missing migration from version 1 to 2. Cannot upgrade from v1 to v3.")).
Proof.
  intros Hdec migrated. subst migrated.
  split; [|split; [|split; [|split]]].
  - intros missing Hrange Hbefore Hnone.
    exact (applyMigrations_missing_up P schemas encoded sourceSchema targetSchema
             decoded currentVersion Hdec targetVersion migrations missing
             Hrange Hbefore Hnone).
  - intros missing Hrange Hbefore Hnone.
    exact (applyMigrations_missing_down P schemas encoded sourceSchema targetSchema
             decoded currentVersion Hdec targetVersion migrations missing
             Hrange Hbefore Hnone).
  - intros Hlt Hex.
    exact (applyMigrations_some_missing_up P schemas encoded sourceSchema targetSchema
             decoded currentVersion Hdec targetVersion migrations Hlt Hex).
  - intros Hlt Hex.
    exact (applyMigrations_some_missing_down P schemas encoded sourceSchema targetSchema
             decoded currentVersion Hdec targetVersion migrations Hlt Hex).
  - intros -> -> ->.
    rewrite (applyMigrations_missing_up P schemas encoded sourceSchema targetSchema
               decoded 1 Hdec 3 [] 1); [reflexivity|lia| |reflexivity].
    intros w Hw. lia.
Qed.

(** C3 on Alice's token at version 1, asked for version 3 with no
    migrations. *)
Lemma missing_hop_witness :
  Decoder.decodeWithVersion Reference.platform Reference.person "ABIFQWxpY2UYHg" 0%nat
    = Ok (Reference.alice, 1)
  /\ Migrations.applyMigrations Reference.platform Reference.person "ABIFQWxpY2UYHg"
       0%nat 0%nat 3 []
     = Throw (VersionMismatchError
                "Missing migration from version 1 to 2. Cannot upgrade from v1 to v3.").
Proof.
  assert (Hdec : Decoder.decodeWithVersion Reference.platform Reference.person
                   "ABIFQWxpY2UYHg" 0%nat = Ok (Reference.alice, 1))
    by (vm_compute; reflexivity).
  split; [exact Hdec|].
  exact (proj2 (proj2 (proj2 (proj2
           (missing_hop Reference.platform Reference.person "ABIFQWxpY2UYHg"
              0%nat 0%nat 3 [] Reference.alice 1 Hdec))))
           eq_refl eq_refl eq_refl).
Defined.

(** With the first hop there and the second missing, the error names
    version 2 to 3. *)
Example second_hop_missing :
  Migrations.applyMigrations Reference.platform Reference.person "ABIFQWxpY2UYHg"
    0%nat 0%nat 3 [Some ReferenceMigrations.v1ToV2]
  = Throw (VersionMismatchError
             "Missing migration from version 2 to 3. Cannot upgrade from v1 to v3.").
Proof. vm_compute. reflexivity. Qed.

(** ** Further properties of the layers *)

(** The base64url layer: decoding the text of a byte array gives the bytes
    back; the padding the decoder computes restores the base64 text the
    encoder stripped; and the text has no "+", "/" or "=" in it. *)
Theorem base64url_layer (data : Uint8Array) :
  Base64Url.decodeBase64Url (Base64Url.encodeBase64Url data) = Ok data
  /\ Base64Url.toBase64Text (Base64Url.encodeBase64Url data) = Buffer.toBase64 data
  /\ Forall (fun c => c <> "+"%char /\ c <> "/"%char /\ c <> "="%char)
       (list_ascii_of_string (Base64Url.encodeBase64Url data)).
Proof.
  split; [apply decodeBase64Url_encodeBase64Url|].
  split; [apply toBase64Text_encodeBase64Url|].
  apply Forall_forall. intros c Hc. exact (encodeBase64Url_safe data c Hc).
Qed.

(** Schema validation always returns or throws its ValidationError, never
    running out of stack, and it returns exactly on the schemas that contain
    no reserved field. *)
Theorem validateSchema_decides (schemas : Validation.Schemas)
  (schema : Validation.ZodType) :
  (Validation.validateSchema schemas schema = Ok tt
   \/ Validation.validateSchema schemas schema
      = Throw (ValidationError Validation.reservedMessage))
  /\ (Validation.validateSchema schemas schema = Ok tt
      <-> ~ containsReservedField schemas schema).
Proof.
  split; [|apply validateSchema_Ok_iff].
  unfold Validation.validateSchema.
  destruct (hasReservedField_returns schemas (S (size schemas)) schema ∅) as [[[] V] E].
  - rewrite difference_empty_L, size_dom. lia.
  - rewrite E. right. reflexivity.
  - rewrite E. left. reflexivity.
Qed.

(** The frame is two bytes longer than the payload, and unframing refuses
    anything shorter than the header. *)
Theorem header_length (payload : Uint8Array) (version : Z)
  (options : Format.HeaderOptions) (b : byte) :
  (forall framed, Format.encodeWithHeader payload version options = Ok framed ->
                  length framed = (2 + length payload)%nat)
  /\ Format.decodeWithHeader []
     = Throw (PlainError "Encoded data too short - missing header")
  /\ Format.decodeWithHeader [b]
     = Throw (PlainError "Encoded data too short - missing header").
Proof.
  split; [|split; reflexivity].
  intros framed. apply encodeWithHeader_length.
Qed.

(** ** The header read back (format.ts) *)

Section HeaderRead.
Import Format.

Ltac read_bits :=
  repeat first
    [ rewrite Z.lor_spec | rewrite Z.land_spec
    | rewrite Z.shiftl_spec by lia | rewrite Z.shiftr_spec by lia
    | rewrite testbit_Zb_u8 by lia
    | rewrite Z.testbit_ones_nonneg by lia | rewrite Z.pow2_bits_eqb by lia
    | match goal with
      | |- context [Z.testbit (Zb ?b) ?i] => rewrite (testbit_Zb_high b i) by lia
      | |- context [Z.testbit ?x ?i] => rewrite (Z.testbit_neg_r x i) by lia
      end ].

Ltac read_cases :=
  repeat match goal with
  | |- context [?a <? ?b] => destruct (Z.ltb_spec a b); try lia
  | |- context [?a =? ?b] => destruct (Z.eqb_spec a b); try lia
  end.

Ltac read_done :=
  rewrite ?Z.add_simpl_r, ?Z.sub_add;
  repeat match goal with
  | |- context [Z.testbit ?x ?i] =>
    let v := fresh "bit" in set (v := Z.testbit x i) in *; clearbody v
  end;
  btauto.

Lemma versionOf_range (byte0 byte1 : byte) : 0 <= versionOf byte0 byte1 <= 1023.
Proof.
  pose proof (Zb_range byte0). pose proof (Zb_range byte1).
  assert (Hlow : 0 <= versionOf byte0 byte1).
  { unfold versionOf. apply Z.lor_nonneg. split.
    - apply Z.land_nonneg. lia.
    - apply Z.shiftl_nonneg, Z.land_nonneg. lia. }
  split; [exact Hlow|].
  cut (versionOf byte0 byte1 < 2 ^ 10); [change (2 ^ 10) with 1024; lia|].
  apply bounded_by_bits; [exact Hlow|lia|].
  intros n Hn. unfold versionOf.
  change 63 with (Z.ones 6). change 15 with (Z.ones 4).
  read_bits. read_cases.
Qed.

Lemma versionOf_bit (byte0 byte1 : byte) (n : Z) : 0 <= n ->
  Z.testbit (versionOf byte0 byte1) n
  = if n <? 6 then Z.testbit (Zb byte0) n
    else (n <? 10) && Z.testbit (Zb byte1) (n - 6).
Proof.
  intros Hn. unfold versionOf.
  change 63 with (Z.ones 6). change 15 with (Z.ones 4).
  destruct (Z.ltb_spec n 6).
  - rewrite Z.lor_spec, Z.land_spec, Z.testbit_ones_nonneg by lia.
    rewrite Z.shiftl_spec by lia. rewrite (Z.testbit_neg_r _ (n - 6)) by lia.
    read_cases. rewrite andb_true_r, orb_false_r. reflexivity.
  - read_bits. read_cases; rewrite ?andb_false_r, ?andb_true_r; reflexivity.
Qed.

Lemma reframe_byte0 (byte0 byte1 : byte) :
  u8 (headerByte0 (versionOf byte0 byte1)
        (negb (Z.land (Zb byte0) FLAGS_COMPRESSED =? 0)))
  = u8 (Z.land (Zb byte0) 0x7F).
Proof.
  unfold FLAGS_COMPRESSED. change (Z.shiftl 1 6) with (2 ^ 6).
  rewrite flag_test by lia.
  apply u8_bits. intros n Hn. rewrite testbit_Zb_u8 by lia.
  unfold headerByte0, FLAGS_COMPRESSED. change (Z.shiftl 1 6) with (2 ^ 6).
  change 63 with (Z.ones 6). change 127 with (Z.ones 7).
  destruct (Z.testbit (Zb byte0) 6) eqn:E6; cbv iota.
  - rewrite Z.lor_spec, !Z.land_spec, !Z.testbit_ones_nonneg, Z.pow2_bits_eqb by lia.
    rewrite versionOf_bit by lia.
    read_cases; subst; rewrite ?E6; cbn;
      rewrite ?andb_true_r, ?andb_false_r, ?orb_false_r, ?orb_true_r; reflexivity.
  - rewrite !Z.land_spec, !Z.testbit_ones_nonneg by lia.
    rewrite versionOf_bit by lia.
    read_cases; cbn; rewrite ?andb_true_r, ?andb_false_r; try reflexivity.
    replace n with 6 by lia. rewrite E6. reflexivity.
Qed.

Lemma reframe_byte1 (byte0 byte1 : byte) :
  u8 (headerByte1 (versionOf byte0 byte1)
        (negb (Z.land (Zb byte1) FLAGS_STRING_DICTIONARY =? 0))
        (negb (Z.land (Zb byte1) FLAGS_BOOLEAN_PACKING =? 0)))
  = u8 (Z.land (Zb byte1) 0x3F).
Proof.
  unfold FLAGS_STRING_DICTIONARY, FLAGS_BOOLEAN_PACKING.
  change (Z.shiftl 1 4) with (2 ^ 4). change (Z.shiftl 1 5) with (2 ^ 5).
  rewrite !flag_test by lia.
  apply u8_bits. intros n Hn. rewrite testbit_Zb_u8 by lia.
  unfold headerByte1, FLAGS_STRING_DICTIONARY, FLAGS_BOOLEAN_PACKING.
  change (Z.shiftl 1 4) with (2 ^ 4). change (Z.shiftl 1 5) with (2 ^ 5).
  change 15 with (Z.ones 4). change 63 with (Z.ones 6).
  assert (Hv : Z.testbit (Z.land (Z.shiftr (versionOf byte0 byte1) 6) (Z.ones 4)) n
               = (n <? 4) && Z.testbit (Zb byte1) n).
  { rewrite Z.land_spec, Z.shiftr_spec, Z.testbit_ones_nonneg, versionOf_bit by lia.
    replace (n + 6 - 6) with n by lia.
    read_cases; rewrite ?andb_true_r, ?andb_false_r; reflexivity. }
  destruct (Z.testbit (Zb byte1) 4) eqn:E4; destruct (Z.testbit (Zb byte1) 5) eqn:E5;
    cbv iota zeta;
    rewrite ?Z.lor_spec, Hv, ?Z.pow2_bits_eqb by lia;
    rewrite Z.land_spec, Z.testbit_ones_nonneg by lia;
    read_cases; subst; rewrite ?E4, ?E5; cbn;
    rewrite ?andb_true_r, ?andb_false_r, ?orb_false_r; try reflexivity.
  all: try (replace n with 4 by lia; rewrite E4; reflexivity).
  all: try (replace n with 5 by lia; rewrite E5; reflexivity).
  assert (Hn45 : n = 4 \/ n = 5) by lia.
  destruct Hn45; subst; rewrite ?E4, ?E5; reflexivity.
Qed.

End HeaderRead.

(** A frame of two bytes or more always unframes, to a version within
    0..1023; framing what was read gives the input back with its three
    reserved bits (bit 7 of byte 0, bits 6 and 7 of byte 1) cleared, so a
    frame with those bits clear is reproduced exactly. *)
Theorem decodeWithHeader_reframes (byte0 byte1 : byte) (payload : Uint8Array) :
  exists header,
    Format.decodeWithHeader (byte0 :: byte1 :: payload) = Ok header
    /\ 0 <= Format.h_version header <= 1023
    /\ Format.h_payload header = payload
    /\ Format.encodeWithHeader (Format.h_payload header) (Format.h_version header)
         {| Format.compressed := Format.h_compressed header;
            Format.stringDictionary := Some (Format.h_stringDictionary header);
            Format.booleanPacking := Some (Format.h_booleanPacking header) |}
       = Ok (u8 (Z.land (Zb byte0) 0x7F) :: u8 (Z.land (Zb byte1) 0x3F) :: payload).
Proof.
  eexists. split; [reflexivity|].
  cbn [Format.h_version Format.h_payload Format.h_compressed
       Format.h_stringDictionary Format.h_booleanPacking].
  fold (versionOf byte0 byte1).
  split; [apply versionOf_range|]. split; [reflexivity|].
  rewrite encodeWithHeader_ok by apply versionOf_range.
  cbn [Format.compressed Format.stringDictionary Format.booleanPacking Format.truthy].
  rewrite reframe_byte0, reframe_byte1. reflexivity.
Qed.

(** On the header of a frame, hasFlag answers the compression flag the frame
    was made with, and answers false for every other flag: also for the
    string-dictionary and boolean-packing flags of a frame that has them
    set. *)
Theorem hasFlag_decoded (payload : Uint8Array) (version : Z)
  (options : Format.HeaderOptions) (flag : Z) :
  0 <= version <= 1023 ->
  exists framed header,
    Format.encodeWithHeader payload version (Format.createFlags options) = Ok framed
    /\ Format.decodeWithHeader framed = Ok header
    /\ Format.hasFlag header Format.FLAGS_COMPRESSED = Format.compressed options
    /\ (flag <> Format.FLAGS_COMPRESSED -> Format.hasFlag header flag = false)
    /\ Format.hasFlag header Format.FLAGS_STRING_DICTIONARY = false
    /\ Format.hasFlag header Format.FLAGS_BOOLEAN_PACKING = false
    /\ Format.h_stringDictionary header = Format.truthy (Format.stringDictionary options)
    /\ Format.h_booleanPacking header = Format.truthy (Format.booleanPacking options).
Proof.
  intros Hv.
  pose proof (decodeWithHeader_encodeWithHeader payload version options Hv) as Hround.
  unfold Format.createFlags.
  rewrite encodeWithHeader_ok in Hround |- * by exact Hv.
  cbn [mbind result_bind bind] in Hround.
  eexists. eexists. split; [reflexivity|]. split; [exact Hround|].
  unfold Format.hasFlag. cbn [Format.h_compressed Format.h_stringDictionary
                              Format.h_booleanPacking].
  repeat split.
  intros Hflag. destruct (Z.eqb_spec flag Format.FLAGS_COMPRESSED); [contradiction|].
  reflexivity.
Qed.

(** Version 5, compressed, with both optimisation flags set. *)
Lemma hasFlag_decoded_witness :
  0 <= 5 <= 1023 /\
  exists framed header,
    Format.encodeWithHeader [x2a] 5
      (Format.createFlags {| Format.compressed := true;
                             Format.stringDictionary := Some true;
                             Format.booleanPacking := Some true |}) = Ok framed
    /\ Format.decodeWithHeader framed = Ok header
    /\ Format.hasFlag header Format.FLAGS_COMPRESSED = true
    /\ Format.hasFlag header Format.FLAGS_STRING_DICTIONARY = false
    /\ Format.h_stringDictionary header = true.
Proof.
  split; [lia|].
  destruct (hasFlag_decoded [x2a] 5
              {| Format.compressed := true; Format.stringDictionary := Some true;
                 Format.booleanPacking := Some true |} 0 ltac:(lia))
    as (framed & header & He & Hd & Hc & _ & Hs & _ & Hsd & _).
  exists framed, header. repeat split; assumption.
Defined.

(** ** The boolean fields of a schema (optimizations/boolean-packing.ts) *)

Section Fields.
Import Validation BooleanFields BooleanPacking.
Context (schemas : Schemas).

Lemma laidOut_push (fields : list BooleanFieldInfo) (currentPath : list string) :
  laidOut (fields, length fields) ->
  laidOut (fields ++ [{| path := currentPath;
                         bitPosition := (length fields mod 8)%nat;
                         byteIndex := (length fields / 8)%nat |}],
           S (length fields)).
Proof.
  intros [_ Hall]. split; cbn [fst snd] in *.
  - rewrite length_app. cbn. lia.
  - intros i field Hi. apply lookup_app_Some in Hi as [Hi|[Hlen Hi]].
    + apply Hall, Hi.
    + apply list_lookup_singleton_Some in Hi as [Hi <-]. cbn.
      replace i with (length fields) by lia. split; reflexivity.
Qed.

Lemma traverseKeys_laidOut
  (recur : ZodType -> list string -> Found -> result Found)
  (shape : list (string * ZodType)) (currentPath : list string) :
  (forall s p found found',
     laidOut found -> recur s p found = Ok found' -> laidOut found') ->
  forall keys found found',
    laidOut found ->
    traverseKeys recur shape currentPath keys found = Ok found' ->
    laidOut found'.
Proof.
  intros Hrecur. induction keys as [|key rest IH]; intros found found' Hl H; cbn in H.
  - injection H as <-. exact Hl.
  - destruct (shapeAt shape key) as [field|]; [|exact (IH _ _ Hl H)].
    destruct (recur field (currentPath ++ [key]) found) as [found1|e] eqn:E;
      cbn in H; [|discriminate].
    exact (IH _ _ (Hrecur _ _ _ _ Hl E) H).
Qed.

Lemma traverse_laidOut (fuel : nat) :
  forall s p found found',
    laidOut found -> traverse schemas fuel s p found = Ok found' -> laidOut found'.
Proof.
  induction fuel as [|fuel IH]; intros s p found found' Hl H;
    cbn [traverse] in H; [discriminate|].
  destruct (Converter.unwrap schemas s) as [unwrapped|e];
    cbn [mbind result_bind bind] in H; [|discriminate].
  match type of H with
  | match schemas !! ?u with _ => _ end = _ => destruct (schemas !! u) as [[]|]
  end; try (injection H as <-; exact Hl).
  - exact (traverseKeys_laidOut _ _ _ IH _ _ _ Hl H).
  - destruct found as [fields currentBit]. injection H as <-.
    destruct Hl as [Hbit Hall]. cbn [fst snd] in Hbit. subst currentBit.
    apply laidOut_push. split; [reflexivity|exact Hall].
Qed.

Lemma extractBooleanFields_laidOut (schema : ZodType) (path0 : list string)
  (fields : list BooleanFieldInfo) :
  extractBooleanFields schemas schema path0 = Ok fields ->
  laidOut (fields, length fields).
Proof.
  unfold extractBooleanFields. intros H.
  destruct (traverse schemas (Converter.stackDepth schemas) schema path0 ([], 0%nat))
    as [[fields' bit]|e] eqn:E; cbn in H; [|discriminate].
  injection H as <-.
  assert (Hl : laidOut (fields', bit)).
  { eapply traverse_laidOut; [|exact E].
    split; [reflexivity|]. intros i f Hi. cbn in Hi. discriminate. }
  destruct Hl as [Hbit Hall]. cbn [fst snd] in *. subst bit.
  split; [reflexivity|exact Hall].
Qed.

Lemma extractBooleanValues_lookup (data : value) (fields : list BooleanFieldInfo)
  (i : nat) (field : BooleanFieldInfo) :
  fields !! i = Some field ->
  nth i (extractBooleanValues data fields) false
  = match followPath (path field) data with
    | Some (VBoolean current) => current
    | _ => false
    end.
Proof.
  intros Hi. unfold extractBooleanValues.
  apply nth_lookup_Some with (d := false).
  rewrite list_lookup_fmap, Hi. reflexivity.
Qed.

(** The decimal of a number does not end in a letter: it is not the key
    [length]. *)
Lemma pretty_N_go_no_letter (x : N) :
  forall s : string,
    (forall u, s <> u +:+ "h") -> forall u, pretty_N_go x s <> u +:+ "h".
Proof.
  induction (N.lt_wf_0 x) as [x _ IH]. intros s Hs.
  destruct (decide (x = 0)%N) as [->|Hx].
  - rewrite pretty_N_go_0. exact Hs.
  - rewrite pretty_N_go_step by lia.
    apply IH; [apply N.div_lt; lia|].
    intros [|c u] E; cbn in E.
    + injection E as Ec _. revert Ec. unfold pretty_N_char.
      repeat case_match; discriminate.
    + injection E as _ E. exact (Hs u E).
Qed.

Lemma pretty_nat_not_length (index : nat) : pretty index <> "length".
Proof.
  unfold pretty, pretty_nat, pretty, pretty_N.
  case_decide; [discriminate|].
  apply (pretty_N_go_no_letter _ "" (fun u E => ltac:(destruct u; discriminate E)) "lengt").
Qed.

(** The own property of an array that the decimal of an index names. *)
Lemma ownProperty_item (items : list value) (index : nat) (next : value) :
  items !! index = Some next ->
  Builtins.ownProperty (VArray items) (pretty index) = Some next.
Proof.
  intros Hi. cbn [Builtins.ownProperty].
  destruct (String.eqb_spec (pretty index) "length") as [E|_];
    [destruct (pretty_nat_not_length index E)|].
  assert (Hfind : list_find (fun i : nat => pretty i = pretty index) (seq 0 (length items))
                  = Some (index, index)).
  { apply list_find_Some. split; [|split; [reflexivity|]].
    - apply lookup_seq. split; [reflexivity|]. apply lookup_lt_Some in Hi. exact Hi.
    - intros j y Hj Hlt Hy. apply lookup_seq in Hj as [-> _].
      apply (inj pretty) in Hy. cbn in Hy. lia. }
  rewrite Hfind. exact Hi.
Qed.

(** The loop over the keys of a path arrives where the path leads. *)
Lemma followPath_leadsTo (keys : list string) :
  forall data v : value, followPath keys data = Some v <-> leadsTo data keys v.
Proof.
  induction keys as [|key rest IH]; intros data v; cbn [followPath].
  - split.
    + intros H. injection H as <-. constructor.
    + intros H. inversion H. reflexivity.
  - split.
    + destruct (Builtins.ToBoolean data && String.eqb (typeof data) "object");
        [|discriminate].
      destruct (Builtins.ownProperty data key) as [next|] eqn:E; [|discriminate].
      intros H. apply IH in H.
      destruct data as [| | | | |items|props]; cbn [Builtins.ownProperty] in E;
        try discriminate E.
      * destruct (String.eqb_spec key "length") as [->|_].
        -- injection E as <-. apply leads_length, H.
        -- destruct (list_find _ _) as [[i index]|] eqn:Ef; [|discriminate E].
           apply list_find_Some in Ef as (_ & <- & _).
           exact (leads_item items index next rest v E H).
      * exact (leads_property props key next rest v E H).
    + intros H.
      inversion H as [|props k next r v' Hown Hrest|items index next r v' Hown Hrest
                      |items r v' Hrest]; subst.
      * cbn. rewrite Hown. apply IH, Hrest.
      * rewrite (ownProperty_item items index next Hown). cbn. apply IH, Hrest.
      * cbn. apply IH, Hrest.
Qed.

(** The value read for a field is true exactly when its path leads to
    true. *)
Lemma extractBooleanValues_true (data : value) (fields : list BooleanFieldInfo)
  (i : nat) (field : BooleanFieldInfo) :
  fields !! i = Some field ->
  nth i (extractBooleanValues data fields) false = true
  <-> leadsTo data (path field) (VBoolean true).
Proof.
  intros Hi. rewrite (extractBooleanValues_lookup data fields i field Hi).
  rewrite <- followPath_leadsTo.
  destruct (followPath (path field) data) as [[| |[]| | | |]|]; split;
    intros H; try discriminate H; reflexivity.
Qed.

End Fields.

(** The fields extractBooleanFields returns are numbered in the order it
    found them: field number i has byteIndex i div 8 and bitPosition
    i mod 8.  So, whatever the data, extractBooleanValues gives one value per
    field, and in the bytes packBooleans makes of them the bit at a field's
    byteIndex and bitPosition is set exactly when the field's path leads
    from the data, property by property, to the boolean true; it is clear
    when the path leaves the data or leads to anything else.  unpackBooleans reads the same boolean back at the field's
    number. *)
Theorem extractBooleanFields_layout (schemas : Validation.Schemas)
  (schema : Validation.ZodType) (path0 : list string)
  (fields : list BooleanFields.BooleanFieldInfo) (data : value)
  (i : nat) (field : BooleanFields.BooleanFieldInfo) :
  BooleanFields.extractBooleanFields schemas schema path0 = Ok fields ->
  fields !! i = Some field ->
  BooleanFields.byteIndex field = (i / 8)%nat
  /\ BooleanFields.bitPosition field = (i mod 8)%nat
  /\ length (BooleanFields.extractBooleanValues data fields) = length fields
  /\ (bitAt (BooleanPacking.packBooleans (BooleanFields.extractBooleanValues data fields))
        (BooleanFields.byteIndex field) (BooleanFields.bitPosition field)
      = true
      <-> leadsTo data (BooleanFields.path field) (VBoolean true))
  /\ (exists b : bool,
        BooleanPacking.unpackBooleans
          (BooleanPacking.packBooleans (BooleanFields.extractBooleanValues data fields))
          (length fields) !! i
        = Some b
        /\ (b = true <-> leadsTo data (BooleanFields.path field) (VBoolean true))).
Proof.
  intros Hfields Hi.
  destruct (extractBooleanFields_laidOut schemas schema path0 fields Hfields) as [_ Hall].
  destruct (Hall i field Hi) as [Hbyte Hbit].
  assert (Hlen : length (BooleanFields.extractBooleanValues data fields) = length fields).
  { unfold BooleanFields.extractBooleanValues. apply length_fmap. }
  split; [exact Hbyte|]. split; [exact Hbit|]. split; [exact Hlen|].
  split.
  - rewrite packBooleans_bits by (rewrite Hbit; apply Nat.mod_upper_bound; lia).
    rewrite Hbyte, Hbit, <- Nat.div_mod_eq.
    apply extractBooleanValues_true, Hi.
  - exists (nth i (BooleanFields.extractBooleanValues data fields) false).
    split; [|apply extractBooleanValues_true, Hi].
    unfold BooleanPacking.unpackBooleans.
    rewrite list_lookup_fmap, lookup_seq_lt by (apply lookup_lt_Some in Hi; exact Hi).
    cbn. rewrite unpackAt_packBooleans. reflexivity.
Qed.

(** The second of the three boolean fields of the preferences schema, read
    in a user's data: the user's settings have darkMode set, and so is
    bit 1 of byte 0. *)
Lemma extractBooleanFields_layout_witness :
  BooleanFields.extractBooleanFields Examples.preferences 0%nat []
  = Ok [ {| BooleanFields.path := ["active"];
            BooleanFields.bitPosition := 0; BooleanFields.byteIndex := 0 |};
         {| BooleanFields.path := ["settings"; "darkMode"];
            BooleanFields.bitPosition := 1; BooleanFields.byteIndex := 0 |};
         {| BooleanFields.path := ["verified"];
            BooleanFields.bitPosition := 2; BooleanFields.byteIndex := 0 |} ]
  /\ leadsTo Examples.darkUser ["settings"; "darkMode"] (VBoolean true)
  /\ bitAt (BooleanPacking.packBooleans
              (BooleanFields.extractBooleanValues Examples.darkUser
                 [ {| BooleanFields.path := ["active"];
                      BooleanFields.bitPosition := 0; BooleanFields.byteIndex := 0 |};
                   {| BooleanFields.path := ["settings"; "darkMode"];
                      BooleanFields.bitPosition := 1; BooleanFields.byteIndex := 0 |};
                   {| BooleanFields.path := ["verified"];
                      BooleanFields.bitPosition := 2; BooleanFields.byteIndex := 0 |} ]))
       0 1
     = true
  /\ bitAt (BooleanPacking.packBooleans
              (BooleanFields.extractBooleanValues Examples.darkUser
                 [ {| BooleanFields.path := ["active"];
                      BooleanFields.bitPosition := 0; BooleanFields.byteIndex := 0 |};
                   {| BooleanFields.path := ["settings"; "darkMode"];
                      BooleanFields.bitPosition := 1; BooleanFields.byteIndex := 0 |};
                   {| BooleanFields.path := ["verified"];
                      BooleanFields.bitPosition := 2; BooleanFields.byteIndex := 0 |} ]))
       0 2
     = false.
Proof.
  assert (Hfields : BooleanFields.extractBooleanFields Examples.preferences 0%nat []
    = Ok [ {| BooleanFields.path := ["active"];
              BooleanFields.bitPosition := 0; BooleanFields.byteIndex := 0 |};
           {| BooleanFields.path := ["settings"; "darkMode"];
              BooleanFields.bitPosition := 1; BooleanFields.byteIndex := 0 |};
           {| BooleanFields.path := ["verified"];
              BooleanFields.bitPosition := 2; BooleanFields.byteIndex := 0 |} ])
    by (vm_compute; reflexivity).
  assert (Hleads : leadsTo Examples.darkUser ["settings"; "darkMode"] (VBoolean true)).
  { apply (leads_property _ _ (VObject {[ "darkMode" := VBoolean true ]}));
      [vm_compute; reflexivity|].
    apply (leads_property _ _ (VBoolean true)); [vm_compute; reflexivity|].
    apply leads_here. }
  split; [exact Hfields|]. split; [exact Hleads|].
  split.
  - exact (proj2 (proj1 (proj2 (proj2 (proj2
      (extractBooleanFields_layout Examples.preferences 0%nat [] _ Examples.darkUser 1%nat
         {| BooleanFields.path := ["settings"; "darkMode"];
            BooleanFields.bitPosition := 1; BooleanFields.byteIndex := 0 |}
         Hfields eq_refl))))) Hleads).
  - vm_compute. reflexivity.
Defined.

Section Worthwhile.
Import BooleanFields BooleanPacking.

Lemma ceil8_le (n : nat) : (4 <= n)%nat -> (1 + Z.of_nat (ceil8 n) < Z.of_nat n * 2 - 3).
Proof.
  intros Hn. unfold ceil8.
  pose proof (Nat.div_mod_eq (n + 7) 8) as Hdm.
  pose proof (Nat.mod_upper_bound (n + 7) 8 ltac:(lia)). lia.
Qed.

End Worthwhile.

(** shouldPackBooleans answers true exactly when there are four fields or
    more: from four fields on, the packed size is always below the size it
    is compared with, so the size comparison never decides. *)
Theorem shouldPackBooleans_threshold (fields : list BooleanFields.BooleanFieldInfo) :
  BooleanFields.shouldPackBooleans fields = true <-> (4 <= length fields)%nat.
Proof.
  unfold BooleanFields.shouldPackBooleans. rewrite andb_true_iff, Z.geb_le, Z.ltb_lt.
  split.
  - intros [Hn _]. lia.
  - intros Hn. split; [lia|]. apply ceil8_le, Hn.
Qed.

Section Unpacking.
Import BooleanPacking.

(** Two byte arrays of one length with the same bits are the same. *)
Lemma bytes_by_bits (a b : Uint8Array) :
  length a = length b ->
  (forall k j : nat, (j < 8)%nat -> bitAt a k j = bitAt b k j) ->
  a = b.
Proof.
  intros Hlen Hbits.
  apply list_eq_same_length with (n := length a); [exact (eq_sym Hlen)|reflexivity|].
  intros k x y Hk Hx Hy.
  rewrite <- (u8_Zb x), <- (u8_Zb y). f_equal.
  apply Z.bits_inj'. intros n Hn.
  destruct (Z.ltb_spec n 8) as [Hlt|Hge].
  - specialize (Hbits k (Z.to_nat n) ltac:(lia)).
    unfold bitAt in Hbits. rewrite Hx, Hy, Z2Nat.id in Hbits by lia. exact Hbits.
  - rewrite !testbit_Zb_high by lia. reflexivity.
Qed.

Lemma ceil8_exact (n : nat) : ceil8 (8 * n) = n.
Proof.
  unfold ceil8. replace (8 * n + 7)%nat with (7 + n * 8)%nat by lia.
  rewrite Nat.div_add by lia. reflexivity.
Qed.

Lemma unpackBooleans_length (bytes : Uint8Array) (count : nat) :
  length (unpackBooleans bytes count) = count.
Proof. unfold unpackBooleans. rewrite length_map, length_seq. reflexivity. Qed.

Lemma unpackBooleans_nth (bytes : Uint8Array) (count i : nat) :
  nth i (unpackBooleans bytes count) false
  = if (i <? count)%nat then unpackAt bytes i else false.
Proof.
  unfold unpackBooleans. destruct (Nat.ltb_spec i count) as [Hlt|Hge].
  - apply nth_lookup_Some with (d := false).
    rewrite list_lookup_fmap.
    change (map ?f ?l) with (f <$> l) || idtac.
    rewrite lookup_seq_lt by exact Hlt. reflexivity.
  - apply nth_overflow. rewrite length_map, length_seq. exact Hge.
Qed.

Lemma bitAt_beyond (bytes : Uint8Array) (k j : nat) :
  (length bytes <= k)%nat -> bitAt bytes k j = false.
Proof.
  intros Hk. unfold bitAt. rewrite lookup_ge_None_2 by exact Hk. reflexivity.
Qed.

End Unpacking.

(** unpackBooleans gives as many values as it is asked for, false for every
    position past the bytes it is given; and packing the eight values per
    byte it reads off a byte array gives that byte array back. *)
Theorem unpackBooleans_packBooleans (bytes : Uint8Array) (count : nat) :
  length (BooleanPacking.unpackBooleans bytes count) = count
  /\ (forall i : nat, (8 * length bytes <= i < count)%nat ->
        BooleanPacking.unpackBooleans bytes count !! i = Some false)
  /\ BooleanPacking.packBooleans
       (BooleanPacking.unpackBooleans bytes (8 * length bytes)) = bytes.
Proof.
  split; [apply unpackBooleans_length|]. split.
  - intros i [Hlow Hhigh]. unfold BooleanPacking.unpackBooleans.
    rewrite list_lookup_fmap, lookup_seq_lt by exact Hhigh. cbn. f_equal.
    rewrite unpackAt_bitAt. apply bitAt_beyond.
    apply Nat.div_le_lower_bound; lia.
  - apply bytes_by_bits.
    + rewrite packBooleans_length, unpackBooleans_length. apply ceil8_exact.
    + intros k j Hj. rewrite packBooleans_bits, unpackBooleans_nth by exact Hj.
      destruct (Nat.ltb_spec (8 * k + j) (8 * length bytes)) as [Hlt|Hge].
      * rewrite unpackAt_bitAt. f_equal.
        -- rewrite Nat.mul_comm, Nat.div_add_l, (Nat.div_small j 8) by lia. lia.
        -- rewrite Nat.add_comm, Nat.mul_comm, Nat.Div0.mod_add.
           apply Nat.mod_small, Hj.
      * symmetry. apply bitAt_beyond. lia.
Qed.

(** ** The wire schema (protobuf/converter.ts) *)

Section Numbering.
Import Validation Protobuf Converter.
Context (schemas : Schemas).

Lemma numberedFrom_cons (first : Z) (field : Field) (fields : list Field) :
  fieldNumberOf field = first -> numberedFrom (first + 1) fields ->
  numberedFrom first (field :: fields).
Proof.
  unfold numberedFrom. intros Hf Hrest. cbn [fmap list_fmap length seq].
  rewrite Hf, Z.add_0_r. f_equal.
  change (list_fmap _ _ ?f ?l) with (f <$> l).
  rewrite Hrest, <- seq_shift.
  change (map S ?l) with (S <$> l). rewrite <- list_fmap_compose.
  apply list_fmap_ext. intros i x _. cbn. lia.
Qed.

Section Fields.
Context (typeOf : ZodType -> string -> Root -> result (string * Root)) (I : Root -> Prop).
Hypothesis typeOf_keeps : forall s name root pbType root',
  I root -> typeOf s name root = Ok (pbType, root') -> I root'.

Lemma convertFieldWith_field (name : string) (fieldNumber : Z) (schema : ZodType)
  (root root' : Root) (field : Field) :
  I root ->
  convertFieldWith schemas typeOf name fieldNumber schema root = Ok (field, root') ->
  fieldNameOf field = name /\ fieldNumberOf field = fieldNumber /\ I root'.
Proof.
  intros HI H. unfold convertFieldWith in H.
  destruct (unwrap schemas schema) as [u|e]; cbn [mbind result_bind bind] in H;
    [|discriminate].
  match type of H with
  | (let '(_, _) := ?p in _) = _ => destruct p as [isOptional u1]
  end.
  match type of H with
  | (let '(_, _) := ?p in _) = _ => destruct p as [isOptional' u2]
  end.
  destruct (typeOf u2 name root) as [[pbType root1]|e] eqn:E1;
    cbn [mbind result_bind bind] in H; [|discriminate].
  pose proof (typeOf_keeps _ _ _ _ _ HI E1) as HI1.
  destruct (schemas !! u2) as [[]|];
    try (injection H as <- <-; repeat split; assumption).
  match type of H with
  | match schemas !! ?k with _ => _ end = _ => destruct (schemas !! k) as [[]|]
  end; try discriminate.
  destruct (typeOf _ _ root1) as [[valuePbType root2]|e] eqn:E2;
    cbn [mbind result_bind bind] in H; [|discriminate].
  injection H as <- <-. repeat split. exact (typeOf_keeps _ _ _ _ _ HI1 E2).
Qed.

Lemma convertFieldsWith_fields (shape : list (string * ZodType)) :
  forall (fieldNumber : Z) (root root' : Root) (fields : list Field),
  I root ->
  convertFieldsWith schemas typeOf shape fieldNumber root = Ok (fields, root') ->
  fieldNameOf <$> fields = shape.*1
  /\ numberedFrom fieldNumber fields
  /\ I root'.
Proof.
  induction shape as [|[key fieldSchema] rest IH]; intros n root root' fields HI H;
    cbn [convertFieldsWith] in H.
  - injection H as <- <-. repeat split. exact HI.
  - destruct (convertFieldWith schemas typeOf key n fieldSchema root)
      as [[field root1]|e] eqn:E1; cbn [mbind result_bind bind] in H; [|discriminate].
    destruct (convertFieldWith_field _ _ _ _ _ _ HI E1) as (Hname & Hnumber & HI1).
    destruct (convertFieldsWith schemas typeOf rest (n + 1) root1)
      as [[fields' root2]|e] eqn:E2; cbn [mbind result_bind bind] in H; [|discriminate].
    injection H as <- <-.
    destruct (IH _ _ _ _ HI1 E2) as (Hnames & Hnumbers & HI2).
    repeat split.
    + cbn. rewrite Hname. f_equal. exact Hnames.
    + apply numberedFrom_cons; assumption.
    + exact HI2.
Qed.

End Fields.

Lemma nestedNumbered_add (root : Root) (name : string) (fields : list Field) :
  nestedNumbered root -> numberedFrom 1 fields ->
  nestedNumbered (root ++ [MkType name fields]).
Proof.
  intros Hroot Hfields name' fields' Hin.
  apply elem_of_app in Hin as [Hin|Hin]; [exact (Hroot _ _ Hin)|].
  apply list_elem_of_singleton in Hin. injection Hin as -> ->. exact Hfields.
Qed.

Lemma nestedNumbered_enum (root : Root) (name : string) (values : list (string * Z)) :
  nestedNumbered root -> nestedNumbered (root ++ [MkEnum name values]).
Proof.
  intros Hroot name' fields' Hin.
  apply elem_of_app in Hin as [Hin|Hin]; [exact (Hroot _ _ Hin)|].
  apply list_elem_of_singleton in Hin. discriminate.
Qed.

Lemma zodTypeToProtobufType_nested (fuel : nat) :
  forall s name root pbType root',
    nestedNumbered root ->
    zodTypeToProtobufType schemas fuel s name root = Ok (pbType, root') ->
    nestedNumbered root'.
Proof.
  induction fuel as [|fuel IH]; intros s name root pbType root' Hroot H;
    cbn [zodTypeToProtobufType] in H; [discriminate|].
  destruct (unwrap schemas s) as [u|e]; cbn [mbind result_bind bind] in H;
    [|discriminate].
  destruct (schemas !! u) as [[]|]; try discriminate;
    try (injection H as <- <-; exact Hroot);
    try exact (IH _ _ _ _ _ Hroot H);
    try (destruct (existsb _ _); injection H as <- <-; exact Hroot).
  - match type of H with
    | context [convertFieldsWith schemas ?t ?shape ?n ?r] =>
      destruct (convertFieldsWith schemas t shape n r) as [[fields root1]|e] eqn:E
    end; cbn [mbind result_bind bind] in H; [|discriminate].
    injection H as <- <-.
    destruct (convertFieldsWith_fields _ nestedNumbered IH _ _ _ _ _ Hroot E)
      as (_ & Hnumbers & Hroot1).
    apply nestedNumbered_add; assumption.
  - destruct options as [|option0 rest]; [discriminate|].
    exact (IH _ _ _ _ _ Hroot H).
  - injection H as <- <-. apply nestedNumbered_enum, Hroot.
  - match type of H with
    | match ?literal with _ => _ end = _ => destruct literal
    end; try discriminate; injection H as <- <-; exact Hroot.
Qed.

End Numbering.

(** The message type zodToProtobuf returns is built from an object schema
    (under its effects): its first field is the version field, number 1, and
    the fields after it are the fields of the schema, in the order of its
    shape, numbered 2, 3, ...; so no field of the schema takes number 1.  The
    root holds, before that type, the nested types, each numbering its fields
    from 1. *)
Theorem zodToProtobuf_fields (P : Platform) (schemas : Validation.Schemas)
  (schema : Validation.ZodType) (messageName : string) (pbType : Protobuf.Type_) :
  Converter.zodToProtobuf P schemas schema messageName = Ok pbType ->
  exists root shape fields nested,
    Converter.unwrap schemas schema = Ok root
    /\ schemas !! root = Some (Validation.ZodObject shape)
    /\ Protobuf.typeName pbType = messageName
    /\ Protobuf.typeFields pbType
       = Protobuf.MkField Validation.RESERVED_FIELD 1 "uint32" (Some Protobuf.optional)
         :: fields
    /\ fieldNameOf <$> fields = shape.*1
    /\ numberedFrom 2 fields
    /\ Protobuf.typeRoot pbType
       = nested ++ [Protobuf.MkType messageName (Protobuf.typeFields pbType)]
    /\ nestedNumbered nested.
Proof.
  intros H. unfold Converter.zodToProtobuf in H.
  destruct (Converter.unwrap schemas schema) as [root|e] eqn:Eu;
    cbn [mbind result_bind bind] in H; [|discriminate].
  destruct (schemas !! root) as [[shape| | | | | | | | | | | | | | | | | | | | |]|] eqn:Er;
    try discriminate.
  match type of H with
  | context [Converter.convertFieldsWith schemas ?t ?s ?n ?r] =>
    destruct (Converter.convertFieldsWith schemas t s n r) as [[fields nested]|e] eqn:Ef
  end; cbn [mbind result_bind bind] in H; [|discriminate].
  destruct (Root_resolveAll P _); cbn [mbind result_bind bind] in H; [|discriminate].
  injection H as <-.
  destruct (convertFieldsWith_fields schemas _ nestedNumbered
              (zodTypeToProtobufType_nested schemas (Converter.stackDepth schemas))
              shape 2 [] nested fields)
    as (Hnames & Hnumbers & Hnested); [intros name fs Hin; inversion Hin|exact Ef|].
  exists root, shape, fields, nested. cbn. repeat split; assumption.
Qed.

(** The type of the person schema: name is field 2, age is field 3. *)
Lemma zodToProtobuf_fields_witness :
  Converter.zodToProtobuf Reference.platform Reference.person 0%nat "EncodedState"
  = Ok Examples.personType
  /\ exists root shape fields nested,
       Converter.unwrap Reference.person 0%nat = Ok root
       /\ Reference.person !! root = Some (Validation.ZodObject shape)
       /\ Protobuf.typeName Examples.personType = "EncodedState"
       /\ Protobuf.typeFields Examples.personType
          = Protobuf.MkField Validation.RESERVED_FIELD 1 "uint32" (Some Protobuf.optional)
            :: fields
       /\ fieldNameOf <$> fields = shape.*1
       /\ numberedFrom 2 fields
       /\ Protobuf.typeRoot Examples.personType
          = nested ++ [Protobuf.MkType "EncodedState"
                         (Protobuf.typeFields Examples.personType)]
       /\ nestedNumbered nested.
Proof.
  assert (E : Converter.zodToProtobuf Reference.platform Reference.person 0%nat
                "EncodedState" = Ok Examples.personType)
    by (vm_compute; reflexivity).
  split; [exact E|].
  exact (zodToProtobuf_fields Reference.platform Reference.person 0%nat "EncodedState"
           Examples.personType E).
Defined.

(** ** The cache of generated types (protobuf/cache.ts) *)

(** Once getOrCreateProtobuf has returned a type for a schema, the schema
    is cached and every later call for it returns that same type, whatever
    message name the later call asks for; the entries of other schemas are
    untouched; clearCacheForSchema removes the entry of its schema and no
    other. *)
Theorem getOrCreateProtobuf_cached (P : Platform) (schemas : Validation.Schemas)
  (schema : Validation.ZodType) (messageName : option string)
  (protobufCache protobufCache' : Cache.ProtobufCache) (pbType : Protobuf.Type_) :
  Cache.getOrCreateProtobuf P schemas schema messageName protobufCache
  = Ok (pbType, protobufCache') ->
  Cache.isCached schema protobufCache' = true
  /\ (forall otherName,
        Cache.getOrCreateProtobuf P schemas schema otherName protobufCache'
        = Ok (pbType, protobufCache'))
  /\ (forall other, other <> schema ->
        Cache.isCached other protobufCache' = Cache.isCached other protobufCache
        /\ protobufCache' !! other = protobufCache !! other)
  /\ Cache.isCached schema (Cache.clearCacheForSchema schema protobufCache') = false
  /\ (forall other, other <> schema ->
        Cache.clearCacheForSchema schema protobufCache' !! other = protobufCache !! other)
  /\ (Cache.isCached schema protobufCache = false ->
      Converter.zodToProtobuf P schemas schema (default "EncodedState" messageName)
      = Ok pbType).
Proof.
  unfold Cache.getOrCreateProtobuf, Cache.isCached, Cache.clearCacheForSchema.
  intros H.
  assert (Hcached : protobufCache' !! schema = Some pbType
                    /\ forall other, other <> schema ->
                         protobufCache' !! other = protobufCache !! other).
  { destruct (protobufCache !! schema) as [cached|] eqn:E.
    - injection H as <- <-. split; [exact E|reflexivity].
    - destruct (Converter.zodToProtobuf P schemas schema _) as [T|e];
        cbn [mbind result_bind bind] in H; [|discriminate].
      injection H as <- <-. split; [apply lookup_insert_eq|].
      intros other Hne. apply lookup_insert_ne. congruence. }
  destruct Hcached as [Hhit Hothers].
  split; [rewrite Hhit; apply bool_decide_eq_true; eauto|].
  split; [intros otherName; rewrite Hhit; reflexivity|].
  split; [intros other Hne; rewrite (Hothers other Hne); split; reflexivity|].
  split; [rewrite lookup_delete_eq; apply bool_decide_eq_false; intros [x Hx]; discriminate|].
  split; [intros other Hne; rewrite lookup_delete_ne by congruence; apply Hothers, Hne|].
  intros Hmiss. apply bool_decide_eq_false in Hmiss.
  destruct (protobufCache !! schema) as [cached|] eqn:E; [exfalso; apply Hmiss; eauto|].
  destruct (Converter.zodToProtobuf P schemas schema _) as [T|e];
    cbn [mbind result_bind bind] in H; [|discriminate].
  injection H as <- _. reflexivity.
Qed.

(** The person schema on an empty cache, asked for again under another
    name. *)
Lemma getOrCreateProtobuf_cached_witness :
  Cache.getOrCreateProtobuf Reference.platform Reference.person 0%nat None ∅
  = Ok (Examples.personType, {[ 0%nat := Examples.personType ]})
  /\ Cache.getOrCreateProtobuf Reference.platform Reference.person 0%nat (Some "Other")
       {[ 0%nat := Examples.personType ]}
     = Ok (Examples.personType, {[ 0%nat := Examples.personType ]})
  /\ Protobuf.typeName Examples.personType = "EncodedState".
Proof.
  assert (E : Cache.getOrCreateProtobuf Reference.platform Reference.person 0%nat None ∅
              = Ok (Examples.personType, {[ 0%nat := Examples.personType ]}))
    by (vm_compute; reflexivity).
  split; [exact E|]. split; [|reflexivity].
  exact (proj1 (proj2 (getOrCreateProtobuf_cached Reference.platform Reference.person
                         0%nat None ∅ _ Examples.personType E)) (Some "Other")).
Defined.

(** ** The wrappers (polymorphic.ts, api.ts, query-params.ts) *)

(** createEncodedState behaves the same with and without safeParse: it
    returns the state of the token encode returns, and throws the error
    encode throws.  createQueryParams in safe-parse mode never throws: its
    result object carries the token of encode, or reports the error encode
    would throw. *)
Theorem safeParse_wrappers (P : Platform) (schemas : Validation.Schemas)
  (data : value) (schema : Validation.ZodType) (version : option Z)
  (experimental : option Types.Experimental) :
  (forall options : option Types.EncoderOptions,
     Polymorphic.createEncodedState P schemas data schema version options
     = (encoded ← Encoder.encode P schemas data schema version;
        Ok {| Polymorphic.encodedString := encoded |}))
  /\ Api.createQueryParams P schemas data schema
       (Some {| Api.version := version; Api.safeParse := Some true;
                Api.experimental := experimental |})
     = match Encoder.encode P schemas data schema version with
       | Ok encoded =>
         Ok (inr {| Api.success := true;
                    Api.data := Some (Api.newQueryParams encoded);
                    Api.error := None |})
       | Throw e =>
         Ok (inr {| Api.success := false; Api.data := None; Api.error := Some e |})
       end.
Proof.
  split.
  - intros options. unfold Polymorphic.createEncodedState, Encoder.encode, Encoder.encodeSafe.
    destruct version as [version|]; cbn [default from_option id];
      destruct (Types.safeParseOf options);
      destruct (Encoder.encodeInternal P schemas data schema _);
      reflexivity.
  - unfold Api.createQueryParams, Encoder.encode, Encoder.encodeSafe.
    cbn [mbind option_bind Api.version Api.safeParse].
    destruct version as [version|]; cbn [default from_option id];
      destruct (Encoder.encodeInternal P schemas data schema _);
      reflexivity.
Qed.

Section Wrapped.
Import Validation Encoder Decoder.
Context (P : Platform) (schemas : Schemas).

(** Decoding what encode returned, under the conditions of the round
    trip. *)
Lemma decodeInternal_encodeInternal (V : value) (S : ZodType) (version : Z)
  (token : string) :
  encodeInternal P schemas V S version = Ok token ->
  zod_parse P schemas S V = Ok V ->
  (forall run, encodeRuns P schemas V S version run -> inverts P schemas S version run) ->
  decodeInternal P schemas token S = Ok (V, version).
Proof.
  intros Henc Hparse Hinv.
  apply encodeInternal_Ok in Henc as (run & Hrun & ->).
  rewrite (decodeInternal_tokenOf P schemas V S version run Hrun (Hinv run Hrun)).
  destruct Hrun as (_ & Hp & _). rewrite Hparse in Hp. injection Hp as ->.
  reflexivity.
Qed.

(** Decoding what encode returned for a value that validation returns as
    it is and that has no property of the reserved name, when the libraries
    carry the run back. *)
Lemma decodeInternal_value (V : value) (S : ZodType) (version : Z) (token : string) :
  encodeInternal P schemas V S version = Ok token ->
  zod_parse P schemas S V = Ok V ->
  lacksProperty V RESERVED_FIELD ->
  (forall run, encodeRuns P schemas V S version run -> carriedBack P version run) ->
  decodeInternal P schemas token S = Ok (V, version).
Proof.
  intros Henc Hparse Hlacks Hcarried.
  apply encodeInternal_Ok in Henc as (run & Hrun & ->).
  assert (HV : V = VObject (run_validated run)).
  { destruct Hrun as (_ & Hp & _). rewrite Hparse in Hp. injection Hp as ->. reflexivity. }
  pose proof (Hlacks _ HV) as Hno.
  apply (decodeInternal_carried P schemas V S version run V Hrun (Hcarried run Hrun)
           (fun _ => Hno)).
  rewrite (delete_id _ _ Hno), <- HV. exact Hparse.
Qed.

End Wrapped.

(** parseQueryParams gives back what createQueryParams was given, from the
    QueryParams object and from its string alike, when the value is one
    that validation returns as it is and that has no property named
    "_encodedStateVersion", and the libraries carry the run of encode
    back (inflate gives back the wire bytes where the compressed form was
    sent, the wire bytes decode to the object that was serialized); the
    object is the single pair state=token; and in safe-parse mode the
    result also reports the version the parameters were created with. *)
Theorem parseQueryParams_createQueryParams (P : Platform) (schemas : Validation.Schemas)
  (V : value) (S : Validation.ZodType) (options : option Api.CreateQueryParamsOptions)
  (params : Api.QueryParams) :
  Api.createQueryParams P schemas V S options = Ok (inl params) ->
  zod_parse P schemas S V = Ok V ->
  lacksProperty V Validation.RESERVED_FIELD ->
  (forall run, encodeRuns P schemas V S (default 1 (options ≫= Api.version)) run ->
               carriedBack P (default 1 (options ≫= Api.version)) run) ->
  Api.parseQueryParams P schemas (inl params) S None = Ok (inl V)
  /\ Api.parseQueryParams P schemas (inr (Api.toString params)) S None = Ok (inl V)
  /\ Api.searchParams params = [("state", Api.toString params)]
  /\ Api.parseQueryParams P schemas (inl params) S
       (Some {| Types.decoderSafeParse := Some true |})
     = Ok (inr {| Decoder.success := true;
                  Decoder.data := Some V;
                  Decoder.error := None;
                  Decoder.version := Some (default 1 (options ≫= Api.version)) |}).
Proof.
  intros Hcreate Hparse Hlacks Hcarried. unfold Api.createQueryParams in Hcreate.
  destruct (default false (options ≫= Api.safeParse)).
  { destruct (negb _) in Hcreate; discriminate. }
  unfold Encoder.encode in Hcreate.
  change (default 1 (Some ?v)) with v in Hcreate.
  destruct (Encoder.encodeInternal P schemas V S (default 1 (options ≫= Api.version)))
    as [token|e] eqn:Henc; cbn [mbind result_bind bind] in Hcreate; [|discriminate].
  injection Hcreate as <-.
  pose proof (decodeInternal_value P schemas V S _ token Henc Hparse Hlacks Hcarried)
    as Hdec.
  unfold Api.parseQueryParams, Api.getState, Api.toString, Api.newQueryParams,
    Decoder.decode, Decoder.decodeSafe.
  cbn [Api.encodedValue Api.searchParams default mbind option_bind
       Types.decoderSafeParse].
  rewrite Hdec.
  repeat split.
Qed.

(** Alice, as query parameters at version 5. *)
Lemma parseQueryParams_createQueryParams_witness :
  Api.createQueryParams Reference.platform Reference.person Reference.alice 0%nat
    (Some {| Api.version := Some 5; Api.safeParse := None;
             Api.experimental := None |})
  = Ok (inl (Api.newQueryParams "AAgFEgVBbGljZRge"))
  /\ Api.parseQueryParams Reference.platform Reference.person
       (inl (Api.newQueryParams "AAgFEgVBbGljZRge")) 0%nat None
     = Ok (inl Reference.alice).
Proof.
  assert (E : Api.createQueryParams Reference.platform Reference.person Reference.alice
                0%nat (Some {| Api.version := Some 5; Api.safeParse := None;
             Api.experimental := None |})
              = Ok (inl (Api.newQueryParams "AAgFEgVBbGljZRge")))
    by (vm_compute; reflexivity).
  split; [exact E|].
  refine (proj1 (parseQueryParams_createQueryParams Reference.platform Reference.person
                   Reference.alice 0%nat _ _ E _ alice_lacks _)).
  - vm_compute. reflexivity.
  - apply alice_carried. cbn. lia.
Defined.

(** An EncodedQueryParams made from data encodes that data at its version;
    one made from the resulting token holds the data again but not the
    version of the token: it is at the version its own constructor was
    given (1 by default), and its toString re-encodes the data at that
    version. *)
Theorem EncodedQueryParams_reencodes (P : Platform) (schemas : Validation.Schemas)
  (V : value) (S : Validation.ZodType) (version version' : option Z)
  (params : QueryParamsClass.EncodedQueryParams) (token : string) :
  typeof V <> "string" ->
  QueryParamsClass.new P schemas V S version = Ok params ->
  QueryParamsClass.toString P schemas params = Ok token ->
  zod_parse P schemas S V = Ok V ->
  (forall run, encodeRuns P schemas V S (default 1 version) run ->
               inverts P schemas S (default 1 version) run) ->
  Encoder.encode P schemas V S version = Ok token
  /\ exists params',
       QueryParamsClass.new P schemas (VString token) S version' = Ok params'
       /\ QueryParamsClass.data params' = V
       /\ QueryParamsClass.toObject params' = QueryParamsClass.spread V
       /\ QueryParamsClass.version params' = default 1 version'
       /\ QueryParamsClass.toString P schemas params'
          = Encoder.encode P schemas V S version'.
Proof.
  intros Htype Hnew Hstr Hparse Hinv. unfold QueryParamsClass.new in *.
  destruct (schemas !! S) as [[shape| | | | | | | | | | | | | | | | | | | | |]|] eqn:ES;
    try discriminate.
  assert (Hdata : params = {| QueryParamsClass.data := V; QueryParamsClass.schema := S;
                              QueryParamsClass.version := default 1 version |}).
  { destruct V; try (exfalso; apply Htype; reflexivity);
      rewrite Hparse in Hnew; injection Hnew as <-; reflexivity. }
  subst params. unfold QueryParamsClass.toString, Encoder.encode in *.
  cbn [QueryParamsClass.data QueryParamsClass.schema QueryParamsClass.version] in *.
  change (default 1 (Some ?v)) with v in *.
  split; [exact Hstr|].
  pose proof (decodeInternal_encodeInternal P schemas V S _ token Hstr Hparse Hinv) as Hdec.
  unfold Decoder.decode. rewrite Hdec. cbn [mbind result_bind bind].
  eexists. split; [reflexivity|]. repeat split.
Qed.

(** Alice at version 5, read back by a constructor that is given no
    version: the new token is the one of version 1. *)
Lemma EncodedQueryParams_reencodes_witness :
  QueryParamsClass.new Reference.platform Reference.person Reference.alice 0%nat (Some 5)
  = Ok {| QueryParamsClass.data := Reference.alice; QueryParamsClass.schema := 0%nat;
          QueryParamsClass.version := 5 |}
  /\ Encoder.encode Reference.platform Reference.person Reference.alice 0%nat (Some 5)
     = Ok "AAgFEgVBbGljZRge"
  /\ exists params',
       QueryParamsClass.new Reference.platform Reference.person
         (VString "AAgFEgVBbGljZRge") 0%nat None = Ok params'
       /\ QueryParamsClass.data params' = Reference.alice
       /\ QueryParamsClass.version params' = 1
       /\ QueryParamsClass.toString Reference.platform Reference.person params'
          = Ok "ABIFQWxpY2UYHg".
Proof.
  assert (Hnew : QueryParamsClass.new Reference.platform Reference.person Reference.alice
                   0%nat (Some 5)
                 = Ok {| QueryParamsClass.data := Reference.alice;
                         QueryParamsClass.schema := 0%nat;
                         QueryParamsClass.version := 5 |})
    by (vm_compute; reflexivity).
  split; [exact Hnew|].
  destruct (EncodedQueryParams_reencodes Reference.platform Reference.person
              Reference.alice 0%nat (Some 5) None _ "AAgFEgVBbGljZRge"
              ltac:(discriminate) Hnew ltac:(vm_compute; reflexivity)
              ltac:(vm_compute; reflexivity)
              (alice_inverts 5 (or_intror eq_refl)))
    as (Henc & params' & Hnew' & Hdata & _ & Hversion & Hstr).
  split; [exact Henc|].
  exists params'. split; [exact Hnew'|]. split; [exact Hdata|]. split; [exact Hversion|].
  rewrite Hstr. vm_compute. reflexivity.
Defined.

Section Validated.
Import Validation Decoder.
Context (P : Platform) (schemas : Schemas).

(** What decode returns is what validation returned. *)
Lemma decode_validated (encoded : string) (schema : ZodType) (data : value) :
  decode P schemas encoded schema = Ok data ->
  exists input, zod_parse P schemas schema input = Ok data.
Proof.
  unfold decode, decodeInternal. intros H.
  apply bind_Ok in H as ([data' version] & H & Hdata). injection Hdata as ->.
  apply bind_Ok in H as ([] & _ & H).
  apply bind_Ok in H as (bytes & _ & H).
  apply bind_Ok in H as (binary & _ & H).
  apply bind_Ok in H as (pbType & _ & H).
  apply bind_Ok in H as (decoded & _ & H).
  apply bind_Ok in H as ([dataWithoutVersion finalVersion] & _ & H).
  apply bind_Ok in H as (validated & Hparse & H).
  injection H as <- _. eauto.
Qed.

End Validated.

(** The data of an EncodedQueryParams is validated data in every state: the
    constructor, set and delete return an object only when schema.parse
    returned its data (for a token, inside decode), and set and delete keep
    the schema and the version.  The constructor refuses, with a
    ValidationError, every schema that is not itself an object schema. *)
Theorem EncodedQueryParams_validated (P : Platform) (schemas : Validation.Schemas) :
  (forall init schema version params,
     QueryParamsClass.new P schemas init schema version = Ok params ->
     validatedState P schemas params
     /\ QueryParamsClass.schema params = schema
     /\ QueryParamsClass.version params = default 1 version
     /\ exists shape, schemas !! schema = Some (Validation.ZodObject shape))
  /\ (forall params name val params',
        QueryParamsClass.set P schemas params name val = Ok params' ->
        validatedState P schemas params'
        /\ QueryParamsClass.schema params' = QueryParamsClass.schema params
        /\ QueryParamsClass.version params' = QueryParamsClass.version params)
  /\ (forall params name params',
        QueryParamsClass.delete P schemas params name = Ok params' ->
        validatedState P schemas params'
        /\ QueryParamsClass.schema params' = QueryParamsClass.schema params
        /\ QueryParamsClass.version params' = QueryParamsClass.version params)
  /\ (forall init schema version,
        (forall shape, schemas !! schema <> Some (Validation.ZodObject shape)) ->
        QueryParamsClass.new P schemas init schema version
        = Throw (ValidationError "EncodedQueryParams requires a z.object() schema")).
Proof.
  repeat match goal with |- _ /\ _ => split end.
  - intros init schema version params H. unfold QueryParamsClass.new in H.
    destruct (schemas !! schema) as [[shape| | | | | | | | | | | | | | | | | | | | |]|];
      try discriminate.
    apply bind_Ok in H as (data & Hdata & H). injection H as <-.
    split; [|repeat split; eauto].
    unfold validatedState. cbn [QueryParamsClass.schema QueryParamsClass.data].
    destruct init; eauto using decode_validated.
  - intros params name val params' H. unfold QueryParamsClass.set in H.
    apply bind_Ok in H as (data & Hdata & H). injection H as <-.
    split; [|split; reflexivity]. eexists. exact Hdata.
  - intros params name params' H. unfold QueryParamsClass.delete in H.
    apply bind_Ok in H as (data & Hdata & H). injection H as <-.
    split; [|split; reflexivity]. eexists. exact Hdata.
  - intros init schema version Hno. unfold QueryParamsClass.new.
    destruct (schemas !! schema) as [[shape| | | | | | | | | | | | | | | | | | | | |]|];
      try reflexivity.
    exfalso. exact (Hno shape eq_refl).
Qed.

(** ** Migrations at the lower end (migrations.ts) *)

Section BelowOne.
Import Validation Encoder Decoder Migrations.

Lemma migrationAt_negative (migrations : list (option Migration)) (migrationIndex : Z) :
  migrationIndex < 0 -> migrationAt migrations migrationIndex = None.
Proof.
  intros H. unfold migrationAt.
  destruct (Z.ltb_spec migrationIndex 0); [reflexivity|lia].
Qed.

End BelowOne.

(** No migration leaves a version below 1 and none arrives at one, whatever
    the migrations array holds: upgrading a token whose version is below 1
    throws the VersionMismatchError of its first hop, and downgrading a token
    to a target below 1 throws the VersionMismatchError of a hop between the
    two versions. *)
Theorem applyMigrations_below_one (P : Platform) (schemas : Validation.Schemas)
  (encoded : string) (sourceSchema targetSchema : Validation.ZodType)
  (decoded : value) (currentVersion targetVersion : Z)
  (migrations : list (option Migrations.Migration)) :
  Decoder.decodeWithVersion P schemas encoded sourceSchema = Ok (decoded, currentVersion) ->
  (currentVersion < targetVersion -> currentVersion < 1 ->
   Migrations.applyMigrations P schemas encoded sourceSchema targetSchema
     targetVersion migrations
   = Throw (Migrations.missingUpgrade currentVersion targetVersion currentVersion))
  /\ (targetVersion < currentVersion -> targetVersion < 1 ->
      exists missing, targetVersion < missing <= currentVersion
        /\ Migrations.applyMigrations P schemas encoded sourceSchema targetSchema
             targetVersion migrations
           = Throw (Migrations.missingDowngrade currentVersion targetVersion missing)).
Proof.
  intros Hdec. split.
  - intros Hlt Hlow.
    apply (applyMigrations_missing_up P schemas encoded sourceSchema targetSchema
             decoded currentVersion Hdec targetVersion migrations currentVersion).
    + lia.
    + intros w Hw. lia.
    + apply migrationAt_negative. lia.
  - intros Hlt Hlow.
    destruct (applyMigrations_some_missing_down P schemas encoded sourceSchema
                targetSchema decoded currentVersion Hdec targetVersion migrations Hlt)
      as (missing & Hrange & _ & Hthrow).
    + exists (targetVersion + 1). split; [lia|]. apply migrationAt_negative. lia.
    + exists missing. split; [exact Hrange|exact Hthrow].
Qed.

(** Alice's token of version 1 cannot be brought to version 0, even with
    both migrations at hand. *)
Lemma applyMigrations_below_one_witness :
  Decoder.decodeWithVersion Reference.platform Reference.person "ABIFQWxpY2UYHg" 0%nat
  = Ok (Reference.alice, 1)
  /\ exists missing, 0 < missing <= 1
       /\ Migrations.applyMigrations Reference.platform Reference.person
            "ABIFQWxpY2UYHg" 0%nat 0%nat 0
            [Some ReferenceMigrations.v1ToV2; Some ReferenceMigrations.v2ToV3]
          = Throw (Migrations.missingDowngrade 1 0 missing).
Proof.
  assert (Hdec : Decoder.decodeWithVersion Reference.platform Reference.person
                   "ABIFQWxpY2UYHg" 0%nat = Ok (Reference.alice, 1))
    by (vm_compute; reflexivity).
  split; [exact Hdec|].
  apply (proj2 (applyMigrations_below_one Reference.platform Reference.person
                  "ABIFQWxpY2UYHg" 0%nat 0%nat Reference.alice 1 0
                  [Some ReferenceMigrations.v1ToV2; Some ReferenceMigrations.v2ToV3]
                  Hdec)); lia.
Defined.

(** ** The text of a token (compression/base64url.ts) *)

Section TokenText.
Import Buffer Base64Url.

Lemma urlDigit_spec (s : Z) :
  isSextet s ->
  urlDigit s ∈ urlAlphabet /\ urlDigit s <> pad
  /\ encodeSextet s <> "-"%char /\ encodeSextet s <> "_"%char.
Proof.
  intros Hs.
  assert (Hn : exists n, (n < 64)%nat /\ s = Z.of_nat n).
  { exists (Z.to_nat s). unfold isSextet in Hs. lia. }
  destruct Hn as (n & Hn & ->).
  do 64 (destruct n as [|n];
         [repeat split; try discriminate; vm_compute; repeat constructor|]).
  lia.
Qed.

Lemma encodeBase64Url_digits (data : Uint8Array) :
  encodeBase64Url data = string_of_list_ascii (map urlDigit (toSextets data)).
Proof.
  unfold encodeBase64Url. f_equal. rewrite toBase64_sextets.
  generalize (padCount (length data)). intros k.
  pose proof (toSextets_range data) as Hss.
  unfold replaceAll, removeAll.
  induction Hss as [|s ss Hs _ IH]; cbn [map app].
  - induction k as [|k IHk]; [reflexivity|].
    cbn [replicate map]. rewrite filter_cons_False; [exact IHk|].
    intros H. apply H. reflexivity.
  - destruct (urlDigit_spec s Hs) as (_ & Hp & _).
    rewrite filter_cons_True by exact Hp.
    rewrite IH. reflexivity.
Qed.

Lemma toSextets_length (data : Uint8Array) :
  length (toSextets data) = ((4 * length data + 2) / 3)%nat.
Proof.
  induction data as [|a|a b|a b c rest IH] using list_ind3; try reflexivity.
  cbn [toSextets length]. rewrite IH.
  replace (4 * S (S (S (length rest))) + 2)%nat
    with (4 * length rest + 2 + 4 * 3)%nat by lia.
  rewrite Nat.div_add by lia. lia.
Qed.

Lemma string_of_list_ascii_length (text : list ascii) :
  String.length (string_of_list_ascii text) = length text.
Proof. induction text as [|c text IH]; [reflexivity|]. cbn. rewrite IH. reflexivity. Qed.

Lemma toBase64_length (data : Uint8Array) : (length (toBase64 data) mod 4 = 0)%nat.
Proof.
  induction data as [|a|a b|a b c rest IH] using list_ind3; try reflexivity.
  cbn [toBase64 length].
  replace (S (S (S (S (length (toBase64 rest))))))
    with (length (toBase64 rest) + 1 * 4)%nat by lia.
  rewrite Nat.Div0.mod_add. exact IH.
Qed.

Lemma toBase64_standard (data : Uint8Array) :
  replaceAll "_" "/" (replaceAll "-" "+" (toBase64 data)) = toBase64 data.
Proof.
  rewrite toBase64_sextets. generalize (padCount (length data)). intros k.
  pose proof (toSextets_range data) as Hss. unfold replaceAll.
  induction Hss as [|s ss Hs _ IH]; cbn [map app].
  - induction k as [|k IHk]; [reflexivity|]. cbn [replicate map]. rewrite IHk. reflexivity.
  - destruct (urlDigit_spec s Hs) as (_ & _ & Hminus & Hunder).
    rewrite IH. f_equal.
    destruct (Ascii.eqb_spec (encodeSextet s) "-") as [E|_]; [contradiction|].
    destruct (Ascii.eqb_spec (encodeSextet s) "_") as [E|_]; [contradiction|].
    reflexivity.
Qed.

End TokenText.

(** The text encodeBase64Url makes of n bytes has ceil(4n/3) characters,
    each of them a letter, a digit, "-" or "_"; and decodeBase64Url also
    reads the padded base64 text of the bytes, as Buffer writes it, back to
    the bytes. *)
Theorem encodeBase64Url_text (data : Uint8Array) :
  String.length (Base64Url.encodeBase64Url data) = ((4 * length data + 2) / 3)%nat
  /\ Forall (fun c => c ∈ urlAlphabet)
       (list_ascii_of_string (Base64Url.encodeBase64Url data))
  /\ Base64Url.decodeBase64Url (string_of_list_ascii (Buffer.toBase64 data)) = Ok data.
Proof.
  split; [|split].
  - rewrite encodeBase64Url_digits, string_of_list_ascii_length, length_map.
    apply toSextets_length.
  - rewrite encodeBase64Url_digits, list_ascii_of_string_of_list_ascii.
    apply Forall_forall. intros c Hc.
    apply list_elem_of_fmap in Hc as (s & -> & Hs).
    apply urlDigit_spec.
    exact (proj1 (Forall_forall _ _) (toSextets_range data) s Hs).
  - unfold Base64Url.decodeBase64Url, Base64Url.toBase64Text, try_catch.
    rewrite list_ascii_of_string_of_list_ascii, toBase64_standard.
    rewrite toBase64_length. cbn [Nat.sub Nat.modulo replicate].
    change ((4 - 0) mod 4)%nat with 0%nat. cbn [replicate].
    rewrite app_nil_r, fromBase64_toBase64. reflexivity.
Qed.

(** ** The errors of encode and decode (encoder.ts, decoder.ts) *)

Section Failures.
Import Validation Converter Compression Base64Url Encoder Decoder.
Context (P : Platform) (schemas : Schemas).

Lemma encodeFails_internal (data : value) (schema : ZodType) (version : option Z)
  (e : Errors.error) :
  encodeInternal P schemas data schema (default 1 version) = Throw e ->
  encodeFails P schemas data schema version e.
Proof.
  intros H. unfold encodeFails, encode, encodeSafe. rewrite H. split; reflexivity.
Qed.

Lemma decodeFails_internal (encoded : string) (schema : ZodType) (e : Errors.error) :
  decodeInternal P schemas encoded schema = Throw e ->
  decodeFails P schemas encoded schema e.
Proof.
  intros H. unfold decodeFails, decode, decodeWithVersion, decodeSafe. rewrite H.
  repeat split.
Qed.

Lemma extractVersion_invalid (decodedObj : gmap string value) :
  typeof (get decodedObj RESERVED_FIELD) <> "undefined" ->
  typeof (get decodedObj RESERVED_FIELD) <> "number" ->
  extractVersion decodedObj
  = Throw (DecodingError
             ("Invalid version field: " +:+ RESERVED_FIELD +:+ ". Expected number, got "
              +:+ typeof (get decodedObj RESERVED_FIELD))).
Proof.
  intros Hu Hn. unfold extractVersion.
  destruct (get decodedObj RESERVED_FIELD); try reflexivity;
    exfalso; [apply Hu|apply Hn]; reflexivity.
Qed.

End Failures.

(** Under a schema that passes validation, encode fails with: the error of
    schema.parse, unchanged, when the data does not validate; a
    ValidationError when what validation returns is no object; the error of
    the wire-schema builder or of the serializer, unchanged; a
    CompressionError when deflate throws.  The safe-parse mode reports the
    same error in its result. *)
Theorem encode_failures (P : Platform) (schemas : Validation.Schemas)
  (data : value) (schema : Validation.ZodType) (version : option Z) :
  Validation.validateSchema schemas schema = Ok tt ->
  (forall e, zod_parse P schemas schema data = Throw e ->
             encodeFails P schemas data schema version e)
  /\ (forall validated,
        zod_parse P schemas schema data = Ok validated ->
        (forall props, validated <> VObject props) ->
        encodeFails P schemas data schema version
          (ValidationError
             "Encoded data must be an object. Root schema must be z.object({})"))
  /\ (forall props e,
        zod_parse P schemas schema data = Ok (VObject props) ->
        Converter.zodToProtobuf P schemas schema "EncodedState" = Throw e ->
        encodeFails P schemas data schema version e)
  /\ (forall props pbType e,
        zod_parse P schemas schema data = Ok (VObject props) ->
        Converter.zodToProtobuf P schemas schema "EncodedState" = Ok pbType ->
        Type_fromObject P pbType
          (VObject (Encoder.withVersion props (default 1 version))) = Throw e ->
        encodeFails P schemas data schema version e)
  /\ (forall props pbType message e,
        zod_parse P schemas schema data = Ok (VObject props) ->
        Converter.zodToProtobuf P schemas schema "EncodedState" = Ok pbType ->
        Type_fromObject P pbType
          (VObject (Encoder.withVersion props (default 1 version))) = Ok message ->
        Type_encode P pbType message = Throw e ->
        encodeFails P schemas data schema version e)
  /\ (forall props pbType message binary e,
        zod_parse P schemas schema data = Ok (VObject props) ->
        Converter.zodToProtobuf P schemas schema "EncodedState" = Ok pbType ->
        Type_fromObject P pbType
          (VObject (Encoder.withVersion props (default 1 version))) = Ok message ->
        Type_encode P pbType message = Ok binary ->
        (if isNode P then zlib_deflateSync P binary else pako_deflate P binary)
          = Throw e ->
        encodeFails P schemas data schema version
          (CompressionError "Compression failed")).
Proof.
  intros Hv. repeat match goal with |- _ /\ _ => split end.
  all: intros; apply encodeFails_internal; unfold Encoder.encodeInternal;
    rewrite (bind_step _ _ _ Hv).
  - apply bind_Throw. assumption.
  - rewrite (bind_step _ _ _ H). destruct validated; try reflexivity.
    exfalso. eapply H0. reflexivity.
  - rewrite (bind_step _ _ _ H). apply bind_Throw. assumption.
  - rewrite (bind_step _ _ _ H), (bind_step _ _ _ H0). apply bind_Throw. assumption.
  - rewrite (bind_step _ _ _ H), (bind_step _ _ _ H0), (bind_step _ _ _ H1).
    apply bind_Throw. assumption.
  - rewrite (bind_step _ _ _ H), (bind_step _ _ _ H0), (bind_step _ _ _ H1),
      (bind_step _ _ _ H2).
    apply bind_Throw. unfold Compression.compress. rewrite H3. reflexivity.
Qed.

(** Under a schema that passes validation, on the bytes of a token, decode
    fails with: a CompressionError when the marker is 0x01 and inflate
    throws; the error of the wire-schema builder, unchanged; a DecodingError
    when the wire bytes do not decode; a DecodingError when the version field
    is there and is no number; the error of schema.parse, unchanged, when the
    decoded object does not validate.  decodeWithVersion throws the same
    error and the safe-parse mode reports it. *)
Theorem decode_failures (P : Platform) (schemas : Validation.Schemas)
  (encoded : string) (schema : Validation.ZodType) (bytes : Uint8Array) :
  Validation.validateSchema schemas schema = Ok tt ->
  Base64Url.decodeBase64Url encoded = Ok bytes ->
  (forall payload e,
     bytes = x01 :: payload ->
     (if isNode P then zlib_inflateSync P payload else pako_inflate P payload) = Throw e ->
     decodeFails P schemas encoded schema (CompressionError "Decompression failed"))
  /\ (forall binary e,
        Decoder.unmark P bytes = Ok binary ->
        Converter.zodToProtobuf P schemas schema "EncodedState" = Throw e ->
        decodeFails P schemas encoded schema e)
  /\ (forall binary pbType e,
        Decoder.unmark P bytes = Ok binary ->
        Converter.zodToProtobuf P schemas schema "EncodedState" = Ok pbType ->
        Type_decode P pbType binary = Throw e ->
        decodeFails P schemas encoded schema
          (DecodingError "Failed to decode protobuf message"))
  /\ (forall binary pbType decoded,
        Decoder.unmark P bytes = Ok binary ->
        Converter.zodToProtobuf P schemas schema "EncodedState" = Ok pbType ->
        Type_decode P pbType binary = Ok decoded ->
        typeof (get (Type_toObject P pbType decoded) Validation.RESERVED_FIELD)
          <> "undefined" ->
        typeof (get (Type_toObject P pbType decoded) Validation.RESERVED_FIELD)
          <> "number" ->
        decodeFails P schemas encoded schema
          (DecodingError
             ("Invalid version field: " +:+ Validation.RESERVED_FIELD
              +:+ ". Expected number, got "
              +:+ typeof (get (Type_toObject P pbType decoded)
                            Validation.RESERVED_FIELD))))
  /\ (forall binary pbType decoded dataWithoutVersion finalVersion e,
        Decoder.unmark P bytes = Ok binary ->
        Converter.zodToProtobuf P schemas schema "EncodedState" = Ok pbType ->
        Type_decode P pbType binary = Ok decoded ->
        Decoder.extractVersion (Type_toObject P pbType decoded)
          = Ok (dataWithoutVersion, finalVersion) ->
        zod_parse P schemas schema (VObject dataWithoutVersion) = Throw e ->
        decodeFails P schemas encoded schema e).
Proof.
  intros Hv Hb. repeat match goal with |- _ /\ _ => split end.
  all: intros; apply decodeFails_internal.
  - apply (decodeInternal_unmark P schemas encoded schema bytes _ Hv Hb).
    subst bytes. cbn [Decoder.unmark]. change (Zb x01 =? 1) with true. cbv iota.
    unfold Compression.decompress. rewrite H0. reflexivity.
  - rewrite (decodeInternal_binary P schemas encoded schema bytes binary Hv Hb H).
    apply bind_Throw. assumption.
  - rewrite (decodeInternal_binary P schemas encoded schema bytes binary Hv Hb H).
    rewrite (bind_step _ _ _ H0), H1. reflexivity.
  - rewrite (decodeInternal_binary P schemas encoded schema bytes binary Hv Hb H).
    rewrite (bind_step _ _ _ H0), H1. cbn [try_catch mbind result_bind bind].
    rewrite extractVersion_invalid by assumption. reflexivity.
  - rewrite (decodeInternal_binary P schemas encoded schema bytes binary Hv Hb H).
    rewrite (bind_step _ _ _ H0), H1. cbn [try_catch mbind result_bind bind].
    rewrite H2. cbn [mbind result_bind bind]. rewrite H3. reflexivity.
Qed.

(** A string is no person: encode throws what validation throws. *)
Lemma encode_failures_witness :
  Validation.validateSchema Reference.person 0%nat = Ok tt
  /\ encodeFails Reference.platform Reference.person (VString "x") 0%nat None
       Reference.zodError.
Proof.
  assert (Hv : Validation.validateSchema Reference.person 0%nat = Ok tt)
    by (vm_compute; reflexivity).
  split; [exact Hv|].
  apply (proj1 (encode_failures Reference.platform Reference.person (VString "x")
                  0%nat None Hv)).
  vm_compute. reflexivity.
Defined.

(** The token "AP8" is the raw marker followed by the byte 255, which is no
    message; the token "AQAA" is the compressed marker followed by two bytes
    that are no zlib stream. *)
Lemma decode_failures_witness :
  Validation.validateSchema Reference.person 0%nat = Ok tt
  /\ Base64Url.decodeBase64Url "AP8" = Ok [x00; xff]
  /\ decodeFails Reference.platform Reference.person "AP8" 0%nat
       (DecodingError "Failed to decode protobuf message").
Proof.
  assert (Hv : Validation.validateSchema Reference.person 0%nat = Ok tt)
    by (vm_compute; reflexivity).
  assert (Hb : Base64Url.decodeBase64Url "AP8" = Ok [x00; xff])
    by (vm_compute; reflexivity).
  split; [exact Hv|]. split; [exact Hb|].
  apply (proj1 (proj2 (proj2 (decode_failures Reference.platform Reference.person
                                "AP8" 0%nat [x00; xff] Hv Hb)))
           [xff] Examples.personType (PlainError "index out of range"));
    vm_compute; reflexivity.
Defined.

Example inflate_failure :
  decodeFails Reference.platform Reference.person "AQAA" 0%nat
    (CompressionError "Decompression failed").
Proof. repeat split; vm_compute; reflexivity. Qed.

(** ** The string dictionary (optimizations/string-dictionary.ts) *)

Section Values.

Lemma valueSize_item (items : list value) (item : value) :
  item ∈ items -> (valueSize item < valueSize (VArray items))%nat.
Proof.
  intros Hin. cbn [valueSize]. induction items as [|other items IH]; [inversion Hin|].
  rewrite fmap_cons. change (list_sum (?x :: ?l)) with (x + list_sum l)%nat.
  apply elem_of_cons in Hin as [->|Hin]; [lia|]. specialize (IH Hin). lia.
Qed.

Lemma valueSize_property (props : gmap string value) (key : string) (val : value) :
  props !! key = Some val -> (valueSize val < valueSize (VObject props))%nat.
Proof.
  intros Hkey. cbn [valueSize].
  rewrite (map_fold_delete_L _ _ key (valueSize val) (valueSize <$> props)).
  - lia.
  - intros. lia.
  - rewrite lookup_fmap, Hkey. reflexivity.
Qed.

(** Induction on values: an array under the hypothesis for its items, an
    object under the hypothesis for its properties. *)
Lemma value_ind' (Q : value -> Prop) :
  Q VUndefined -> Q VNull -> (forall b, Q (VBoolean b)) -> (forall n, Q (VNumber n)) ->
  (forall s, Q (VString s)) ->
  (forall items, Forall Q items -> Q (VArray items)) ->
  (forall props, map_Forall (fun _ => Q) props -> Q (VObject props)) ->
  forall v, Q v.
Proof.
  intros Hu Hn Hb Hz Hs Ha Ho v.
  remember (valueSize v) as size eqn:Hsize.
  revert v Hsize. induction size as [size IH] using lt_wf_ind. intros v ->.
  destruct v as [| |b|n|s|items|props]; auto.
  - apply Ha, Forall_forall. intros item Hin.
    exact (IH _ (valueSize_item items item Hin) item eq_refl).
  - apply Ho. intros key val Hkey.
    exact (IH _ (valueSize_property props key val Hkey) val eq_refl).
Qed.

End Values.

Section Dictionary.
Import StringDictionary Builtins.
Context (minLength : nat).

Lemma extends_trans (d0 d1 d2 : StringDictionary) (A B : string -> Prop) :
  extends minLength d0 d1 A -> extends minLength d1 d2 B ->
  extends minLength d0 d2 (fun s => A s \/ B s).
Proof.
  intros [_ H1] [Hc H2]. split; [exact Hc|].
  intros s. rewrite H2, H1. tauto.
Qed.

Lemma extends_iff (d0 d1 : StringDictionary) (A B : string -> Prop) :
  (forall s, A s <-> B s) -> extends minLength d0 d1 A -> extends minLength d0 d1 B.
Proof.
  intros HAB [Hc H]. split; [exact Hc|]. intros s. rewrite H, HAB. tauto.
Qed.

Lemma extends_refl (d : StringDictionary) :
  consistent d -> extends minLength d d (fun _ => False).
Proof. intros Hc. split; [exact Hc|]. intros s. tauto. Qed.

Lemma traverseString_extends (value : string) (d : StringDictionary) :
  consistent d ->
  extends minLength d (traverseString minLength value d) (fun s => s = value).
Proof.
  intros Hc. unfold traverseString.
  destruct (Nat.leb_spec minLength (String.length value)) as [Hlong|Hshort]; cbn [andb].
  2: { split; [exact Hc|]. intros s. split; [tauto|]. intros [H|[-> H]]; [exact H|lia]. }
  destruct (stringToIndex d !! value) as [index|] eqn:Hidx.
  - rewrite bool_decide_eq_true_2 by eauto. cbn [negb].
    split; [exact Hc|]. intros s. split; [tauto|].
    intros [H|[-> _]]; [exact H|].
    apply Hc in Hidx. eapply list_elem_of_lookup_2, Hidx.
  - rewrite bool_decide_eq_false_2 by (intros [x Hx]; discriminate). cbn [negb].
    split; cbn [strings stringToIndex].
    + intros s index. cbn [strings stringToIndex].
      destruct (decide (s = value)) as [->|Hne].
      * rewrite lookup_insert_eq. split.
        -- intros [= <-]. rewrite lookup_app_r, Nat.sub_diag by lia. reflexivity.
        -- intros H. apply lookup_app_Some in H as [H|[Hge H]].
           ++ apply Hc in H. congruence.
           ++ apply list_lookup_singleton_Some in H as [H _]. f_equal. lia.
      * rewrite lookup_insert_ne by congruence. rewrite (Hc s index). split.
        -- intros H. apply lookup_app_Some. left. exact H.
        -- intros H. apply lookup_app_Some in H as [H|[_ H]]; [exact H|].
           apply list_lookup_singleton_Some in H as [_ H]. congruence.
    + intros s. rewrite elem_of_app, list_elem_of_singleton.
      split.
      * intros [H| ->]; auto.
      * intros [H|[-> _]]; auto.
Qed.

Lemma traverseItems_extends (items : list value) :
  Forall (fun item => forall d, consistent d ->
                      extends minLength d (traverse minLength item d) (occursIn item))
         items ->
  forall d, consistent d ->
  extends minLength d
    (foldl (fun dictionary item => traverse minLength item dictionary) d items)
    (fun s => exists item, item ∈ items /\ occursIn item s).
Proof.
  induction 1 as [|item items Hitem _ IH]; intros d Hc; cbn [foldl].
  - eapply extends_iff, extends_refl, Hc.
    intros s. split; [tauto|]. intros (item & Hin & _). inversion Hin.
  - pose proof (Hitem d Hc) as H1.
    pose proof (IH _ (proj1 H1)) as H2.
    eapply extends_iff, (extends_trans _ _ _ _ _ H1 H2).
    intros s. split.
    + intros [H|(other & Hin & H)]; [exists item|exists other];
        (split; [|exact H]); [left|right; exact Hin].
    + intros (other & Hin & H). apply elem_of_cons in Hin as [->|Hin];
        [left; exact H|right; exists other; auto].
Qed.

Lemma traverseKeys_extends (props : gmap string value) (keyList : list string) :
  map_Forall (fun _ val => forall d, consistent d ->
                extends minLength d (traverse minLength val d) (occursIn val)) props ->
  (forall key, key ∈ keyList -> is_Some (props !! key)) ->
  forall d, consistent d ->
  extends minLength d
    (foldl (fun dictionary key =>
              let dictionary := traverseString minLength key dictionary in
              match (traverse minLength <$> props) !! key with
              | Some visit => visit dictionary
              | None => dictionary
              end) d keyList)
    (fun s => exists key, key ∈ keyList
                /\ (s = key \/ exists val, props !! key = Some val /\ occursIn val s)).
Proof.
  intros Hprops. induction keyList as [|key keyList IH]; intros Hkeys d Hc; cbn [foldl].
  - eapply extends_iff, extends_refl, Hc.
    intros s. split; [tauto|]. intros (key & Hin & _). inversion Hin.
  - destruct (Hkeys key) as [val Hval]; [left|].
    rewrite lookup_fmap, Hval. cbn [fmap option_fmap option_map].
    pose proof (traverseString_extends key d Hc) as H1.
    pose proof (Hprops key val Hval _ (proj1 H1)) as H2.
    pose proof (IH (fun k Hk => Hkeys k (list_elem_of_further _ _ _ Hk)) _ (proj1 H2)) as H3.
    eapply extends_iff, (extends_trans _ _ _ _ _ (extends_trans _ _ _ _ _ H1 H2) H3).
    intros s. split.
    + intros [[-> |H]|(other & Hin & H)].
      * exists key. split; [left|left; reflexivity].
      * exists key. split; [left|right; exists val; auto].
      * exists other. split; [right; exact Hin|exact H].
    + intros (other & Hin & H). apply elem_of_cons in Hin as [->|Hin].
      * left. destruct H as [->|(val' & Hval' & H)]; [left; reflexivity|].
        right. congruence.
      * right. exists other. auto.
Qed.

Lemma sort_keys (props : gmap string value) (key : string) :
  key ∈ sort (keys props) <-> is_Some (props !! key).
Proof.
  unfold sort, keys. rewrite merge_sort_Permutation.
  rewrite list_elem_of_fmap. split.
  - intros ([k val] & -> & Hin). apply elem_of_map_to_list in Hin. eauto.
  - intros [val Hval]. exists (key, val). split; [reflexivity|].
    apply elem_of_map_to_list. exact Hval.
Qed.

Lemma traverse_extends (v : value) :
  forall d, consistent d -> extends minLength d (traverse minLength v d) (occursIn v).
Proof.
  induction v as [| |b|n|s|items IH|props IH] using value_ind'; intros d Hc;
    cbn [traverse].
  1-4: eapply extends_iff, extends_refl, Hc; intros s; split; [tauto|]; inversion 1.
  - eapply extends_iff, traverseString_extends, Hc.
    intros s'. split; [intros ->; constructor|inversion 1; reflexivity].
  - eapply extends_iff, traverseItems_extends; [|exact IH|exact Hc].
    intros s. split.
    + intros (item & Hin & H). econstructor; eassumption.
    + inversion 1; subst. eauto.
  - eapply extends_iff, traverseKeys_extends; [|exact IH| |exact Hc].
    + intros s. split.
      * intros (key & Hin & [->|(val & Hval & H)]).
        -- apply occurs_key, sort_keys, Hin.
        -- eapply occurs_property; eassumption.
      * inversion 1; subst.
        -- exists s. split; [apply sort_keys; assumption|left; reflexivity].
        -- exists key. split; [apply sort_keys; eauto|right; eauto].
    + intros key. apply sort_keys.
Qed.

Lemma consistent_empty : consistent {| stringToIndex := ∅; strings := [] |}.
Proof. intros s index. cbn. rewrite lookup_empty, lookup_nil. split; discriminate. Qed.

Lemma consistent_NoDup (d : StringDictionary) : consistent d -> NoDup (strings d).
Proof.
  intros Hc. apply NoDup_alt. intros i j s Hi Hj.
  apply Hc in Hi, Hj. congruence.
Qed.

End Dictionary.

Lemma buildStringDictionary_consistent (data : value) (minLength : option nat) :
  consistent (StringDictionary.buildStringDictionary data minLength).
Proof.
  unfold StringDictionary.buildStringDictionary.
  apply (traverse_extends _ data _ consistent_empty).
Qed.

(** The dictionary buildStringDictionary makes of a value holds, each once,
    exactly the strings that occur in the value (as a string value or as
    the key of an object, at any depth) and have at least minLength
    characters; and its map gives each of them the index at which the array
    holds it. *)
Theorem buildStringDictionary_holds (data : value) (minLength : option nat) :
  let dictionary := StringDictionary.buildStringDictionary data minLength in
  NoDup (StringDictionary.strings dictionary)
  /\ (forall s, s ∈ StringDictionary.strings dictionary
                <-> occursIn data s
                    /\ (default StringDictionary.DEFAULT_MIN_LENGTH minLength
                        <= String.length s)%nat)
  /\ consistent dictionary.
Proof.
  cbv zeta. unfold StringDictionary.buildStringDictionary.
  destruct (traverse_extends (default StringDictionary.DEFAULT_MIN_LENGTH minLength)
              data _ consistent_empty) as [Hc Hin].
  split; [apply consistent_NoDup, Hc|]. split; [|exact Hc].
  intros s. rewrite Hin. cbn [StringDictionary.strings]. split.
  - intros [H|H]; [inversion H|exact H].
  - intros H. right. exact H.
Qed.

Section Restore.
Import StringDictionary Builtins.

Lemma collectItems_Ok (g : value -> result value) (items : list value) :
  Forall (fun item => g item = Ok item) items ->
  collectItems (g <$> items) = Ok items.
Proof.
  induction 1 as [|item items Hitem _ IH]; [reflexivity|].
  rewrite fmap_cons. cbn [collectItems]. rewrite Hitem, IH. reflexivity.
Qed.

Lemma collectEntries_Ok (g : value -> result value) (props : gmap string value) :
  map_Forall (fun _ val => g val = Ok val) props ->
  collectEntries (g <$> props) = Ok props.
Proof.
  unfold collectEntries. rewrite map_fold_fmap.
  apply (map_fold_weak_ind
           (fun r m => map_Forall (fun _ val => g val = Ok val) m -> r = Ok m)).
  - intros _. reflexivity.
  - intros key val m r Hnone IH Hall.
    apply map_Forall_insert in Hall as [Hval Hall]; [|exact Hnone].
    cbn. rewrite (IH Hall). cbn [mbind result_bind bind]. rewrite Hval. reflexivity.
Qed.

Lemma plainData_items (items : list value) :
  plainData (VArray items) = true -> Forall (fun item => plainData item = true) items.
Proof.
  cbn [plainData]. intros H. apply Forall_forall. intros item Hin.
  apply (proj1 (forallb_forall _ _) H). apply list_elem_of_In. exact Hin.
Qed.

Lemma plainData_props (props : gmap string value) :
  plainData (VObject props) = true ->
  isReference (props !! "__ref") = false
  /\ props !! "__proto__" = None
  /\ map_Forall (fun _ val => plainData val = true) props.
Proof.
  cbn [plainData]. intros H.
  apply andb_true_iff in H as [H Hall]. apply andb_true_iff in H as [Href Hproto].
  split; [destruct (isReference _); [discriminate|reflexivity]|]. split.
  - destruct (props !! "__proto__") eqn:E; [|reflexivity].
    rewrite bool_decide_eq_true_2 in Hproto by eauto. discriminate.
  - intros key val Hkey.
    rewrite (map_fold_delete_L _ _ key (plainData val) (plainData <$> props)) in Hall.
    + apply andb_true_iff in Hall as [Hval _]. exact Hval.
    + intros. rewrite !andb_assoc, (andb_comm z1 z2). reflexivity.
    + rewrite lookup_fmap, Hkey. reflexivity.
Qed.

Lemma replace_not_reference (dictionary : StringDictionary) (minLength : nat)
  (property : option value) :
  isReference property = false ->
  isReference (replace dictionary minLength <$> property) = false.
Proof.
  destruct property as [[| |b|n|s|items|props]|]; try reflexivity; try discriminate.
  intros _. cbn [fmap option_fmap option_map replace].
  destruct (minLength <=? String.length s)%nat; [|reflexivity].
  destruct (stringToIndex dictionary !! s); reflexivity.
Qed.

Lemma restore_replace (dictionary : StringDictionary) (minLength : nat) :
  consistent dictionary ->
  forall v, plainData v = true ->
  restore (strings dictionary) (replace dictionary minLength v) = Ok v.
Proof.
  intros Hc. induction v as [| |b|n|s|items IH|props IH] using value_ind'; intros Hplain;
    try reflexivity.
  - cbn [replace]. destruct (minLength <=? String.length s)%nat; [|reflexivity].
    destruct (stringToIndex dictionary !! s) as [index|] eqn:Hidx; [|reflexivity].
    apply Hc in Hidx. pose proof (lookup_lt_Some _ _ _ Hidx) as Hlt.
    cbn [restore]. rewrite lookup_singleton_eq.
    destruct (Z.geb_spec (Z.of_nat index) 0); [|lia].
    destruct (Z.ltb_spec (Z.of_nat index) (Z.of_nat (length (strings dictionary))));
      [|lia].
    cbn [andb]. rewrite Nat2Z.id, Hidx. reflexivity.
  - cbn [replace restore]. rewrite <- list_fmap_compose.
    rewrite collectItems_Ok; [reflexivity|].
    apply plainData_items in Hplain.
    apply Forall_forall. intros item Hin. cbn.
    apply (proj1 (Forall_forall _ _) IH item Hin).
    apply (proj1 (Forall_forall _ _) Hplain item Hin).
  - destruct (plainData_props props Hplain) as (Href & Hproto & Hall).
    cbn [replace]. rewrite delete_id by (rewrite lookup_fmap, Hproto; reflexivity).
    cbn [restore]. rewrite lookup_fmap.
    pose proof (replace_not_reference dictionary minLength _ Href) as Hnot.
    assert (Hgeneric :
      (entries ← collectEntries (restore (strings dictionary)
                                   <$> (replace dictionary minLength <$> props));
       Ok (VObject (delete "__proto__" entries))) = Ok (VObject props)).
    { rewrite <- map_fmap_compose.
      rewrite collectEntries_Ok.
      - cbn [mbind result_bind bind]. rewrite delete_id by exact Hproto. reflexivity.
      - intros key val Hkey. cbn. apply (IH key val Hkey), (Hall key val Hkey). }
    destruct (replace dictionary minLength <$> props !! "__ref") as [[]|];
      try exact Hgeneric. discriminate.
Qed.

End Restore.

(** Restoring what applyStringDictionary made of a value gives the value
    back, for the dictionary built from any value and under any two
    minimal lengths, when no object of the value has a numeric property
    __ref (restore would read it as a reference) or a property __proto__.
    A reference outside the array makes restore throw. *)
Theorem restoreStringDictionary_applyStringDictionary (data source : value)
  (minLength minLength' : option nat) :
  plainData data = true ->
  StringDictionary.restoreStringDictionary
    (StringDictionary.applyStringDictionary data
       (StringDictionary.buildStringDictionary source minLength) minLength')
    (StringDictionary.strings (StringDictionary.buildStringDictionary source minLength))
  = Ok data
  /\ (forall (strings : list string) (index : Z),
        index < 0 \/ Z.of_nat (length strings) <= index ->
        StringDictionary.restoreStringDictionary
          (VObject {[ "__ref" := VNumber index ]}) strings
        = Throw (StringDictionary.invalidReference index)).
Proof.
  intros Hplain. split.
  - unfold StringDictionary.restoreStringDictionary,
      StringDictionary.applyStringDictionary.
    apply restore_replace; [|exact Hplain].
    apply buildStringDictionary_consistent.
  - intros strings index Hrange.
    unfold StringDictionary.restoreStringDictionary. cbn [StringDictionary.restore].
    rewrite lookup_singleton_eq.
    destruct (Z.geb_spec index 0); destruct (Z.ltb_spec index (Z.of_nat (length strings)));
      try reflexivity; lia.
Qed.

(** The catalog: its dictionary, and the catalog restored. *)
Lemma restoreStringDictionary_applyStringDictionary_witness :
  plainData Examples.catalog = true
  /\ StringDictionary.strings (StringDictionary.buildStringDictionary Examples.catalog None)
     = ["category"; "electronics"; "name"; "tags"; "computers"]
  /\ StringDictionary.restoreStringDictionary
       (StringDictionary.applyStringDictionary Examples.catalog
          (StringDictionary.buildStringDictionary Examples.catalog None) None)
       (StringDictionary.strings
          (StringDictionary.buildStringDictionary Examples.catalog None))
     = Ok Examples.catalog.
Proof.
  assert (Hplain : plainData Examples.catalog = true) by (vm_compute; reflexivity).
  split; [exact Hplain|]. split; [vm_compute; reflexivity|].
  exact (proj1 (restoreStringDictionary_applyStringDictionary Examples.catalog
                  Examples.catalog None None Hplain)).
Defined.

(** ** The order of the boolean fields (optimizations/boolean-packing.ts) *)

Section KeyOrder.
Import Builtins.

Lemma ascii_compare_refl (a : ascii) : Ascii.compare a a = Eq.
Proof. unfold Ascii.compare. apply N.compare_refl. Qed.

Lemma string_leb_trans (s1 s2 s3 : string) :
  String.leb s1 s2 = true -> String.leb s2 s3 = true -> String.leb s1 s3 = true.
Proof.
  unfold String.leb. revert s2 s3.
  induction s1 as [|a s1 IH]; intros [|b s2] [|c s3]; cbn [String.compare];
    try reflexivity; try discriminate.
  unfold Ascii.compare.
  destruct (N.compare_spec (N_of_ascii a) (N_of_ascii b)) as [Hab|Hab|Hab];
    destruct (N.compare_spec (N_of_ascii b) (N_of_ascii c)) as [Hbc|Hbc|Hbc];
    try discriminate; intros H1 H2.
  - rewrite Hab, Hbc, N.compare_refl. exact (IH _ _ H1 H2).
  - rewrite Hab. rewrite (proj2 (N.compare_lt_iff _ _) Hbc). reflexivity.
  - rewrite <- Hbc. rewrite (proj2 (N.compare_lt_iff _ _) Hab). reflexivity.
  - rewrite (proj2 (N.compare_lt_iff _ _) (N.lt_trans _ _ _ Hab Hbc)). reflexivity.
Qed.

(** Sorting does not depend on the order of what is sorted. *)
Lemma sort_Permutation (keys keys' : list string) :
  keys ≡ₚ keys' -> sort keys = sort keys'.
Proof.
  intros Hperm. unfold sort.
  set (R := fun a b : string => Is_true (String.leb a b)).
  assert (Htrans : Transitive R).
  { intros x y z Hxy Hyz. apply Is_true_true. apply Is_true_true in Hxy, Hyz.
    exact (string_leb_trans x y z Hxy Hyz). }
  assert (Hanti : AntiSymm eq R).
  { intros x y Hxy Hyx. apply Is_true_true in Hxy, Hyx.
    exact (String.leb_antisym x y Hxy Hyx). }
  assert (Htotal : Total R).
  { intros x y. destruct (String.leb_total x y) as [H|H];
      [left|right]; apply Is_true_true, H. }
  apply (Sorted_unique R).
  - apply Sorted_merge_sort, Htotal.
  - apply Sorted_merge_sort, Htotal.
  - rewrite !merge_sort_Permutation. exact Hperm.
Qed.

End KeyOrder.

Section FieldOrder.
Import Validation BooleanFields Builtins.

Lemma shapeAt_Some (shape : list (string * ZodType)) (key : string) (field : ZodType) :
  NoDup shape.*1 ->
  shapeAt shape key = Some field <-> (key, field) ∈ shape.
Proof.
  intros Hnodup. unfold shapeAt. split.
  - destruct (list_find _ shape) as [[i [k f]]|] eqn:E; [|discriminate].
    intros [= <-]. apply list_find_Some in E as (Hi & Hk & _). cbn in Hk. subst k.
    eapply list_elem_of_lookup_2, Hi.
  - intros Hin. apply list_elem_of_lookup in Hin as [i Hi].
    destruct (list_find (fun entry => entry.1 = key) shape) as [[j [k f]]|] eqn:E.
    + apply list_find_Some in E as (Hj & Hk & _). cbn in Hk. subst k. cbn. f_equal.
      assert (i = j).
      { apply (NoDup_lookup _ i j key Hnodup); rewrite list_lookup_fmap;
          [rewrite Hi|rewrite Hj]; reflexivity. }
      subst j. congruence.
    + exfalso. apply list_find_None in E.
      apply (proj1 (Forall_forall _ _) E (key, field)); [|reflexivity].
      eapply list_elem_of_lookup_2, Hi.
Qed.

Lemma shapeAt_Permutation (shape shape' : list (string * ZodType)) (key : string) :
  shape ≡ₚ shape' -> NoDup shape.*1 -> shapeAt shape key = shapeAt shape' key.
Proof.
  intros Hperm Hnodup.
  assert (Hnodup' : NoDup shape'.*1) by (rewrite <- Hperm; exact Hnodup).
  destruct (shapeAt shape key) as [field|] eqn:E.
  - symmetry. apply shapeAt_Some; [exact Hnodup'|].
    rewrite <- Hperm. apply shapeAt_Some; assumption.
  - destruct (shapeAt shape' key) as [field'|] eqn:E'; [|reflexivity].
    apply shapeAt_Some in E'; [|exact Hnodup'].
    rewrite <- Hperm in E'. apply shapeAt_Some in E'; [|exact Hnodup]. congruence.
Qed.

Context (schemas schemas' : Schemas).
Hypothesis Hsame : forall s, sameFields (schemas !! s) (schemas' !! s).

Lemma sameFields_size : size schemas = size schemas'.
Proof.
  rewrite <- !size_dom. f_equal. apply set_eq. intros s.
  rewrite !elem_of_dom. specialize (Hsame s). unfold sameFields in Hsame.
  destruct (schemas !! s) as [[]|]; destruct (schemas' !! s) as [[]|];
    try discriminate; split; eauto.
Qed.

Lemma sameFields_unwrapEffects (fuel : nat) (s : ZodType) :
  Converter.unwrapEffects schemas fuel s = Converter.unwrapEffects schemas' fuel s.
Proof.
  revert s. induction fuel as [|fuel IH]; intros s; [reflexivity|].
  cbn [Converter.unwrapEffects]. specialize (Hsame s). unfold sameFields in Hsame.
  destruct (schemas !! s) as [[]|]; destruct (schemas' !! s) as [[]|];
    try discriminate; try reflexivity; try (injection Hsame as ->); auto.
Qed.

Lemma traverseKeys_same
  (recur recur' : ZodType -> list string -> Found -> result Found)
  (shape shape' : list (string * ZodType)) (currentPath : list string) :
  (forall s p found, recur s p found = recur' s p found) ->
  (forall key, shapeAt shape key = shapeAt shape' key) ->
  forall keys found,
    traverseKeys recur shape currentPath keys found
    = traverseKeys recur' shape' currentPath keys found.
Proof.
  intros Hrecur Hshape. induction keys as [|key keys IH]; intros found; [reflexivity|].
  cbn [traverseKeys]. rewrite <- Hshape.
  destruct (shapeAt shape key) as [field|]; [|apply IH].
  rewrite <- Hrecur. destruct (recur field _ found); cbn [mbind result_bind bind];
    [apply IH|reflexivity].
Qed.

Lemma traverse_same (fuel : nat) :
  forall s p found, traverse schemas fuel s p found = traverse schemas' fuel s p found.
Proof.
  induction fuel as [|fuel IH]; intros s p found; [reflexivity|].
  cbn [traverse]. unfold Converter.unwrap.
  rewrite sameFields_size, sameFields_unwrapEffects.
  destruct (Converter.unwrapEffects schemas' _ s) as [u|e];
    cbn [mbind result_bind bind]; [|reflexivity].
  assert (Hclass : forall t,
    match schemas !! t with
    | Some (ZodOptional innerType) | Some (ZodNullable innerType) => innerType
    | _ => t
    end
    = match schemas' !! t with
      | Some (ZodOptional innerType) | Some (ZodNullable innerType) => innerType
      | _ => t
      end
    /\ match schemas !! t with
       | Some (ZodDefault innerType) => innerType
       | _ => t
       end
       = match schemas' !! t with
         | Some (ZodDefault innerType) => innerType
         | _ => t
         end).
  { intros t. specialize (Hsame t). unfold sameFields in Hsame.
    destruct (schemas !! t) as [[]|]; destruct (schemas' !! t) as [[]|];
      try discriminate; try (injection Hsame as ->); try (injection Hsame as -> ->);
      split; reflexivity. }
  rewrite (proj1 (Hclass u)).
  set (u1 := match schemas' !! u with
             | Some (ZodOptional innerType) | Some (ZodNullable innerType) => innerType
             | _ => u
             end).
  rewrite (proj2 (Hclass u1)).
  set (u2 := match schemas' !! u1 with
             | Some (ZodDefault innerType) => innerType
             | _ => u1
             end).
  pose proof (Hsame u2) as H2. unfold sameFields in H2.
  destruct (schemas !! u2) as [[shape| | | | | | | | | | | | | | | | | | | | |]|];
    destruct (schemas' !! u2) as [[shape'| | | | | | | | | | | | | | | | | | | | |]|];
    try discriminate; try reflexivity.
  destruct H2 as [Hperm Hnodup].
  rewrite (sort_Permutation shape.*1 shape'.*1) by (rewrite Hperm; reflexivity).
  apply traverseKeys_same; [exact IH|].
  intros key. apply shapeAt_Permutation; assumption.
Qed.

End FieldOrder.

(** The boolean fields of a schema, and so the bit each one is packed in,
    do not depend on the order in which the object schemas declare their
    fields: two stores of schemas that agree up to that order give the same
    fields. *)
Theorem extractBooleanFields_order (schemas schemas' : Validation.Schemas)
  (schema : Validation.ZodType) (path0 : list string) :
  (forall s, sameFields (schemas !! s) (schemas' !! s)) ->
  BooleanFields.extractBooleanFields schemas schema path0
  = BooleanFields.extractBooleanFields schemas' schema path0.
Proof.
  intros Hsame. unfold BooleanFields.extractBooleanFields, Converter.stackDepth.
  rewrite (sameFields_size schemas schemas' Hsame).
  rewrite (traverse_same schemas schemas' Hsame). reflexivity.
Qed.

(** The preferences schema, with its fields declared in two orders. *)
Lemma extractBooleanFields_order_witness :
  (forall s, sameFields (Examples.preferences !! s) (Examples.preferencesReordered !! s))
  /\ BooleanFields.extractBooleanFields Examples.preferences 0%nat []
     = BooleanFields.extractBooleanFields Examples.preferencesReordered 0%nat [].
Proof.
  assert (Hsame : forall s, sameFields (Examples.preferences !! s)
                              (Examples.preferencesReordered !! s)).
  { intros s. unfold Examples.preferencesReordered.
    destruct (decide (s = 0%nat)) as [->|Hne].
    - rewrite lookup_insert_eq. vm_compute. split.
      + apply (Permutation_trans
                 (l' := [("active", 2%nat); ("verified", 5%nat); ("name", 1%nat);
                         ("settings", 3%nat)])).
        * symmetry. exact (Permutation_cons_append
                             [("verified", 5%nat); ("name", 1%nat); ("settings", 3%nat)]
                             ("active", 2%nat)).
        * apply perm_skip, perm_swap.
      + repeat constructor; rewrite ?elem_of_cons, ?elem_of_nil; intuition discriminate.
    - rewrite lookup_insert_ne by congruence. unfold sameFields.
      destruct (Examples.preferences !! s) as [[shape| | | | | | | | | | | | | | | | | | | | |]|]
        eqn:E; try reflexivity.
      split; [reflexivity|].
      do 6 (destruct s as [|s]; [vm_compute in E; try discriminate;
                                 try (injection E as <-; repeat constructor;
                                      rewrite ?elem_of_cons, ?elem_of_nil;
                                      intuition discriminate)|]).
      unfold Examples.preferences in E.
      rewrite !lookup_insert_ne, lookup_singleton_ne in E by lia. discriminate. }
  split; [exact Hsame|].
  exact (extractBooleanFields_order Examples.preferences Examples.preferencesReordered
           0%nat [] Hsame).
Defined.

(** ** Migrating up and back (migrations.ts) *)

Section UpDown.
Import Migrations.

Lemma down_up (hops : list Migration) :
  (forall m, m ∈ hops -> forall x, down m (up m x) = x) ->
  forall data,
    foldl (fun d m => down m d) (foldl (fun d m => up m d) data hops) (reverse hops)
    = data.
Proof.
  induction hops as [|m hops IH]; intros Hinverse data; [reflexivity|].
  rewrite reverse_cons. cbn [foldl]. rewrite foldl_app. cbn [foldl].
  rewrite IH by (intros m' Hm'; apply Hinverse; right; exact Hm').
  apply Hinverse. left.
Qed.

Lemma onAge_inverse (f g : Z -> Z) :
  (forall a, g (f a) = a) ->
  forall x, ReferenceMigrations.onAge g (ReferenceMigrations.onAge f x) = x.
Proof.
  intros Hgf x. unfold ReferenceMigrations.onAge.
  destruct x as [| | | | | |props]; try reflexivity.
  destruct (props !! "age") as [[| | |age| | |]|] eqn:E; rewrite ?E; try reflexivity.
  rewrite lookup_insert_eq, insert_insert_eq, Hgf, insert_id by exact E. reflexivity.
Qed.

End UpDown.

(** Migrating a token up and then back down, over migrations each of whose
    down undoes its up, re-encodes the data the token held at its own
    version, provided the migrated token decodes to the migrated data. *)
Theorem applyMigrations_up_down (P : Platform) (schemas : Validation.Schemas)
  (encoded migrated : string) (sourceSchema targetSchema : Validation.ZodType)
  (decoded : value) (currentVersion targetVersion : Z)
  (migrations : list (option Migrations.Migration))
  (hops : list Migrations.Migration) :
  Decoder.decodeWithVersion P schemas encoded sourceSchema = Ok (decoded, currentVersion) ->
  currentVersion < targetVersion ->
  length hops = Z.to_nat (targetVersion - currentVersion) ->
  (forall (i : nat) (m : Migrations.Migration), hops !! i = Some m ->
     Migrations.migrationAt migrations (currentVersion + Z.of_nat i - 1) = Some m) ->
  (forall m, m ∈ hops -> forall x, Migrations.down m (Migrations.up m x) = x) ->
  Migrations.applyMigrations P schemas encoded sourceSchema targetSchema
    targetVersion migrations = Ok migrated ->
  Decoder.decodeWithVersion P schemas migrated targetSchema
  = Ok (foldl (fun d m => Migrations.up m d) decoded hops, targetVersion) ->
  Migrations.applyMigrations P schemas migrated targetSchema sourceSchema
    currentVersion migrations
  = Encoder.encode P schemas decoded sourceSchema (Some currentVersion).
Proof.
  intros Hdec Hlt Hlen Hhops Hinverse _ Hback.
  rewrite (applyMigrations_down P schemas migrated targetSchema sourceSchema _
             targetVersion Hback currentVersion migrations (reverse hops)).
  - rewrite down_up by exact Hinverse. reflexivity.
  - exact Hlt.
  - rewrite length_reverse. exact Hlen.
  - intros i m Hi. apply reverse_lookup_Some in Hi as [Hi Hbound].
    rewrite <- (Hhops _ _ Hi). f_equal. lia.
Qed.

(** Alice's token, to version 3 and back to version 1. *)
Lemma applyMigrations_up_down_witness :
  Migrations.applyMigrations Reference.platform Reference.person "ABIFQWxpY2UYHg"
    0%nat 0%nat 3 [Some ReferenceMigrations.v1ToV2; Some ReferenceMigrations.v2ToV3]
  = Ok "AAgDEgVBbGljZRjUEQ"
  /\ Migrations.applyMigrations Reference.platform Reference.person "AAgDEgVBbGljZRjUEQ"
       0%nat 0%nat 1 [Some ReferenceMigrations.v1ToV2; Some ReferenceMigrations.v2ToV3]
     = Encoder.encode Reference.platform Reference.person Reference.alice 0%nat (Some 1).
Proof.
  assert (Hup : Migrations.applyMigrations Reference.platform Reference.person
                  "ABIFQWxpY2UYHg" 0%nat 0%nat 3
                  [Some ReferenceMigrations.v1ToV2; Some ReferenceMigrations.v2ToV3]
                = Ok "AAgDEgVBbGljZRjUEQ") by (vm_compute; reflexivity).
  split; [exact Hup|].
  apply (applyMigrations_up_down Reference.platform Reference.person
           "ABIFQWxpY2UYHg" "AAgDEgVBbGljZRjUEQ" 0%nat 0%nat Reference.alice 1 3
           [Some ReferenceMigrations.v1ToV2; Some ReferenceMigrations.v2ToV3]
           [ReferenceMigrations.v1ToV2; ReferenceMigrations.v2ToV3]).
  - vm_compute. reflexivity.
  - lia.
  - reflexivity.
  - intros [|[|i]] m Hi; try discriminate; injection Hi as <-; reflexivity.
  - intros m Hm x. apply elem_of_cons in Hm as [->|Hm];
      [|apply list_elem_of_singleton in Hm as ->].
    + apply onAge_inverse. intros a. apply Z.div_mul. lia.
    + apply onAge_inverse. intros a. lia.
  - exact Hup.
  - vm_compute. reflexivity.
Defined.
